(** * gopherpack: supervisor / worker process pack

    A shallow embedding of the Go package [gopherpack] (gopherpack.go,
    grpc_server.go and the files that hold [ListenAndServeHttp],
    [ListenAndServeTCP], [forkProcess], [getListenerWithSocketOptions] and
    [system.SetAffinity], with the [CPUSet] of golang.org/x/sys/unix that
    the latter fills in) together with the properties its specification
    states about role detection, the handshake environment, pool
    construction, the signal loops, hook isolation and the listener.

    Conventions.  Go's [int] and PIDs are [Z]; durations and clock readings
    are [N] nanoseconds; a Go [error] is the inductive [error] with its
    [Error] method, a nil error is [None]; a nil [*os.Process] is [None].
    Calls that leave the process (the logger, the operating system, the
    server handed in by the host application, the hooks) are recorded as
    [event]s in a trace, and what the operating system answers is read from
    an [OS] record. *)

From Stdlib Require Import String Ascii List ZArith NArith Lia Bool.
From Stdlib Require Import Decimal DecimalZ DecimalPos DecimalString.
Import ListNotations.
Local Open Scope string_scope.
Local Open Scope list_scope.

(** ** Go strings, numbers and errors *)

Module strings.

(** [strings.HasPrefix(s, prefix)] *)
Definition HasPrefix (s prefix : string) : bool := String.prefix prefix s.

(** [strings.Join(elems, sep)] *)
Definition Join (elems : list string) (sep : string) : string :=
  String.concat sep elems.

(** [s] occurs inside [t]. *)
Definition Contains (t s : string) : Prop :=
  exists a b, t = (a ++ s ++ b)%string.

End strings.

Inductive error : Type :=
  | errorString (s : string)
  | NumError (Func Num : string) (Err : error)
  | OpError (Op Net Addr : string) (Err : error).

Definition dquote : string := String (ascii_of_nat 34) EmptyString.

(** The [Error()] method.  [strconv.NumError] quotes the offending input
    (the escaping of unprintable characters is left out); [net.OpError]
    names the operation, the network and the address. *)
Fixpoint Error (e : error) : string :=
  match e with
  | errorString s => s
  | NumError f n e' =>
      ("strconv." ++ f ++ ": parsing " ++ dquote ++ n ++ dquote ++ ": " ++ Error e')%string
  | OpError op net addr e' =>
      (op ++ " " ++ net ++ " " ++ addr ++ ": " ++ Error e')%string
  end.

Inductive result (A : Type) : Type :=
  | Ok (a : A)
  | Err (e : error).
Arguments Ok {A} a.
Arguments Err {A} e.

Module fmt.

(** The verb [%d] applied to an [int]. *)
Definition d (z : Z) : string := NilZero.string_of_int (Z.to_int z).

(** [fmt.Sprintf("%s=%d", name, z)] *)
Definition Sprintf_s_eq_d (name : string) (z : Z) : string :=
  (name ++ "=" ++ d z)%string.

End fmt.

Module strconv.

Definition ErrSyntax : error := errorString "invalid syntax".
Definition ErrRange : error := errorString "value out of range".

Definition digit (c : ascii) : option Z :=
  let n := nat_of_ascii c in
  if andb (Nat.leb 48 n) (Nat.leb n 57) then Some (Z.of_nat (n - 48)) else None.

(** Reads a non-empty run of decimal digits, most significant first. *)
Fixpoint digits (s : string) (acc : Z) : option Z :=
  match s with
  | EmptyString => Some acc
  | String c rest =>
      match digit c with
      | Some v => digits rest (acc * 10 + v)
      | None => None
      end
  end.

Definition maxInt : Z := 2 ^ 63 - 1.
Definition minInt : Z := - 2 ^ 63.

(** [strconv.Atoi] on a 64-bit platform: an optional sign, then at least
    one decimal digit; a value outside [int] is a range error. *)
Definition Atoi (s : string) : result Z :=
  let body :=
    match s with
    | String "-" rest => (true, rest)
    | String "+" rest => (false, rest)
    | _ => (false, s)
    end in
  match snd body with
  | EmptyString => Err (NumError "Atoi" s ErrSyntax)
  | _ =>
      match digits (snd body) 0 with
      | None => Err (NumError "Atoi" s ErrSyntax)
      | Some n =>
          let v := if fst body then (- n)%Z else n in
          if andb (Z.leb minInt v) (Z.leb v maxInt) then Ok v
          else Err (NumError "Atoi" s ErrRange)
      end
  end.

End strconv.

(** ** The process environment *)

Module env.

(** Splits an entry [KEY=VALUE] at its first ['=']. *)
Fixpoint cut (s : string) : option (string * string) :=
  match s with
  | EmptyString => None
  | String c rest =>
      if Ascii.eqb c "="%char then Some (EmptyString, rest)
      else match cut rest with
           | Some (k, v) => Some (String c k, v)
           | None => None
           end
  end.

Definition hasKey (key : string) (entry : string) : bool :=
  match cut entry with
  | Some (k, _) => String.eqb k key
  | None => false
  end.

(** [os.LookupEnv]: the first entry that mentions the key wins; the empty
    key is never found. *)
Definition LookupEnv (envs : list string) (key : string) : option string :=
  if String.eqb key "" then None
  else match find (hasKey key) envs with
       | Some entry => option_map snd (cut entry)
       | None => None
       end.

(** [os.Getenv]: the value, or the empty string when the variable is not
    there. *)
Definition Getenv (envs : list string) (key : string) : string :=
  match LookupEnv envs key with
  | Some v => v
  | None => ""
  end.

(** What [os.Setenv], [os.Unsetenv] and [os.Clearenv] do to the list. *)
Inductive op : Type :=
  | Setenv (key value : string)
  | Unsetenv (key : string)
  | Clearenv.

Definition unset (envs : list string) (key : string) : list string :=
  filter (fun e => negb (hasKey key e)) envs.

Definition apply (envs : list string) (o : op) : list string :=
  match o with
  | Setenv k v => unset envs k ++ [(k ++ "=" ++ v)%string]
  | Unsetenv k => unset envs k
  | Clearenv => []
  end.

End env.

(** The names of the handshake variables ([envPrefix], [envPPID],
    [envCPUCore], [envPrevPPID]) are constants of the package; the code
    below only uses them through these four names. *)
Record EnvNames : Type := {
  envPrefix : string;
  envPPID : string;
  envCPUCore : string;
  envPrevPPID : string
}.

(** An instance, to run the definitions on. *)
Definition gopherpackNames : EnvNames :=
  {| envPrefix := "GOPHERPACK_";
     envPPID := "GOPHERPACK_PPID";
     envCPUCore := "GOPHERPACK_CPU_CORE";
     envPrevPPID := "GOPHERPACK_PREV_PPID" |}.

(** ** Signals, hooks, log records and the trace of outside calls *)

(** The signals the package subscribes to with [signal.Notify]. *)
Inductive Signal : Type := SIGINT | SIGTERM | SIGQUIT | SIGUSR2.

(** [syscall.Signal.String()] *)
Definition Signal_String (sig : Signal) : string :=
  match sig with
  | SIGINT => "interrupt"
  | SIGTERM => "terminated"
  | SIGQUIT => "quit"
  | SIGUSR2 => "user defined signal 2"
  end.

(** How a call of a host-supplied [func()] ends. *)
Inductive hook : Type :=
  | returns
  | panics (v : string).

(** [*os.Process] *)
Record Process : Type := { Pid : Z }.

(** Arguments handed to [Logger.Printf]. *)
Inductive arg : Type :=
  | aInt (z : Z)
  | aString (s : string)
  | aError (e : error)
  | aSignal (sig : Signal)
  | aRecovered (v : option string).

(** The function literals started with [go], with the variables they
    capture. *)
Inductive goroutine : Type :=
  | go_terminatePrevMain (prevMainPIDStr : string)
  | go_awaitShutdown
  | go_handler (conn : string * string).

Inductive event : Type :=
  | Printf (format : string) (args : list arg)
  | Println (line : string)
  | Call_forkProcess (envValues : list string)
  | os_StartProcess (name : string) (argv : list string) (dir : string)
                    (env : list string)
  | Process_Signal (pid : Z) (sig : Signal)
  | Process_Wait (pid : Z)
  | system_SetAffinity (cpuCore : Z)
  | runtime_GOMAXPROCS (n : Z)
  | net_Listen (network address : string)
  | time_Sleep (d : N)
  | go (f : goroutine)
  | Listener_Accept
  | Call_hook (name : string)
  | server_Shutdown
  | server_GracefulStop
  | server_Serve
  | server_ServeTLS.

(** What the operating system and the Go runtime answer. *)
Record OS : Type := {
  Args0 : string;                           (* os.Args[0] *)
  ArgsTail : list string;                   (* os.Args[1:] *)
  Environ : list string;                    (* os.Environ() *)
  Getpid : Z;                               (* os.Getpid() *)
  NumCPU : nat;                             (* runtime.NumCPU() *)
  LookPath : string -> result string;       (* exec.LookPath *)
  Getwd : result string;                    (* os.Getwd() *)
  (* os.StartProcess, by the number of earlier calls and its arguments *)
  StartProcess : nat -> string -> list string -> string -> list string -> result Z;
  (* unix.SchedSetaffinity, by pid and the words of the CPU set *)
  SchedSetaffinity : Z -> list Z -> option error;
  FindProcess : Z -> result Process;        (* os.FindProcess *)
  Signal_to : Z -> Signal -> option error;  (* Process.Signal *)
  (* Process.Wait: the state's text or an error; [None] when the
     process never exits and the call never returns *)
  Wait_for : Z -> option (result string);
  (* inside ListenConfig.Listen: a failure before the Control callback
     runs (resolving the address, creating the socket) *)
  Socket : string -> string -> option error;
  RawConn_Control : option error;           (* c.Control(f); on error f is not run *)
  SetsockoptInt : Z -> Z -> Z -> option error;  (* unix.SetsockoptInt by level, opt, value *)
  (* bind and listen: the listener's address, or an error *)
  BindListen : string -> string -> result string
}.

(** [os.Args]; a process has at least the name it was started under. *)
Definition Args (os : OS) : list string := Args0 os :: ArgsTail os.

(** ** Computations: a trace, a counter of started processes, and the three
    ways a Go call can end *)

Inductive outcome (A : Type) : Type :=
  | Value (a : A)          (* the call returns *)
  | Panic (v : string)     (* a run-time panic, or a fatal error, ends it *)
  | Blocked.               (* it waits for ever *)
Arguments Value {A} a.
Arguments Panic {A} v.
Arguments Blocked {A}.

Record state : Type := {
  trace : list event;
  started : nat
}.

Definition initial : state := {| trace := []; started := 0 |}.

Definition M (A : Type) : Type := state -> outcome A * state.

Definition ret {A} (a : A) : M A := fun st => (Value a, st).

Definition bind {A B} (c : M A) (k : A -> M B) : M B :=
  fun st =>
    match c st with
    | (Value a, st') => k a st'
    | (Panic v, st') => (Panic v, st')
    | (Blocked, st') => (Blocked, st')
    end.

Notation "x <- c ;; k" := (bind c (fun x => k))
  (at level 61, c at next level, right associativity).
Notation "c ;;; k" := (bind c (fun _ => k))
  (at level 61, right associativity).

Definition emit (e : event) : M unit :=
  fun st => (Value tt, {| trace := trace st ++ [e]; started := started st |}).

Definition panic {A} (v : string) : M A := fun st => (Panic v, st).

Definition block {A} : M A := fun st => (Blocked, st).

(** The events a computation adds when started from [initial]. *)
Definition events {A} (c : M A) : list event := trace (snd (c initial)).

Definition nilDereference : string :=
  "runtime error: invalid memory address or nil pointer dereference".

(** The panic of an index out of range; the index, which the runtime adds
    to this text, is left out. *)
Definition indexOutOfRange : string := "runtime error: index out of range".

(** [go f(x)] on a nil func value [f] ends the process: the runtime throws
    the fatal error [go of nil func value] at the statement or, where the
    compiler wraps the call into a closure, the new goroutine panics on the
    nil func value.  Nothing recovers either; the model ends the call at
    the statement. *)
Definition goOfNilFunc : string := "fatal error: go of nil func value".

(** A call that touches nothing of the trace and ends as [r]. *)
Definition lift {A} (r : outcome A) : M A := fun st => (r, st).

(** ** forkProcess *)

Section Fork.

Variable names : EnvNames.
Variable os : OS.

(** The loop over [os.Environ()] that copies every variable except the
    package's own. *)
Fixpoint copyEnviron (cur : list string) (env : list string) : list string :=
  match cur with
  | [] => env
  | curEnvVar :: rest =>
      if strings.HasPrefix curEnvVar (envPrefix names)
      then copyEnviron rest env
      else copyEnviron rest (env ++ [curEnvVar])
  end.

(** The environment handed to the child. *)
Definition childEnv (envValues : list string) : list string :=
  copyEnviron (Environ os) [] ++ envValues.

Definition callStartProcess (name : string) (argv : list string)
    (dir : string) (env : list string) : M (result Process) :=
  fun st =>
    let st' := {| trace := trace st ++ [os_StartProcess name argv dir env];
                  started := S (started st) |} in
    match StartProcess os (started st) name argv dir env with
    | Ok pid => (Value (Ok {| Pid := pid |}), st')
    | Err e => (Value (Err e), st')
    end.

Definition forkProcess (envValues : list string) : M (result Process) :=
  emit (Call_forkProcess envValues) ;;;
  match LookPath os (Args0 os) with
  | Err err => ret (Err err)
  | Ok filePath =>
      match Getwd os with
      | Err err => ret (Err err)
      | Ok dir =>
          let env := childEnv envValues in
          r <- callStartProcess filePath (Args os) dir env ;;
          match r with
          | Err err => ret (Err err)
          | Ok childProcess => ret (Ok childProcess)
          end
      end
  end.

End Fork.

(** ** The package variables *)

Record Package : Type := {
  pid : Z;
  isMainProcess : bool;
  workerCpuCore : string;
  OnSIGUSR2 : option hook;
  OnServerShutdown : option hook
}.

(** Package initialisation: [pid], [isMainProcess] and [workerCpuCore] are
    computed from the environment the process was started with. *)
Definition init (names : EnvNames) (getpid : Z) (environ : list string) : Package :=
  {| pid := getpid;
     isMainProcess := String.eqb (env.Getenv environ (envPPID names)) "";
     workerCpuCore := env.Getenv environ (envCPUCore names);
     OnSIGUSR2 := None;
     OnServerShutdown := None |}.

(** A running process: its package variables and its current environment. *)
Record process : Type := {
  package : Package;
  environ : list string
}.

Definition start (names : EnvNames) (getpid : Z) (environ0 : list string) : process :=
  {| package := init names getpid environ0; environ := environ0 |}.

(** What the host application can do to them afterwards: change the
    environment, or assign the two exported hooks. *)
Inductive action : Type :=
  | change_env (o : env.op)
  | set_OnSIGUSR2 (h : option hook)
  | set_OnServerShutdown (h : option hook).

Definition step (p : process) (a : action) : process :=
  match a with
  | change_env o => {| package := package p; environ := env.apply (environ p) o |}
  | set_OnSIGUSR2 h =>
      {| package := {| pid := pid (package p);
                       isMainProcess := isMainProcess (package p);
                       workerCpuCore := workerCpuCore (package p);
                       OnSIGUSR2 := h;
                       OnServerShutdown := OnServerShutdown (package p) |};
         environ := environ p |}
  | set_OnServerShutdown h =>
      {| package := {| pid := pid (package p);
                       isMainProcess := isMainProcess (package p);
                       workerCpuCore := workerCpuCore (package p);
                       OnSIGUSR2 := OnSIGUSR2 (package p);
                       OnServerShutdown := h |};
         environ := environ p |}
  end.

Definition IsMainProcess (p : process) : bool := isMainProcess (package p).

Definition GetWorkerCPUCoreNum (p : process) : string :=
  if isMainProcess (package p) then "main process" else workerCpuCore (package p).

Inductive Role : Type := Supervisor | Worker.

Definition detectRole (p : process) : Role :=
  if IsMainProcess p then Supervisor else Worker.

(** ** Time *)

Definition Second : N := 1000000000.

Definition prevMainProcessGraceInterval : N := 5 * Second.

(** How long a call lasts at the least: [time.Sleep(d)] pauses the
    goroutine for at least [d]. *)
Definition duration (e : event) : N :=
  match e with
  | time_Sleep d => d
  | _ => 0
  end.

(** The instant each call of a goroutine's trace begins, when the goroutine
    starts at [now] and the [i]-th call takes [duration] plus the [i]-th
    latency. *)
Fixpoint instants (now : N) (latency : list N) (tr : list event) : list (N * event) :=
  match tr with
  | [] => []
  | e :: tr' =>
      (now, e) :: instants (now + duration e + hd 0%N latency) (tl latency) tr'
  end.

(** ** The main process *)

(** [l[i] = v]; out of range it panics, which is [None] here. *)
Fixpoint store {A} (l : list A) (i : nat) (v : A) : option (list A) :=
  match l, i with
  | [], _ => None
  | _ :: l', 0 => Some (v :: l')
  | x :: l', S i' => option_map (cons x) (store l' i' v)
  end.

Fixpoint emitAll (evs : list event) : M unit :=
  match evs with
  | [] => ret tt
  | e :: evs' => emit e ;;; emitAll evs'
  end.

(** Where the goroutine started for one worker stands. *)
Inductive gstate : Type :=
  | at_Signal (p : Process)    (* about to call p.Signal(sig) *)
  | at_Wait (p : Process)      (* inside p.Wait() *)
  | finished.                  (* wg.Done() has run *)

Definition is_finished (g : gstate) : bool :=
  match g with
  | finished => true
  | _ => false
  end.

Section Supervisor.

Variable names : EnvNames.
Variable os : OS.
Variable pkg : Package.

Definition workerEnvVals (i : nat) : list string :=
  [ fmt.Sprintf_s_eq_d (envPPID names) (pid pkg);
    fmt.Sprintf_s_eq_d (envCPUCore names) (Z.of_nat i) ].

(** [for i := 0; i < numCPU; i++], with [todo] iterations left. *)
Fixpoint spawnWorkers (todo i : nat) (workers : list (option Process))
    : M (list (option Process)) :=
  match todo with
  | 0 => ret workers
  | S todo' =>
      r <- forkProcess names os (workerEnvVals i) ;;
      match r with
      | Err err =>
          match store workers i None with
          | None => panic indexOutOfRange
          | Some workers' =>
              emit (Printf "Could not start worker process. Error: %s\n" [aError err]) ;;;
              spawnWorkers todo' (S i) workers'
          end
      | Ok p =>
          match store workers i (Some p) with
          | None => panic indexOutOfRange
          | Some workers' =>
              emit (Printf "Worker process PID=%d started on CPU core %d\n"
                      [aInt (Pid p); aInt (Z.of_nat i)]) ;;;
              spawnWorkers todo' (S i) workers'
          end
      end
  end.

(** The goroutine that retires the previous main process. *)
Definition terminatePrevMain (prevMainPIDStr : string) : M unit :=
  emit (time_Sleep prevMainProcessGraceInterval) ;;;
  match strconv.Atoi prevMainPIDStr with
  | Err err =>
      emit (Printf "Main process PID=%d could not parse previous PID: %s\n"
              [aInt (pid pkg); aError err])
  | Ok prevMainPID =>
      match FindProcess os prevMainPID with
      | Err err =>
          emit (Printf "Main process PID=%d could not find process for previous PID=%d: %s\n"
                  [aInt (pid pkg); aInt prevMainPID; aError err])
      | Ok prevProcess =>
          emit (Process_Signal (Pid prevProcess) SIGTERM) ;;;
          match Signal_to os (Pid prevProcess) SIGTERM with
          | Some err =>
              emit (Printf "Main process PID=%d could not send SIGTERM to previous PID=%d: %s\n"
                      [aInt (pid pkg); aInt prevMainPID; aError err])
          | None => ret tt
          end
      end
  end.

(** A hook called under [defer func() { panicErr := recover(); ... }()]:
    the deferred function logs what [recover] gave, however the hook
    ended, and the panic goes no further. *)
Definition callHook (name format : string) (h : hook) : M unit :=
  emit (Call_hook name) ;;;
  emit (Printf format
          [aInt (pid pkg);
           aRecovered match h with returns => None | panics v => Some v end]).

(** One step of the goroutine started for a worker; [None] when it cannot
    move (it is finished, or [Wait] has not returned). *)
Definition gstep (sig : Signal) (g : gstate) : option (gstate * list event) :=
  match g with
  | at_Signal p =>
      match Signal_to os (Pid p) sig with
      | Some err =>
          Some (finished,
                [ Process_Signal (Pid p) sig;
                  Printf "Could not send signal %s to worker process PID=%d. Error: %s\n"
                    [aSignal sig; aInt (Pid p); aError err] ])
      | None => Some (at_Wait p, [Process_Signal (Pid p) sig])
      end
  | at_Wait p =>
      match Wait_for os (Pid p) with
      | None => None
      | Some (Err err) =>
          Some (finished,
                [ Process_Wait (Pid p);
                  Printf "Waiting failed after sending signal %s to worker process PID=%d. Error: %s\n"
                    [aSignal sig; aInt (Pid p); aError err] ])
      | Some (Ok pState) =>
          Some (finished,
                [ Process_Wait (Pid p);
                  Printf "Worker process PID=%d exited with status: %s\n"
                    [aInt (Pid p); aString pState] ])
      end
  | finished => None
  end.

(** The range loop of [sendSignalToWorkers]: nil entries are skipped,
    every other one gets [wg.Add(1)] and a goroutine. *)
Fixpoint launch (workers : list (option Process)) : list gstate :=
  match workers with
  | [] => []
  | None :: rest => launch rest
  | Some worker :: rest => at_Signal worker :: launch rest
  end.

(** [wg.Wait()] while the goroutines run.  [wg] is the WaitGroup counter;
    [schedule] names, tick by tick, the goroutine the scheduler picks. *)
Fixpoint waitGroup (sig : Signal) (schedule : list nat) (wg : nat)
    (gs : list gstate) : M unit :=
  match wg with
  | 0 => ret tt
  | S wg' =>
      match schedule with
      | [] => block
      | i :: schedule' =>
          match nth_error gs i with
          | None => waitGroup sig schedule' wg gs
          | Some g =>
              match gstep sig g with
              | None => waitGroup sig schedule' wg gs
              | Some (g', evs) =>
                  match store gs i g' with
                  | None => waitGroup sig schedule' wg gs
                  | Some gs' =>
                      emitAll evs ;;;
                      waitGroup sig schedule' (if is_finished g' then wg' else wg) gs'
                  end
              end
          end
      end
  end.

Definition sendSignalToWorkers (workers : list (option Process)) (sig : Signal)
    (schedule : list nat) : M unit :=
  let gs := launch workers in
  waitGroup sig schedule (length gs) gs.

Definition upgradeEnvValues : list string :=
  [ fmt.Sprintf_s_eq_d (envPrevPPID names) (pid pkg) ].

(** The [for] loop around [sig = <-sigChan]; [sigChan] lists what the
    channel delivers, and once it is exhausted the receive blocks. *)
Fixpoint signalLoop (sigChan : list Signal) (workers : list (option Process))
    (schedule : list nat) : M error :=
  match sigChan with
  | [] => block
  | sig :: sigChan' =>
      emit (Printf "Main process PID=%d recivied signal: %s\n"
              [aInt (pid pkg); aSignal sig]) ;;;
      match sig with
      | SIGUSR2 =>
          match OnSIGUSR2 pkg with
          | Some h =>
              callHook "OnSIGUSR2" "Main process PID=%d OnSIGUSR2 hook panicked: %s" h
          | None => ret tt
          end ;;;
          emit (Printf "Main process PID=%d starting new main process\n"
                  [aInt (pid pkg)]) ;;;
          r <- forkProcess names os upgradeEnvValues ;;
          match r with
          | Err err =>
              emit (Printf "Main process PID=%d could not start new main process: %s\n"
                      [aInt (pid pkg); aError err])
          | Ok newMainProcess =>
              emit (Printf "Main process PID=%d new main process PID=%d has started\n"
                      [aInt (pid pkg); aInt (Pid newMainProcess)])
          end ;;;
          signalLoop sigChan' workers schedule
      | _ =>
          sendSignalToWorkers workers sig schedule ;;;
          ret (errorString ("signal received: " ++ Signal_String sig))
      end
  end.

(** [StartMainProcess] from the pool to the end; this is the whole
    function in the revision that logs the start-up line in
    [ListenAndServeHttp]. *)
Definition runMainProcess (sigChan : list Signal) (schedule : list nat) : M error :=
  let numCPU := NumCPU os in
  workers <- spawnWorkers numCPU 0 (repeat None numCPU) ;;
  (let prevMainPIDStr := env.Getenv (Environ os) (envPrevPPID names) in
   if String.eqb prevMainPIDStr "" then ret tt
   else emit (go (go_terminatePrevMain prevMainPIDStr))) ;;;
  signalLoop sigChan workers schedule.

Definition StartMainProcess (sigChan : list Signal) (schedule : list nat) : M error :=
  emit (Printf "Main process PID=%d, starting up a pack..\n" [aInt (pid pkg)]) ;;;
  runMainProcess sigChan schedule.

End Supervisor.

(** ** Pinning to a core: [unix.CPUSet] and [system.SetAffinity] *)

Module unix.

Definition _CPU_SETSIZE : Z := 1024.
Definition _NCPUBITS : Z := 64.

(** [cpuSetSize = _CPU_SETSIZE / _NCPUBITS], the length of the array
    [CPUSet]. *)
Definition cpuSetSize : nat := Z.to_nat (_CPU_SETSIZE / _NCPUBITS).

(** [CPUSet] is an array of [cpuSetSize] masks of 64 bits; [&unix.CPUSet{}]
    is all zero. *)
Definition CPUSet : Type := list Z.

Definition empty : CPUSet := repeat 0%Z cpuSetSize.

(** [cpuBitsIndex(cpu) = cpu / _NCPUBITS]; Go's division of [int]s rounds
    towards zero. *)
Definition cpuBitsIndex (cpu : Z) : Z := Z.quot cpu _NCPUBITS.

(** [cpuBitsMask(cpu) = cpuMask(1 << (uint(cpu) % _NCPUBITS))]; [uint(cpu)]
    is [cpu] modulo [2^64]. *)
Definition cpuBitsMask (cpu : Z) : Z :=
  Z.shiftl 1 ((cpu mod 2 ^ 64) mod _NCPUBITS).

(** [(s *CPUSet).Set(cpu)]:
    [i := cpuBitsIndex(cpu); if i < len(s) { s[i] |= cpuBitsMask(cpu) }].
    A negative [i] passes the test and the indexing panics, which is [None]
    here. *)
Definition CPUSet_Set (s : CPUSet) (cpu : Z) : option CPUSet :=
  let i := cpuBitsIndex cpu in
  if (i <? Z.of_nat (length s))%Z then
    if (i <? 0)%Z then None
    else match nth_error s (Z.to_nat i) with
         | None => None
         | Some w => store s (Z.to_nat i) (Z.lor w (cpuBitsMask cpu))
         end
  else Some s.

End unix.

Module system.

(** [system.SetAffinity]:
    [cpu := &unix.CPUSet{}; cpu.Set(cpuCore); return unix.SchedSetaffinity(0, cpu)]. *)
Definition SetAffinity (os : OS) (cpuCore : Z) : outcome (option error) :=
  match unix.CPUSet_Set unix.empty cpuCore with
  | None => Panic indexOutOfRange
  | Some cpu => Value (SchedSetaffinity os 0 cpu)
  end.

End system.

(** ** The worker process *)

(** [net.Listener] *)
Record Listener : Type := { Addr : string }.

(** What the [*http.Server] handed in does.  [Serve] and [ServeTLS] are
    followed to their return, which is always with an error that is not
    nil; how long the server runs before that is not part of the model. *)
Record http_Server : Type := {
  TLSConfig : option string;
  http_Serve : error;              (* Serve returns a non-nil error *)
  http_ServeTLS : error;
  http_Shutdown : option error
}.

(** A value of the interface [GRPCServer] that is not nil, by what its
    [Serve] does: the method belongs to the host application, so the call
    may return an error or nil, panic (a nil pointer wrapped in the
    interface is such a value) or never return. *)
Record GRPCServer : Type := {
  grpc_Serve : outcome (option error)
}.

(** A [func(net.Conn)] that is not nil.  Its body belongs to the host
    application and runs in the goroutine started for a connection. *)
Inductive Handler : Type := host_handler.

Definition SOL_SOCKET : Z := 1.
Definition SO_REUSEADDR : Z := 2.
Definition SO_REUSEPORT : Z := 15.

(** The end of the [Control] callback: the messages of the errors that are
    not nil, joined with [";"] into one error. *)
Definition joinErrors (err reuseAddrErr reusePortErr : option error) : option error :=
  let errMsg := [] in
  let errMsg := match err with
                | Some e => errMsg ++ [Error e]
                | None => errMsg
                end in
  let errMsg := match reuseAddrErr with
                | Some e => errMsg ++ [Error e]
                | None => errMsg
                end in
  let errMsg := match reusePortErr with
                | Some e => errMsg ++ [Error e]
                | None => errMsg
                end in
  if Nat.ltb 0 (length errMsg)
  then Some (errorString (strings.Join errMsg ";"))
  else None.

Section Worker.

Variable names : EnvNames.
Variable os : OS.
Variable pkg : Package.

(** The [Control] callback of the [net.ListenConfig]. *)
Definition Control : option error :=
  match RawConn_Control os with
  | Some err => joinErrors (Some err) None None
  | None =>
      let reuseAddrErr := SetsockoptInt os SOL_SOCKET SO_REUSEADDR 1 in
      let reusePortErr := SetsockoptInt os SOL_SOCKET SO_REUSEPORT 1 in
      joinErrors None reuseAddrErr reusePortErr
  end.

(** [ListenConfig.Listen]: the callback runs on the fresh socket, before
    it is bound; an error of the callback fails the call. *)
Definition ListenConfig_Listen (control : option error) (network address : string)
    : M (option Listener * option error) :=
  emit (net_Listen network address) ;;;
  match Socket os network address with
  | Some err => ret (None, Some err)
  | None =>
      match control with
      | Some err => ret (None, Some (OpError "listen" network address err))
      | None =>
          match BindListen os network address with
          | Err err => ret (None, Some err)
          | Ok addr => ret (Some {| Addr := addr |}, None)
          end
      end
  end.

Definition getListenerWithSocketOptions (network address : string)
    : M (option Listener * option error) :=
  r <- ListenConfig_Listen Control network address ;;
  let '(l, err) := r in
  match err with
  | Some _ =>
      match l with
      | None => panic nilDereference          (* l.Addr() on a nil listener *)
      | Some l' => emit (Printf "Starting listener on %s\n" [aString (Addr l')])
      end
  | None => ret tt
  end ;;;
  ret (l, err).

Definition setupWorkerRuntime : M (option error) :=
  match strconv.Atoi (workerCpuCore pkg) with
  | Err err => ret (Some err)
  | Ok cpuCore =>
      emit (system_SetAffinity cpuCore) ;;;
      r <- lift (system.SetAffinity os cpuCore) ;;
      match r with
      | Some err =>
          emit (Printf "Could not set affinity to CPU core %d: %s\n"
                  [aInt cpuCore; aError err]) ;;;
          ret (Some err)
      | None =>
          emit (runtime_GOMAXPROCS 1) ;;;
          emit (Printf "Starting worker PID=%d on CPU core %d\n"
                  [aInt (pid pkg); aInt cpuCore]) ;;;
          ret None
      end
  end.

Definition callOnServerShutdown : M unit :=
  match OnServerShutdown pkg with
  | Some h =>
      callHook pkg "OnServerShutdown"
        "Worker process PID=%d OnServerShutdown hook panicked: %s" h
  | None => ret tt
  end.

(** The goroutine of [ListenAndServeHttp] that waits for one signal. *)
Definition awaitShutdownHttp (server : http_Server) (sigChan : list Signal) : M unit :=
  match sigChan with
  | [] => block
  | sig :: _ =>
      emit (Printf "Worker process PID=%d recivied signal: %s. Shutdown gracefully\n"
              [aInt (pid pkg); aSignal sig]) ;;;
      callOnServerShutdown ;;;
      emit server_Shutdown ;;;
      match http_Shutdown server with
      | Some err =>
          emit (Printf "Worker process PID=%d could not shutdown gracefully: %s\n"
                  [aInt (pid pkg); aError err])
      | None => ret tt
      end
  end.

(** The same goroutine in [ListenAndServeGRPC]. *)
Definition awaitShutdownGRPC (sigChan : list Signal) : M unit :=
  match sigChan with
  | [] => block
  | sig :: _ =>
      emit (Printf "Worker process PID=%d received signal: %s. Shutdown gracefully\n"
              [aInt (pid pkg); aSignal sig]) ;;;
      callOnServerShutdown ;;;
      emit server_GracefulStop
  end.

Definition serveHttp (server : http_Server) : M (option error) :=
  match TLSConfig server with
  | Some _ =>
      emit (Println "Using TLS") ;;;
      emit server_ServeTLS ;;;
      ret (Some (http_ServeTLS server))
  | None =>
      emit server_Serve ;;;
      ret (Some (http_Serve server))
  end.

Definition ListenAndServeHttp (network address : string) (server : option http_Server)
    (sigChan : list Signal) (schedule : list nat) : M (option error) :=
  if isMainProcess pkg then
    e <- StartMainProcess names os pkg sigChan schedule ;; ret (Some e)
  else
    match server with
    | None => ret (Some (errorString "nil server passed"))
    | Some server =>
        err <- setupWorkerRuntime ;;
        match err with
        | Some err => ret (Some err)
        | None =>
            r <- getListenerWithSocketOptions network address ;;
            match snd r with
            | Some err => ret (Some err)
            | None =>
                emit (go go_awaitShutdown) ;;;
                serveHttp server
            end
        end
    end.

Definition ListenAndServeGRPC (network address : string) (server : option GRPCServer)
    (sigChan : list Signal) (schedule : list nat) : M (option error) :=
  if isMainProcess pkg then
    e <- StartMainProcess names os pkg sigChan schedule ;; ret (Some e)
  else
    match server with
    | None => ret (Some (errorString "nil server passed"))
    | Some server =>
        err <- setupWorkerRuntime ;;
        match err with
        | Some err => ret (Some err)
        | None =>
            r <- getListenerWithSocketOptions network address ;;
            match snd r with
            | Some err => ret (Some err)
            | None =>
                emit (go go_awaitShutdown) ;;;
                emit server_Serve ;;;
                lift (grpc_Serve server)
            end
        end
    end.

(** The accept loop of [ListenAndServeTCP]; [accepts] lists what
    [l.Accept()] gives (for a connection, the network and the text of its
    remote address), and once it is exhausted the call blocks.  [handler]
    is [None] for a nil func value, on which [go handler(conn)] ends the
    process. *)
Fixpoint acceptLoop (handler : option Handler)
    (accepts : list (result (string * string))) : M (option error) :=
  match accepts with
  | [] => block
  | a :: accepts' =>
      emit Listener_Accept ;;;
      match a with
      | Err err =>
          emit (Printf "Worker process PID=%d accept connection error: %s"
                  [aInt (pid pkg); aError err]) ;;;
          acceptLoop handler accepts'
      | Ok conn =>
          emit (Printf "New connection accepted from %s/%s\n"
                  [aString (fst conn); aString (snd conn)]) ;;;
          match handler with
          | None => panic goOfNilFunc
          | Some _ =>
              emit (go (go_handler conn)) ;;;
              acceptLoop handler accepts'
          end
      end
  end.

Definition ListenAndServeTCP (network address : string) (tlsConfig : option string)
    (handler : option Handler) (accepts : list (result (string * string)))
    (sigChan : list Signal) (schedule : list nat) : M (option error) :=
  if isMainProcess pkg then
    e <- StartMainProcess names os pkg sigChan schedule ;; ret (Some e)
  else
    err <- setupWorkerRuntime ;;
    match err with
    | Some err => ret (Some err)
    | None =>
        r <- getListenerWithSocketOptions network address ;;
        match snd r with
        | Some err => ret (Some err)
        | None =>
            match tlsConfig with
            | Some _ => emit (Println "Using TLS")
            | None => ret tt
            end ;;;
            acceptLoop handler accepts
        end
    end.

End Worker.

(** ** The revision of gopherpack.go that sets the worker up inside
    [ListenAndServeHttp] *)

Module Inline.
Section Inline.

Variable names : EnvNames.
Variable os : OS.
Variable pkg : Package.

Definition StartMainProcess := runMainProcess names os pkg.

Definition awaitShutdown := awaitShutdownHttp pkg.

Definition ListenAndServeHttp (network address : string) (server : option http_Server)
    (sigChan : list Signal) (schedule : list nat) : M (option error) :=
  if isMainProcess pkg then
    emit (Printf "Main process PID=%d, starting up a pack..\n" [aInt (pid pkg)]) ;;;
    e <- StartMainProcess sigChan schedule ;; ret (Some e)
  else
    match server with
    | None => ret (Some (errorString "nil server passed"))
    | Some server =>
        match strconv.Atoi (env.Getenv (Environ os) (envCPUCore names)) with
        | Err err => ret (Some err)
        | Ok cpuCore =>
            emit (system_SetAffinity cpuCore) ;;;
            r <- lift (system.SetAffinity os cpuCore) ;;
            match r with
            | Some err =>
                emit (Printf "Could not set affinity to CPU core %d: %s\n"
                        [aInt cpuCore; aError err])
            | None => ret tt
            end ;;;
            emit (runtime_GOMAXPROCS 1) ;;;
            r <- getListenerWithSocketOptions os network address ;;
            match snd r with
            | Some err => ret (Some err)
            | None =>
                emit (go go_awaitShutdown) ;;;
                emit (Printf "Starting worker PID=%d on CPU core %d\n"
                        [aInt (pid pkg); aInt cpuCore]) ;;;
                match TLSConfig server with
                | Some _ => emit server_ServeTLS ;;; ret (Some (http_ServeTLS server))
                | None => emit server_Serve ;;; ret (Some (http_Serve server))
                end
            end
        end
    end.

End Inline.
End Inline.

(** ** Sample worlds, to run the definitions on *)

Module Sample.

Definition EAGAIN : error := errorString "resource temporarily unavailable".
Definition EINVAL : error := errorString "invalid argument".
Definition ESRCH : error := errorString "no such process".
Definition EADDRINUSE : error := errorString "address already in use".
Definition ErrProcessDone : error := errorString "os: process already finished".

(** A four-core machine on which the third [os.StartProcess] fails, the
    worker 1003 cannot be signalled and waiting for 1000 fails. *)
Definition os : OS :=
  {| Args0 := "/usr/local/bin/server";
     ArgsTail := ["-v"];
     Environ := ["PATH=/usr/bin"; "GOPHERPACK_CPU_CORE=7"; "HOME=/root";
                 "GOPHERPACK_PREV_PPID=41"; "GOPHERPACK_PPID=9"];
     Getpid := 42;
     NumCPU := 4;
     LookPath := fun file => Ok file;
     Getwd := Ok "/srv";
     StartProcess := fun n _ _ _ _ =>
       if Nat.eqb n 2 then Err EAGAIN else Ok (1000 + Z.of_nat n)%Z;
     SchedSetaffinity := fun _ _ => None;
     FindProcess := fun p => Ok {| Pid := p |};
     Signal_to := fun p _ => if Z.eqb p 1003 then Some ErrProcessDone else None;
     Wait_for := fun p =>
       if Z.eqb p 1000 then Some (Err ESRCH) else Some (Ok "exit status 0");
     Socket := fun _ _ => None;
     RawConn_Control := None;
     SetsockoptInt := fun _ _ _ => None;
     BindListen := fun _ address => Ok address |}.

(** The same machine when pinning is refused. *)
Definition osNoAffinity : OS :=
  {| Args0 := Args0 os; ArgsTail := ArgsTail os;
     Environ := Environ os; Getpid := Getpid os;
     NumCPU := NumCPU os; LookPath := LookPath os; Getwd := Getwd os;
     StartProcess := StartProcess os;
     SchedSetaffinity := fun _ _ => Some EINVAL;
     FindProcess := FindProcess os; Signal_to := Signal_to os;
     Wait_for := Wait_for os; Socket := Socket os;
     RawConn_Control := RawConn_Control os;
     SetsockoptInt := SetsockoptInt os; BindListen := BindListen os |}.

(** The same machine when the address is taken. *)
Definition osNoListen : OS :=
  {| Args0 := Args0 os; ArgsTail := ArgsTail os;
     Environ := Environ os; Getpid := Getpid os;
     NumCPU := NumCPU os; LookPath := LookPath os; Getwd := Getwd os;
     StartProcess := StartProcess os;
     SchedSetaffinity := SchedSetaffinity os;
     FindProcess := FindProcess os; Signal_to := Signal_to os;
     Wait_for := Wait_for os; Socket := Socket os;
     RawConn_Control := RawConn_Control os;
     SetsockoptInt := SetsockoptInt os;
     BindListen := fun network address =>
       Err (OpError "listen" network address EADDRINUSE) |}.

Definition EPERM : error := errorString "operation not permitted".
Definition ENOPROTOOPT : error := errorString "protocol not available".

(** The same machine on a kernel without [SO_REUSEPORT]. *)
Definition osNoReusePort : OS :=
  {| Args0 := Args0 os; ArgsTail := ArgsTail os;
     Environ := Environ os; Getpid := Getpid os;
     NumCPU := NumCPU os; LookPath := LookPath os; Getwd := Getwd os;
     StartProcess := StartProcess os;
     SchedSetaffinity := SchedSetaffinity os;
     FindProcess := FindProcess os; Signal_to := Signal_to os;
     Wait_for := Wait_for os; Socket := Socket os;
     RawConn_Control := RawConn_Control os;
     SetsockoptInt := fun _ opt _ =>
       if Z.eqb opt SO_REUSEPORT then Some ENOPROTOOPT else None;
     BindListen := BindListen os |}.

(** The same machine when, besides, no option of a socket may be set. *)
Definition osNoOptions : OS :=
  {| Args0 := Args0 os; ArgsTail := ArgsTail os;
     Environ := Environ os; Getpid := Getpid os;
     NumCPU := NumCPU os; LookPath := LookPath os; Getwd := Getwd os;
     StartProcess := StartProcess os;
     SchedSetaffinity := SchedSetaffinity os;
     FindProcess := FindProcess os; Signal_to := Signal_to os;
     Wait_for := Wait_for os; Socket := Socket os;
     RawConn_Control := RawConn_Control os;
     SetsockoptInt := fun _ opt _ =>
       if Z.eqb opt SO_REUSEPORT then Some ENOPROTOOPT else Some EPERM;
     BindListen := BindListen os |}.

Definition supervisor : Package :=
  {| pid := 42; isMainProcess := true; workerCpuCore := "";
     OnSIGUSR2 := Some (panics "boom"); OnServerShutdown := None |}.

Definition worker : Package :=
  {| pid := 1001; isMainProcess := false; workerCpuCore := "1";
     OnSIGUSR2 := None; OnServerShutdown := Some (panics "boom") |}.

Definition workerCoreBelow : Package :=
  {| pid := 1001; isMainProcess := false; workerCpuCore := "-64";
     OnSIGUSR2 := None; OnServerShutdown := None |}.

Definition workerBadCore : Package :=
  {| pid := 1001; isMainProcess := false; workerCpuCore := "one";
     OnSIGUSR2 := None; OnServerShutdown := None |}.

Definition server : http_Server :=
  {| TLSConfig := None;
     http_Serve := errorString "http: Server closed";
     http_ServeTLS := errorString "http: Server closed";
     http_Shutdown := None |}.

(** The same machine when the binary is not found. *)
Definition osNoBinary : OS :=
  {| Args0 := Args0 os; ArgsTail := ArgsTail os;
     Environ := Environ os; Getpid := Getpid os;
     NumCPU := NumCPU os;
     LookPath := fun _ => Err (errorString "executable file not found in $PATH");
     Getwd := Getwd os;
     StartProcess := StartProcess os;
     SchedSetaffinity := SchedSetaffinity os;
     FindProcess := FindProcess os; Signal_to := Signal_to os;
     Wait_for := Wait_for os; Socket := Socket os;
     RawConn_Control := RawConn_Control os;
     SetsockoptInt := SetsockoptInt os; BindListen := BindListen os |}.

(** Every goroutine is picked twice, in turn. *)
Definition roundRobin (n : nat) : list nat := seq 0 n ++ seq 0 n.

End Sample.

(** ** Vocabulary of the statements *)

(** The events a computation adds to the trace it starts from. *)
Definition added {A} (c : M A) (st : state) : list event :=
  skipn (length (trace st)) (trace (snd (c st))).

(** A variable is present when some entry of the environment sets it. *)
Definition present (environ : list string) (key : string) : Prop :=
  exists v, In (key ++ "=" ++ v)%string environ.

(** The signals that end the main process, as opposed to [SIGUSR2]. *)
Definition terminating (sig : Signal) : bool :=
  match sig with
  | SIGUSR2 => false
  | _ => true
  end.

(** A pool slot: nil unless the spawn gave a process. *)
Definition slot (r : result Process) : option Process :=
  match r with
  | Ok p => Some p
  | Err _ => None
  end.

Section ForkVocabulary.

Variable names : EnvNames.
Variable os : OS.

(** The binary and the directory [forkProcess] resolves first. *)
Definition located : result (string * string) :=
  match LookPath os (Args0 os) with
  | Err err => Err err
  | Ok filePath =>
      match Getwd os with
      | Err err => Err err
      | Ok dir => Ok (filePath, dir)
      end
  end.

(** What [forkProcess envValues] returns when [n] processes were started
    before it. *)
Definition forkResult (n : nat) (envValues : list string) : result Process :=
  match located with
  | Err err => Err err
  | Ok (filePath, dir) =>
      match StartProcess os n filePath (Args os) dir (childEnv names os envValues) with
      | Ok p => Ok {| Pid := p |}
      | Err err => Err err
      end
  end.

(** What it adds to the trace. *)
Definition forkEvents (envValues : list string) : list event :=
  Call_forkProcess envValues ::
  match located with
  | Err _ => []
  | Ok (filePath, dir) =>
      [os_StartProcess filePath (Args os) dir (childEnv names os envValues)]
  end.

Definition forkStarts : nat :=
  match located with
  | Err _ => 0
  | Ok _ => 1
  end.

End ForkVocabulary.

Definition is_fork_call (e : event) : bool :=
  match e with
  | Call_forkProcess _ => true
  | _ => false
  end.

Section PoolVocabulary.

Variable names : EnvNames.
Variable os : OS.
Variable pkg : Package.

(** The line the loop logs after the spawn for core [i]. *)
Definition spawnLog (i : nat) (r : result Process) : event :=
  match r with
  | Err err => Printf "Could not start worker process. Error: %s\n" [aError err]
  | Ok p =>
      Printf "Worker process PID=%d started on CPU core %d\n"
        [aInt (Pid p); aInt (Z.of_nat i)]
  end.

(** What the spawn for core [i] gives, [n0] processes having been started
    before the loop. *)
Definition spawned (n0 i : nat) : result Process :=
  forkResult names os (n0 + i) (workerEnvVals names pkg i).

(** What the iteration for core [i] adds to the trace. *)
Definition spawnEvents (n0 i : nat) : list event :=
  forkEvents names os (workerEnvVals names pkg i) ++ [spawnLog i (spawned n0 i)].

(** The part of [StartMainProcess] after the pool is built. *)
Definition afterPool (sigChan : list Signal) (schedule : list nat)
    (workers : list (option Process)) : M error :=
  (let prevMainPIDStr := env.Getenv (Environ os) (envPrevPPID names) in
   if String.eqb prevMainPIDStr "" then ret tt
   else emit (go (go_terminatePrevMain prevMainPIDStr))) ;;;
  signalLoop names os pkg sigChan workers schedule.

End PoolVocabulary.

(** The errors of a list that are not nil, in order. *)
Fixpoint nonNil (errs : list (option error)) : list error :=
  match errs with
  | [] => []
  | Some e :: errs' => e :: nonNil errs'
  | None :: errs' => nonNil errs'
  end.

Definition is_hook_call (e : event) : bool :=
  match e with
  | Call_hook _ => true
  | _ => false
  end.

Definition is_listen (e : event) : bool :=
  match e with
  | net_Listen _ _ => true
  | _ => false
  end.

Definition is_starting_listener_log (e : event) : bool :=
  match e with
  | Printf format _ => String.eqb format "Starting listener on %s\n"
  | _ => false
  end.

(** What the call of [OnServerShutdown] adds to the trace. *)
Definition shutdownHookEvents (pkg : Package) : list event :=
  match OnServerShutdown pkg with
  | None => []
  | Some h =>
      [ Call_hook "OnServerShutdown";
        Printf "Worker process PID=%d OnServerShutdown hook panicked: %s"
          [aInt (pid pkg);
           aRecovered match h with returns => None | panics v => Some v end] ]
  end.

(** The worker records of a pool that are not nil. *)
Fixpoint live (workers : list (option Process)) : list Process :=
  match workers with
  | [] => []
  | Some p :: rest => p :: live rest
  | None :: rest => live rest
  end.

(** The goroutines that have not reached [wg.Done()]. *)
Definition unfinished (gs : list gstate) : nat :=
  length (filter (fun g => negb (is_finished g)) gs).

(** How many more times a goroutine has to be picked to finish. *)
Definition need (g : gstate) : nat :=
  match g with
  | at_Signal _ => 2
  | at_Wait _ => 1
  | finished => 0
  end.

(** A schedule is fair to [n] goroutines when it picks each of them twice
    at least: once to send the signal, once more after the wait is over. *)
Definition fair (n : nat) (schedule : list nat) : bool :=
  forallb (fun i => Nat.leb 2 (count_occ Nat.eq_dec schedule i)) (seq 0 n).

(** Every worker that takes the signal exits, so that its [Wait] returns. *)
Definition waitsReturn (os : OS) (sig : Signal) (workers : list (option Process)) : bool :=
  forallb (fun p =>
             match Signal_to os (Pid p) sig, Wait_for os (Pid p) with
             | None, None => false
             | _, _ => true
             end)
          (live workers).

(** The pool [StartMainProcess] builds when [n0] processes were started
    before it. *)
Definition pool (names : EnvNames) (os : OS) (pkg : Package) (n0 : nat)
    : list (option Process) :=
  map (fun i => slot (spawned names os pkg n0 i)) (seq 0 (NumCPU os)).

(** The error [StartMainProcess] returns for a signal. *)
Definition signalReceived (sig : Signal) : error :=
  errorString ("signal received: " ++ Signal_String sig).

Definition is_process_call (e : event) : bool :=
  match e with
  | Process_Signal _ _ | Process_Wait _ => true
  | _ => false
  end.

Section UpgradeVocabulary.

Variable names : EnvNames.
Variable os : OS.
Variable pkg : Package.

(** What one turn of the loop on [SIGUSR2] adds to the trace, [n]
    processes having been started before. *)
Definition upgradeEvents (n : nat) : list event :=
  [ Printf "Main process PID=%d recivied signal: %s\n"
      [aInt (pid pkg); aSignal SIGUSR2] ]
  ++ match OnSIGUSR2 pkg with
     | None => []
     | Some h =>
         [ Call_hook "OnSIGUSR2";
           Printf "Main process PID=%d OnSIGUSR2 hook panicked: %s"
             [aInt (pid pkg);
              aRecovered match h with returns => None | panics v => Some v end] ]
     end
  ++ [ Printf "Main process PID=%d starting new main process\n" [aInt (pid pkg)] ]
  ++ forkEvents names os (upgradeEnvValues names pkg)
  ++ [ match forkResult names os n (upgradeEnvValues names pkg) with
       | Err err =>
           Printf "Main process PID=%d could not start new main process: %s\n"
             [aInt (pid pkg); aError err]
       | Ok newMainProcess =>
           Printf "Main process PID=%d new main process PID=%d has started\n"
             [aInt (pid pkg); aInt (Pid newMainProcess)]
       end ].

(** The state after that turn. *)
Definition afterUpgrade (st : state) : state :=
  {| trace := trace st ++ upgradeEvents (started st);
     started := started st + forkStarts os |}.

End UpgradeVocabulary.

Section FanOutVocabulary.

Variable os : OS.
Variable sig : Signal.
Variable ws : list Process.

(** The line the goroutine of worker [p] logs before it is done; there is
    none when the signal is taken and [Wait] never returns. *)
Definition lastLine (p : Process) : option event :=
  match Signal_to os (Pid p) sig with
  | Some err =>
      Some (Printf "Could not send signal %s to worker process PID=%d. Error: %s\n"
              [aSignal sig; aInt (Pid p); aError err])
  | None =>
      match Wait_for os (Pid p) with
      | None => None
      | Some (Err err) =>
          Some (Printf "Waiting failed after sending signal %s to worker process PID=%d. Error: %s\n"
                  [aSignal sig; aInt (Pid p); aError err])
      | Some (Ok pState) =>
          Some (Printf "Worker process PID=%d exited with status: %s\n"
                  [aInt (Pid p); aString pState])
      end
  end.

(** What is known of the goroutine of worker [p] from its state. *)
Definition okState (tr : list event) (p : Process) (g : gstate) : Prop :=
  match g with
  | at_Signal q => q = p
  | at_Wait q =>
      q = p /\ In (Process_Signal (Pid p) sig) tr /\ Signal_to os (Pid p) sig = None
  | finished =>
      In (Process_Signal (Pid p) sig) tr /\
      (Signal_to os (Pid p) sig <> None \/
       (In (Process_Wait (Pid p)) tr /\ Wait_for os (Pid p) <> None)) /\
      (forall line, lastLine p = Some line -> In line tr)
  end.

Definition Inv (gs : list gstate) (tr : list event) : Prop :=
  length gs = length ws /\
  forall i p, nth_error ws i = Some p ->
    exists g, nth_error gs i = Some g /\ okState tr p g.

(** The events the goroutines may add. *)
Definition allowed (e : event) : Prop :=
  match e with
  | Process_Signal pid s => s = sig /\ exists p, In p ws /\ Pid p = pid
  | Process_Wait pid => exists p, In p ws /\ Pid p = pid
  | Printf _ _ => True
  | _ => False
  end.

(** A goroutine that waits for a process that never exits. *)
Definition stuck (g : gstate) : Prop :=
  match g with
  | at_Wait p => Wait_for os (Pid p) = None
  | _ => False
  end.

Definition willing (g : gstate) : Prop :=
  match g with
  | at_Signal p => Signal_to os (Pid p) sig = None -> Wait_for os (Pid p) <> None
  | at_Wait p => Wait_for os (Pid p) <> None
  | finished => True
  end.

End FanOutVocabulary.

(** A stretch of trace without a call on a worker process. *)
Definition quiet (evs : list event) : Prop :=
  Forall (fun e => is_process_call e = false) evs.

(** What [StartMainProcess] does about a previous main process, as a list
    of events. *)
Definition retireEvents (names : EnvNames) (os : OS) : list event :=
  let prevMainPIDStr := env.Getenv (Environ os) (envPrevPPID names) in
  if String.eqb prevMainPIDStr "" then []
  else [go (go_terminatePrevMain prevMainPIDStr)].

Definition is_start_process (e : event) : bool :=
  match e with
  | os_StartProcess _ _ _ _ => true
  | _ => false
  end.

(** What the goroutine that retires the previous main process does after
    its sleep. *)
Definition retireSteps (os : OS) (pkg : Package) (prevMainPIDStr : string) : list event :=
  match strconv.Atoi prevMainPIDStr with
  | Err err =>
      [ Printf "Main process PID=%d could not parse previous PID: %s\n"
          [aInt (pid pkg); aError err] ]
  | Ok prevMainPID =>
      match FindProcess os prevMainPID with
      | Err err =>
          [ Printf "Main process PID=%d could not find process for previous PID=%d: %s\n"
              [aInt (pid pkg); aInt prevMainPID; aError err] ]
      | Ok prevProcess =>
          Process_Signal (Pid prevProcess) SIGTERM ::
          match Signal_to os (Pid prevProcess) SIGTERM with
          | Some err =>
              [ Printf "Main process PID=%d could not send SIGTERM to previous PID=%d: %s\n"
                  [aInt (pid pkg); aInt prevMainPID; aError err] ]
          | None => []
          end
      end
  end.

(** Whether a string holds ['=']. *)
Fixpoint hasEq (s : string) : bool :=
  match s with
  | EmptyString => false
  | String c rest => orb (Ascii.eqb c "="%char) (hasEq rest)
  end.

(** A well-formed variable name: not empty and without ['=']. *)
Definition plainName (key : string) : bool :=
  andb (negb (String.eqb key "")) (negb (hasEq key)).

(** The number a decimal numeral denotes, after the digits read so far. *)
Fixpoint uval (u : Decimal.uint) (acc : Z) : Z :=
  match u with
  | Decimal.Nil => acc
  | Decimal.D0 u' => uval u' (acc * 10 + 0)
  | Decimal.D1 u' => uval u' (acc * 10 + 1)
  | Decimal.D2 u' => uval u' (acc * 10 + 2)
  | Decimal.D3 u' => uval u' (acc * 10 + 3)
  | Decimal.D4 u' => uval u' (acc * 10 + 4)
  | Decimal.D5 u' => uval u' (acc * 10 + 5)
  | Decimal.D6 u' => uval u' (acc * 10 + 6)
  | Decimal.D7 u' => uval u' (acc * 10 + 7)
  | Decimal.D8 u' => uval u' (acc * 10 + 8)
  | Decimal.D9 u' => uval u' (acc * 10 + 9)
  end.

(** ** Vocabulary for counting and classifying events *)

Definition count (f : event -> bool) (evs : list event) : nat :=
  length (filter f evs).

Definition is_signal_call (e : event) : bool :=
  match e with
  | Process_Signal _ _ => true
  | _ => false
  end.

Definition is_wait_call (e : event) : bool :=
  match e with
  | Process_Wait _ => true
  | _ => false
  end.

Definition is_handler_start (e : event) : bool :=
  match e with
  | go (go_handler _) => true
  | _ => false
  end.

Definition is_accept (e : event) : bool :=
  match e with
  | Listener_Accept => true
  | _ => false
  end.

Definition is_log (e : event) : bool :=
  match e with
  | Printf _ _ | Println _ => true
  | _ => false
  end.

(** What only a worker does: pin itself, listen, serve, accept. *)
Definition is_worker_event (e : event) : bool :=
  match e with
  | system_SetAffinity _ | runtime_GOMAXPROCS _ | net_Listen _ _
  | server_Shutdown | server_GracefulStop | server_Serve | server_ServeTLS
  | Listener_Accept | go go_awaitShutdown | go (go_handler _) => true
  | _ => false
  end.

(** What only the main process does: start processes, signal them, wait
    for them, retire its predecessor. *)
Definition is_main_event (e : event) : bool :=
  match e with
  | Call_forkProcess _ | os_StartProcess _ _ _ _
  | Process_Signal _ _ | Process_Wait _
  | go (go_terminatePrevMain _) | time_Sleep _ => true
  | _ => false
  end.

(** A measure summed over the goroutines. *)
Definition total (m : gstate -> nat) (gs : list gstate) : nat :=
  list_sum (map m gs).

(** Signals still to be sent. *)
Definition toSignal (g : gstate) : nat :=
  match g with
  | at_Signal _ => 1
  | _ => 0
  end.

(** Waits still to return. *)
Definition toWait (os : OS) (sig : Signal) (g : gstate) : nat :=
  match g with
  | at_Signal p =>
      match Signal_to os (Pid p) sig with
      | None => 1
      | Some _ => 0
      end
  | at_Wait _ => 1
  | finished => 0
  end.

(** The workers of a pool that take the signal. *)
Definition takers (os : OS) (sig : Signal) (workers : list (option Process)) : list Process :=
  filter (fun p => match Signal_to os (Pid p) sig with
                   | None => true
                   | Some _ => false
                   end)
         (live workers).

(** How many times [SIGUSR2] is received before the signal that ends the
    loop, or before the channel runs dry. *)
Fixpoint upgradesBefore (sigChan : list Signal) : nat :=
  match sigChan with
  | SIGUSR2 :: rest => S (upgradesBefore rest)
  | _ => 0
  end.

Section LoopVocabulary.

Variable names : EnvNames.
Variable os : OS.
Variable pkg : Package.

(** What the signal loop adds to the trace before it fans a terminating
    signal out, [n] processes having been started before. *)
Fixpoint loopEvents (n : nat) (sigChan : list Signal) : list event :=
  match sigChan with
  | [] => []
  | SIGUSR2 :: rest =>
      upgradeEvents names os pkg n ++ loopEvents (n + forkStarts os) rest
  | sig :: _ =>
      [ Printf "Main process PID=%d recivied signal: %s\n"
          [aInt (pid pkg); aSignal sig] ]
  end.

(** What [StartMainProcess] adds to the trace before the fan-out. *)
Definition mainEvents (n : nat) (sigChan : list Signal) : list event :=
  [ Printf "Main process PID=%d, starting up a pack..\n" [aInt (pid pkg)] ]
  ++ flat_map (spawnEvents names os pkg n) (seq 0 (NumCPU os))
  ++ retireEvents names os
  ++ loopEvents (n + NumCPU os * forkStarts os) sigChan.

End LoopVocabulary.

(** The connections among the results of [Accept]. *)
Fixpoint accepted (accepts : list (result (string * string))) : list (string * string) :=
  match accepts with
  | [] => []
  | Ok conn :: rest => conn :: accepted rest
  | Err _ :: rest => accepted rest
  end.

(** The calls the main process makes. *)
Definition main_kind (e : event) : bool :=
  match e with
  | Printf _ _ | Call_forkProcess _ | os_StartProcess _ _ _ _ | Call_hook _
  | go (go_terminatePrevMain _) | Process_Signal _ _ | Process_Wait _ => true
  | _ => false
  end.

(** The calls a worker makes. *)
Definition worker_kind (e : event) : bool :=
  match e with
  | Printf _ _ | Println _ | system_SetAffinity _ | runtime_GOMAXPROCS _
  | net_Listen _ _ | go go_awaitShutdown | go (go_handler _)
  | server_Serve | server_ServeTLS | Listener_Accept => true
  | _ => false
  end.

(** Whether a turn on [SIGUSR2] calls the hook. *)
Definition hookCalls (pkg : Package) : nat :=
  match OnSIGUSR2 pkg with
  | Some _ => 1
  | None => 0
  end.

(** An [error] result as the entry points return it. *)
Definition asError (r : outcome error) : outcome (option error) :=
  match r with
  | Value e => Value (Some e)
  | Panic v => Panic v
  | Blocked => Blocked
  end.

Definition is_pin (e : event) : bool :=
  match e with
  | system_SetAffinity _ => true
  | _ => false
  end.

Definition is_gomaxprocs (e : event) : bool :=
  match e with
  | runtime_GOMAXPROCS _ => true
  | _ => false
  end.

Section WorkerVocabulary.

Variable os : OS.
Variable pkg : Package.

(** How [setupWorkerRuntime] ends. *)
Definition setupResult : outcome (option error) :=
  match strconv.Atoi (workerCpuCore pkg) with
  | Err err => Value (Some err)
  | Ok cpuCore => system.SetAffinity os cpuCore
  end.

(** What it adds to the trace. *)
Definition setupEvents : list event :=
  match strconv.Atoi (workerCpuCore pkg) with
  | Err _ => []
  | Ok cpuCore =>
      system_SetAffinity cpuCore ::
      match system.SetAffinity os cpuCore with
      | Value (Some err) =>
          [ Printf "Could not set affinity to CPU core %d: %s\n"
              [aInt cpuCore; aError err] ]
      | Value None =>
          [ runtime_GOMAXPROCS 1;
            Printf "Starting worker PID=%d on CPU core %d\n"
              [aInt (pid pkg); aInt cpuCore] ]
      | _ => []
      end
  end.

(** The listener [ListenConfig.Listen] gives, nil when it fails. *)
Definition listenResult (network address : string) : option Listener :=
  match Socket os network address, Control os, BindListen os network address with
  | None, None, Ok addr => Some {| Addr := addr |}
  | _, _, _ => None
  end.

End WorkerVocabulary.

(** What the accept loop of [ListenAndServeTCP] does for one result of
    [Accept], with a handler that is not nil. *)
Definition acceptTurn (pkg : Package) (a : result (string * string)) : list event :=
  match a with
  | Err err =>
      [ Listener_Accept;
        Printf "Worker process PID=%d accept connection error: %s"
          [aInt (pid pkg); aError err] ]
  | Ok conn =>
      [ Listener_Accept;
        Printf "New connection accepted from %s/%s\n"
          [aString (fst conn); aString (snd conn)];
        go (go_handler conn) ]
  end.

(** The results of [Accept] up to the first connection, this one left
    out. *)
Fixpoint failedFirst (accepts : list (result (string * string)))
    : list (result (string * string)) :=
  match accepts with
  | Err err :: rest => Err err :: failedFirst rest
  | _ => []
  end.

(** The first connection among the results of [Accept]. *)
Definition firstAccepted (accepts : list (result (string * string)))
    : option (string * string) :=
  hd_error (accepted accepts).

(** What the accept loop adds to the trace. *)
Definition acceptEvents (pkg : Package) (handler : option Handler)
    (accepts : list (result (string * string))) : list event :=
  match handler with
  | Some _ => flat_map (acceptTurn pkg) accepts
  | None =>
      flat_map (acceptTurn pkg) (failedFirst accepts)
      ++ match firstAccepted accepts with
         | Some conn =>
             [ Listener_Accept;
               Printf "New connection accepted from %s/%s\n"
                 [aString (fst conn); aString (snd conn)] ]
         | None => []
         end
  end.

(** How it ends. *)
Definition acceptResult (handler : option Handler)
    (accepts : list (result (string * string))) : outcome (option error) :=
  match handler, firstAccepted accepts with
  | None, Some _ => Panic goOfNilFunc
  | _, _ => Blocked
  end.

Definition is_accept_failure_log (e : event) : bool :=
  match e with
  | Printf format _ =>
      String.eqb format "Worker process PID=%d accept connection error: %s"
  | _ => false
  end.

(** The errors among the results of [Accept]. *)
Fixpoint failed (accepts : list (result (string * string))) : list error :=
  match accepts with
  | [] => []
  | Err err :: rest => err :: failed rest
  | Ok _ :: rest => failed rest
  end.

(** The three errors the [Control] callback looks at: that of [c.Control],
    and those the function handed to it stored, which stay nil when
    [c.Control] fails without running it. *)
Definition callbackErrors (os : OS) : list (option error) :=
  match RawConn_Control os with
  | Some err => [Some err; None; None]
  | None =>
      [ None;
        SetsockoptInt os SOL_SOCKET SO_REUSEADDR 1;
        SetsockoptInt os SOL_SOCKET SO_REUSEPORT 1 ]
  end.

Definition Signal_eqb (a b : Signal) : bool :=
  match a, b with
  | SIGINT, SIGINT | SIGTERM, SIGTERM | SIGQUIT, SIGQUIT | SIGUSR2, SIGUSR2 => true
  | _, _ => false
  end.

(** A call of [Signal] with [sig] on the process [q]. *)
Definition is_signal_to (q : Z) (sig : Signal) (e : event) : bool :=
  match e with
  | Process_Signal pid s => andb (Z.eqb pid q) (Signal_eqb s sig)
  | _ => false
  end.

(** A call of [Wait] on the process [q]. *)
Definition is_wait_for (q : Z) (e : event) : bool :=
  match e with
  | Process_Wait pid => Z.eqb pid q
  | _ => false
  end.

(** The worker records that stand for the process [q]. *)
Definition withPid (q : Z) (ps : list Process) : list Process :=
  filter (fun p => Z.eqb (Pid p) q) ps.

(** Signals still to be sent to [q]. *)
Definition toSignalOf (q : Z) (g : gstate) : nat :=
  match g with
  | at_Signal p => if Z.eqb (Pid p) q then 1 else 0
  | _ => 0
  end.

(** Waits for [q] still to return. *)
Definition toWaitOf (os : OS) (sig : Signal) (q : Z) (g : gstate) : nat :=
  match g with
  | at_Signal p =>
      if Z.eqb (Pid p) q then
        match Signal_to os (Pid p) sig with
        | None => 1
        | Some _ => 0
        end
      else 0
  | at_Wait p => if Z.eqb (Pid p) q then 1 else 0
  | finished => 0
  end.

(** The CPU set whose only bit is bit [b] of word [w]. *)
Definition oneBit (w : nat) (b : Z) : unix.CPUSet :=
  repeat 0%Z w ++ Z.shiftl 1 b :: repeat 0%Z (unix.cpuSetSize - 1 - w).

(** The CPU set [system.SetAffinity] hands to the kernel for a core index
    above -64: the core itself when it is one of the 1024 a set can hold,
    no core at all for a greater index, and core [cpuCore + 64] for a
    negative one. *)
Definition affinityMask (cpuCore : Z) : unix.CPUSet :=
  if (cpuCore <? 0)%Z then oneBit 0 (cpuCore + 64)
  else if (cpuCore <? 1024)%Z then oneBit (Z.to_nat (cpuCore / 64)) (cpuCore mod 64)
  else unix.empty.

(** * Properties *)

(** ** Strings and the environment *)

Lemma prefix_append (p k x : string) :
  String.prefix p k = true -> String.prefix p (k ++ x)%string = true.
Proof.
  revert k; induction p as [|c p IH]; intros k H.
  - now destruct (k ++ x)%string.
  - destruct k as [|c' k]; simpl in *; [discriminate|].
    destruct (ascii_dec c c'); [auto | discriminate].
Qed.

Lemma cut_spec (e k v : string) :
  env.cut e = Some (k, v) -> e = (k ++ "=" ++ v)%string.
Proof.
  revert k v; induction e as [|c e IH]; intros k v H; simpl in H.
  - discriminate.
  - destruct (Ascii.eqb c "=") eqn:Ec.
    + apply Ascii.eqb_eq in Ec; subst c.
      injection H as <- <-. reflexivity.
    + destruct (env.cut e) as [[k' v']|]; [|discriminate].
      injection H as <- <-. simpl. f_equal. now apply IH.
Qed.

Lemma hasKey_prefix (p key e : string) :
  env.hasKey key e = true -> String.prefix p key = true ->
  String.prefix p e = true.
Proof.
  unfold env.hasKey; intros H Hp.
  destruct (env.cut e) as [[k v]|] eqn:Ecut; [|discriminate].
  apply String.eqb_eq in H; subst k.
  apply cut_spec in Ecut; subst e.
  now apply prefix_append.
Qed.

Lemma find_app_none {A} (f : A -> bool) (l1 l2 : list A) :
  (forall x, In x l1 -> f x = false) -> find f (l1 ++ l2) = find f l2.
Proof.
  induction l1 as [|a l1 IH]; intros H; simpl; [reflexivity|].
  rewrite (H a (or_introl eq_refl)). apply IH. intros; apply H; now right.
Qed.

Lemma find_filter_same {A} (f : A -> bool) (l : list A) :
  find f (filter f l) = find f l.
Proof.
  induction l as [|a l IH]; simpl; [reflexivity|].
  destruct (f a) eqn:E; simpl; rewrite ?E; auto.
Qed.

Lemma filter_twice {A} (f : A -> bool) (l : list A) :
  filter f (filter f l) = filter f l.
Proof.
  induction l as [|a l IH]; simpl; [reflexivity|].
  destruct (f a) eqn:E; simpl; rewrite ?E, IH; reflexivity.
Qed.

Lemma filter_none {A} (f : A -> bool) (l : list A) :
  (forall x, In x l -> f x = false) -> filter f l = [].
Proof.
  induction l as [|a l IH]; intros H; simpl; [reflexivity|].
  rewrite (H a (or_introl eq_refl)). apply IH. intros; apply H; now right.
Qed.

Lemma copyEnviron_filter names cur acc :
  copyEnviron names cur acc =
  acc ++ filter (fun v => negb (strings.HasPrefix v (envPrefix names))) cur.
Proof.
  revert acc; induction cur as [|v cur IH]; intros acc; simpl.
  - now rewrite app_nil_r.
  - destruct (strings.HasPrefix v (envPrefix names)); simpl.
    + apply IH.
    + rewrite IH, <- app_assoc. reflexivity.
Qed.

Lemma childEnv_filter names os envValues :
  childEnv names os envValues =
  filter (fun v => negb (strings.HasPrefix v (envPrefix names))) (Environ os)
  ++ envValues.
Proof. unfold childEnv. now rewrite copyEnviron_filter. Qed.

Lemma childEnv_handshake names os envValues v :
  In v (childEnv names os envValues) ->
  strings.HasPrefix v (envPrefix names) = true -> In v envValues.
Proof.
  rewrite childEnv_filter, in_app_iff, filter_In.
  intros [[_ H]|H] Hp; [|exact H].
  rewrite Hp in H; discriminate.
Qed.

Lemma childEnv_Lookup names os envValues key :
  strings.HasPrefix key (envPrefix names) = true ->
  env.LookupEnv (childEnv names os envValues) key = env.LookupEnv envValues key.
Proof.
  intros Hp. unfold env.LookupEnv.
  destruct (String.eqb key ""); [reflexivity|].
  rewrite childEnv_filter, find_app_none; [reflexivity|].
  intros e He. apply filter_In in He as [_ He].
  destruct (env.hasKey key e) eqn:Ek; [|reflexivity].
  unfold strings.HasPrefix in *.
  rewrite (hasKey_prefix _ _ _ Ek Hp) in He. discriminate.
Qed.

(** ** The computations, step by step *)

Lemma added_app {A} (c : M A) st evs :
  trace (snd (c st)) = trace st ++ evs -> added c st = evs.
Proof.
  unfold added; intros ->.
  rewrite skipn_app, skipn_all, Nat.sub_diag. reflexivity.
Qed.

Lemma forkProcess_run names os envValues st :
  forkProcess names os envValues st =
  (Value (forkResult names os (started st) envValues),
   {| trace := trace st ++ forkEvents names os envValues;
      started := started st + forkStarts os |}).
Proof.
  unfold forkProcess, forkResult, forkEvents, forkStarts, located, bind, emit.
  simpl.
  destruct (LookPath os (Args0 os)) as [filePath|err]; simpl.
  - destruct (Getwd os) as [dir|err]; simpl.
    + unfold callStartProcess; simpl.
      destruct (StartProcess os (started st) filePath (Args os) dir
                  (childEnv names os envValues)); simpl;
        rewrite <- app_assoc, Nat.add_1_r; reflexivity.
    + rewrite Nat.add_0_r. reflexivity.
  - rewrite Nat.add_0_r. reflexivity.
Qed.

(** ** Role detection *)

Lemma Lookup_present environ0 key v :
  env.LookupEnv environ0 key = Some v -> present environ0 key.
Proof.
  unfold env.LookupEnv, present.
  destruct (String.eqb key ""); [discriminate|].
  destruct (find (env.hasKey key) environ0) as [e|] eqn:Ef; [|discriminate].
  apply find_some in Ef as [Hin Hk].
  unfold env.hasKey in Hk.
  destruct (env.cut e) as [[k w]|] eqn:Ec; [|discriminate].
  apply String.eqb_eq in Hk; subst k.
  intros [= <-]. exists w. now rewrite <- (cut_spec _ _ _ Ec).
Qed.

Lemma IsMainProcess_step p a : IsMainProcess (step p a) = IsMainProcess p.
Proof. now destruct a. Qed.

Lemma IsMainProcess_steps acts p :
  IsMainProcess (fold_left step acts p) = IsMainProcess p.
Proof.
  revert p; induction acts as [|a acts IH]; intros p; simpl; [reflexivity|].
  now rewrite IH, IsMainProcess_step.
Qed.

Lemma detectRole_Worker names getpid environ0 :
  detectRole (start names getpid environ0) = Worker <->
  env.Getenv environ0 (envPPID names) <> "".
Proof.
  unfold detectRole, IsMainProcess, start, init; simpl.
  destruct (String.eqb_spec (env.Getenv environ0 (envPPID names)) "") as [E|E].
  - split; [discriminate | intros H; now elim H].
  - split; [now intros _ | reflexivity].
Qed.

(** C1, as the code has it.  A process is a Worker exactly when the first
    entry of its start-up environment that sets [envPPID] gives it a
    non-empty value, and a Supervisor otherwise: in particular it is a
    Supervisor whenever the variable is absent.  The entries for other
    variables play no part.  The role is computed once, when the package is
    initialised: whatever the program later does to its environment or to
    the hooks, [IsMainProcess] keeps returning the same value. *)
Theorem role_detection names getpid environ0 acts :
  let p := start names getpid environ0 in
  (detectRole p = Worker <->
     exists v, env.LookupEnv environ0 (envPPID names) = Some v /\ v <> "") /\
  (~ present environ0 (envPPID names) -> detectRole p = Supervisor) /\
  detectRole (start names getpid (filter (env.hasKey (envPPID names)) environ0))
    = detectRole p /\
  IsMainProcess (fold_left step acts p) = IsMainProcess p /\
  detectRole (fold_left step acts p) = detectRole p.
Proof.
  intros p; subst p.
  assert (W : detectRole (start names getpid environ0) = Worker <->
              exists v, env.LookupEnv environ0 (envPPID names) = Some v /\ v <> "").
  { rewrite detectRole_Worker. unfold env.Getenv.
    destruct (env.LookupEnv environ0 (envPPID names)) as [v|].
    - split; [intros H; now exists v | now intros [w [[= <-] H]]].
    - split; [intros H; now elim H | now intros [w [[=] _]]]. }
  split; [exact W|]. split; [|split; [|split]].
  - intros Habs.
    destruct (detectRole (start names getpid environ0)) eqn:E; [reflexivity|].
    destruct W as [W _]. destruct (W eq_refl) as [v [Hv _]].
    elim Habs. eapply Lookup_present; eauto.
  - unfold detectRole, IsMainProcess, start, init; simpl.
    unfold env.Getenv, env.LookupEnv.
    now rewrite find_filter_same.
  - apply IsMainProcess_steps.
  - unfold detectRole. now rewrite IsMainProcess_steps.
Qed.

(** C1 as stated fails: a process started with [GOPHERPACK_PPID=] in its
    environment has the variable present and is a Supervisor all the same,
    because [os.Getenv] gives the empty string for it. *)
Lemma role_detection_present_but_empty :
  ~ (forall names getpid environ0,
       detectRole (start names getpid environ0) = Worker <->
       present environ0 (envPPID names)).
Proof.
  intros H.
  destruct (H gopherpackNames 7%Z ["PATH=/usr/bin"; "GOPHERPACK_PPID="]) as [_ H2].
  assert (P : present ["PATH=/usr/bin"; "GOPHERPACK_PPID="] (envPPID gopherpackNames)).
  { exists "". simpl. right; left; reflexivity. }
  specialize (H2 P). vm_compute in H2. discriminate.
Qed.

(** ** The environment of a child *)

(** C5.  Whatever the current environment and whatever the values handed
    to [forkProcess], the environment it passes to [os.StartProcess] is the
    current one without the entries that begin with the package's prefix,
    followed by the new values: an entry with the prefix is one of the new
    values, and looking up a variable whose name has the prefix gives what
    the new values say and nothing inherited. *)
Theorem forkProcess_sanitizes_environment names os envValues st name argv dir childenv :
  In (os_StartProcess name argv dir childenv)
     (added (forkProcess names os envValues) st) ->
  childenv =
    filter (fun v => negb (strings.HasPrefix v (envPrefix names))) (Environ os)
    ++ envValues /\
  (forall v, In v childenv ->
     strings.HasPrefix v (envPrefix names) = true -> In v envValues) /\
  (forall key, strings.HasPrefix key (envPrefix names) = true ->
     env.LookupEnv childenv key = env.LookupEnv envValues key /\
     env.Getenv childenv key = env.Getenv envValues key) /\
  (forall os1 envValues1,
     Forall (fun v => strings.HasPrefix v (envPrefix names) = true) envValues1 ->
     Environ os = childEnv names os1 envValues1 ->
     childenv = childEnv names os1 envValues).
Proof.
  intros H.
  rewrite (added_app _ _ (forkEvents names os envValues)) in H
    by (rewrite forkProcess_run; reflexivity).
  unfold forkEvents in H. destruct H as [H|H]; [discriminate|].
  destruct (located os) as [[filePath d]|]; [|contradiction].
  destruct H as [H|[]]. injection H as _ _ _ <-.
  split; [apply childEnv_filter|]. split; [|split].
  - apply childEnv_handshake.
  - intros key Hk. unfold env.Getenv.
    now rewrite (childEnv_Lookup names os envValues key Hk).
  - intros os1 envValues1 Hall He.
    rewrite (childEnv_filter names os), He, (childEnv_filter names os1 envValues1),
      (childEnv_filter names os1 envValues), filter_app, filter_twice.
    rewrite (filter_none _ envValues1), app_nil_r; [reflexivity|].
    rewrite Forall_forall in Hall. intros v Hv. now rewrite (Hall v Hv).
Qed.

Lemma forkProcess_sanitizes_environment_witness :
  let envValues := ["GOPHERPACK_PPID=42"; "GOPHERPACK_CPU_CORE=0"] in
  let childenv := ["PATH=/usr/bin"; "HOME=/root";
                   "GOPHERPACK_PPID=42"; "GOPHERPACK_CPU_CORE=0"] in
  childenv =
    filter (fun v => negb (strings.HasPrefix v "GOPHERPACK_")) (Environ Sample.os)
    ++ envValues /\
  (forall v, In v childenv ->
     strings.HasPrefix v "GOPHERPACK_" = true -> In v envValues) /\
  (forall key, strings.HasPrefix key "GOPHERPACK_" = true ->
     env.LookupEnv childenv key = env.LookupEnv envValues key /\
     env.Getenv childenv key = env.Getenv envValues key) /\
  (forall os1 envValues1,
     Forall (fun v => strings.HasPrefix v "GOPHERPACK_" = true) envValues1 ->
     Environ Sample.os = childEnv gopherpackNames os1 envValues1 ->
     childenv = childEnv gopherpackNames os1 envValues).
Proof.
  apply (forkProcess_sanitizes_environment gopherpackNames Sample.os
           ["GOPHERPACK_PPID=42"; "GOPHERPACK_CPU_CORE=0"] initial
           "/usr/local/bin/server" ["/usr/local/bin/server"; "-v"] "/srv").
  vm_compute. right; left; reflexivity.
Defined.

(** ** Building the pool *)

Lemma d_injective (z z' : Z) : fmt.d z = fmt.d z' -> z = z'.
Proof.
  unfold fmt.d; intros H.
  assert (N : forall x, Z.to_int x <> Decimal.Pos Decimal.Nil /\
                        Z.to_int x <> Decimal.Neg Decimal.Nil).
  { intros x.
    assert (E : Z.to_int x = Decimal.norm (Z.to_int x))
      by (now rewrite <- DecimalZ.to_of, DecimalZ.of_to).
    rewrite E.
    destruct (Z.to_int x) as [u|u]; simpl.
    - split; [|discriminate]. unfold Decimal.unorm.
      destruct (Decimal.nzhead u); discriminate.
    - destruct (Decimal.nzhead u); split; discriminate. }
  apply DecimalZ.to_int_inj.
  destruct (N z) as [A B], (N z') as [A' B'].
  pose proof (NilZero.isi _ A B) as E. rewrite H in E.
  rewrite (NilZero.isi _ A' B') in E. now injection E.
Qed.

Lemma string_app_inv_head (a b c : string) : (a ++ b = a ++ c)%string -> b = c.
Proof. induction a as [|x a IH]; simpl; intros H; [exact H|]. injection H; auto. Qed.

Lemma Sprintf_injective name (z z' : Z) :
  fmt.Sprintf_s_eq_d name z = fmt.Sprintf_s_eq_d name z' -> z = z'.
Proof.
  unfold fmt.Sprintf_s_eq_d; intros H.
  apply string_app_inv_head in H. apply (string_app_inv_head "=") in H.
  now apply d_injective.
Qed.

Lemma store_app {A} (done rest : list A) (x v : A) :
  store (done ++ x :: rest) (length done) v = Some (done ++ v :: rest).
Proof.
  induction done as [|y done IH]; simpl; [reflexivity|].
  now rewrite IH.
Qed.

Lemma forkResult_starts names os n0 i envValues :
  forkResult names os (n0 + i * forkStarts os) envValues =
  forkResult names os (n0 + i) envValues.
Proof.
  unfold forkResult, forkStarts.
  destruct (located os) as [[filePath dir]|]; [|reflexivity].
  now rewrite Nat.mul_1_r.
Qed.

Lemma spawnWorkers_run names os pkg n0 todo :
  forall i done rest st,
    length done = i -> length rest = todo ->
    started st = n0 + i * forkStarts os ->
    spawnWorkers names os pkg todo i (done ++ rest) st =
    (Value (done ++ map (fun j => slot (spawned names os pkg n0 j)) (seq i todo)),
     {| trace := trace st ++ flat_map (spawnEvents names os pkg n0) (seq i todo);
        started := n0 + (i + todo) * forkStarts os |}).
Proof.
  induction todo as [|todo IH]; intros i done rest st Hd Hr Hs.
  - destruct rest; [|discriminate]. simpl.
    rewrite !app_nil_r, Nat.add_0_r, <- Hs. now destruct st.
  - destruct rest as [|x rest]; [discriminate|].
    injection Hr as Hr.
    cbn [spawnWorkers]. unfold bind at 1. rewrite forkProcess_run.
    rewrite Hs, forkResult_starts.
    assert (St : forall v, store (done ++ x :: rest) i v = Some ((done ++ [v]) ++ rest)).
    { intros v. subst i. rewrite store_app, <- app_assoc. reflexivity. }
    assert (Hs' : n0 + i * forkStarts os + forkStarts os = n0 + S i * forkStarts os)
      by (simpl; lia).
    assert (Hd' : forall v : option Process, length (done ++ [v]) = S i)
      by (intros v; rewrite length_app; simpl; lia).
    cbn [seq map flat_map].
    change (forkResult names os (n0 + i) (workerEnvVals names pkg i))
      with (spawned names os pkg n0 i).
    destruct (spawned names os pkg n0 i) as [p|err] eqn:E; rewrite St;
      unfold bind, emit; cbn [fst snd trace started];
      (erewrite IH; [ | apply Hd' | exact Hr | cbn [started]; exact Hs' ]);
      cbn [trace started slot]; unfold spawnEvents; rewrite E; cbn [spawnLog];
      rewrite <- !app_assoc; cbn [app];
      replace (S i + todo) with (i + S todo) by lia; reflexivity.
Qed.

Lemma pool_then_loop names os pkg st :
  exists st',
    trace st' = trace st
                ++ flat_map (spawnEvents names os pkg (started st)) (seq 0 (NumCPU os)) /\
    forall sigChan schedule,
      runMainProcess names os pkg sigChan schedule st =
      afterPool names os pkg sigChan schedule
        (map (fun i => slot (spawned names os pkg (started st) i)) (seq 0 (NumCPU os)))
        st'.
Proof.
  pose proof (spawnWorkers_run names os pkg (started st) (NumCPU os) 0 []
                (repeat None (NumCPU os)) st
                eq_refl (repeat_length _ _) (eq_sym (Nat.add_0_r _))) as R.
  rewrite !app_nil_l, Nat.add_0_l in R.
  exists {| trace := trace st
                     ++ flat_map (spawnEvents names os pkg (started st))
                                 (seq 0 (NumCPU os));
            started := started st + NumCPU os * forkStarts os |}.
  split; [reflexivity|].
  intros sigChan schedule. unfold runMainProcess, afterPool.
  unfold bind at 1. now rewrite R.
Qed.

Lemma fork_calls_of_spawn names os pkg n0 i :
  filter is_fork_call (spawnEvents names os pkg n0 i) =
  [Call_forkProcess (workerEnvVals names pkg i)].
Proof.
  unfold spawnEvents, forkEvents. rewrite filter_app.
  cbn [filter is_fork_call].
  destruct (located os) as [[f d0]|], (spawned names os pkg n0 i); reflexivity.
Qed.

(** C4.  With [k] the number of cores, the loop of [StartMainProcess]
    calls [forkProcess] exactly [k] times, for the core indices [0 .. k-1]
    in this order, each time with the two values [envPPID=pid] and
    [envCPUCore=i], and different indices give different values; the
    environment of the child is the sanitized one followed by these two.
    The loop always runs to its end: the pool has [k] slots, slot [i] holds
    the process of spawn [i] or nil when that spawn failed (a line is
    logged either way), and [StartMainProcess] goes on to its signal
    loop with this pool. *)
Theorem pool_construction names os pkg st :
  let k := NumCPU os in
  let workers := map (fun i => slot (spawned names os pkg (started st) i)) (seq 0 k) in
  let evs := flat_map (spawnEvents names os pkg (started st)) (seq 0 k) in
  exists st',
    spawnWorkers names os pkg k 0 (repeat None k) st = (Value workers, st') /\
    trace st' = trace st ++ evs /\
    filter is_fork_call evs =
      map (fun i => Call_forkProcess
                      [ fmt.Sprintf_s_eq_d (envPPID names) (pid pkg);
                        fmt.Sprintf_s_eq_d (envCPUCore names) (Z.of_nat i) ])
          (seq 0 k) /\
    (forall i j, workerEnvVals names pkg i = workerEnvVals names pkg j -> i = j) /\
    (forall i, childEnv names os (workerEnvVals names pkg i) =
               filter (fun v => negb (strings.HasPrefix v (envPrefix names))) (Environ os)
               ++ [ fmt.Sprintf_s_eq_d (envPPID names) (pid pkg);
                    fmt.Sprintf_s_eq_d (envCPUCore names) (Z.of_nat i) ]) /\
    length workers = k /\
    (forall i, i < k ->
       nth_error workers i = Some (slot (spawned names os pkg (started st) i)) /\
       In (spawnLog i (spawned names os pkg (started st) i)) evs) /\
    (forall sigChan schedule,
       runMainProcess names os pkg sigChan schedule st =
       afterPool names os pkg sigChan schedule workers st').
Proof.
  intros k workers evs.
  pose proof (spawnWorkers_run names os pkg (started st) k 0 [] (repeat None k) st
                eq_refl (repeat_length _ _) (eq_sym (Nat.add_0_r _))) as R.
  rewrite !app_nil_l, Nat.add_0_l in R. fold workers evs in R.
  eexists; split; [exact R|]. split; [reflexivity|].
  split; [|split; [|split; [|split; [|split]]]].
  - subst evs. generalize (seq 0 k) as l.
    induction l as [|i l IH]; [reflexivity|].
    cbn [flat_map map]. rewrite filter_app, IH, fork_calls_of_spawn. reflexivity.
  - intros i j H. unfold workerEnvVals in H. injection H as H.
    apply Sprintf_injective in H. lia.
  - intros i. apply childEnv_filter.
  - subst workers. now rewrite length_map, length_seq.
  - intros i Hi. split.
    + subst workers. rewrite nth_error_map, nth_error_seq.
      destruct (Nat.ltb_spec i k); [reflexivity | lia].
    + subst evs. apply in_flat_map. exists i. split.
      * apply in_seq. lia.
      * unfold spawnEvents. apply in_or_app. right. now left.
  - intros sigChan schedule. unfold runMainProcess, afterPool.
    unfold bind at 1. fold k. now rewrite R.
Qed.

(** ** The listener *)

Lemma Contains_refl s : strings.Contains s s.
Proof.
  exists ""%string, ""%string. simpl.
  induction s as [|c s IH]; simpl; [reflexivity | now rewrite <- IH].
Qed.

Lemma string_app_assoc (a b c : string) : ((a ++ b) ++ c = a ++ b ++ c)%string.
Proof. induction a as [|x a IH]; simpl; [reflexivity | now rewrite IH]. Qed.

Lemma Join_Contains (sep m : string) (l : list string) :
  In m l -> strings.Contains (strings.Join l sep) m.
Proof.
  unfold strings.Join.
  induction l as [|x l IH]; intros H; [contradiction|].
  destruct H as [->|H].
  - destruct l as [|y l]; [apply Contains_refl|].
    exists ""%string, (sep ++ String.concat sep (y :: l))%string. reflexivity.
  - destruct l as [|y l]; [contradiction|].
    destruct (IH H) as [a [b E]].
    exists (x ++ sep ++ a)%string, b.
    change (String.concat sep (x :: y :: l))
      with (x ++ sep ++ String.concat sep (y :: l))%string.
    rewrite E, !string_app_assoc. reflexivity.
Qed.

Lemma joinErrors_nonNil err reuseAddrErr reusePortErr :
  joinErrors err reuseAddrErr reusePortErr =
  match nonNil [err; reuseAddrErr; reusePortErr] with
  | [] => None
  | errs => Some (errorString (strings.Join (map Error errs) ";"))
  end.
Proof. destruct err, reuseAddrErr, reusePortErr; reflexivity. Qed.

Ltac run :=
  unfold bind, emit, ret, panic, block; cbn [fst snd trace started].

Ltac same_trace :=
  apply added_app; run; rewrite <- ?app_assoc; reflexivity.

Lemma Listen_pair os control network address st :
  exists r,
    ListenConfig_Listen os control network address st =
      (Value r, {| trace := trace st ++ [net_Listen network address];
                   started := started st |}) /\
    ((exists err, r = (None, Some err)) \/ (exists l, r = (Some l, None))).
Proof.
  unfold ListenConfig_Listen; run.
  destruct (Socket os network address) as [e|]; [eexists; split; eauto|].
  destruct control as [e|]; [eexists; split; eauto|].
  destruct (BindListen os network address) as [a|e]; eexists; split; eauto.
Qed.

Lemma getListener_panics_when_Listen_fails os network address st err :
  fst (ListenConfig_Listen os (Control os) network address st) = Value (None, Some err) ->
  getListenerWithSocketOptions os network address st =
    (Panic nilDereference,
     {| trace := trace st ++ [net_Listen network address]; started := started st |}).
Proof.
  intros H. unfold getListenerWithSocketOptions.
  destruct (Listen_pair os (Control os) network address st) as [r [E _]].
  rewrite E in H. simpl in H. injection H as ->.
  unfold bind at 1. rewrite E. reflexivity.
Qed.

Lemma getListener_when_Listen_succeeds os network address st l :
  fst (ListenConfig_Listen os (Control os) network address st) = Value (Some l, None) ->
  getListenerWithSocketOptions os network address st =
    (Value (Some l, None),
     {| trace := trace st ++ [net_Listen network address]; started := started st |}).
Proof.
  intros H. unfold getListenerWithSocketOptions.
  destruct (Listen_pair os (Control os) network address st) as [r [E _]].
  rewrite E in H. simpl in H. injection H as ->.
  unfold bind at 1. rewrite E. reflexivity.
Qed.

Lemma Control_callbackErrors os :
  Control os =
  match nonNil (callbackErrors os) with
  | [] => None
  | errs => Some (errorString (strings.Join (map Error errs) ";"))
  end.
Proof.
  unfold Control, callbackErrors.
  destruct (RawConn_Control os); rewrite joinErrors_nonNil; reflexivity.
Qed.

Lemma getListener_panics_when_Control_fails os network address st :
  Control os <> None ->
  getListenerWithSocketOptions os network address st =
    (Panic nilDereference,
     {| trace := trace st ++ [net_Listen network address]; started := started st |}).
Proof.
  intros H.
  destruct (Control os) as [combined|] eqn:C; [|now elim H].
  destruct (Socket os network address) as [err|] eqn:S.
  - apply (getListener_panics_when_Listen_fails os network address st err).
    unfold ListenConfig_Listen; run. now rewrite S.
  - apply (getListener_panics_when_Listen_fails os network address st
             (OpError "listen" network address combined)).
    unfold ListenConfig_Listen; run. now rewrite S, C.
Qed.

(** C8 does not hold of the code.  The [Control] callback does gather the
    error of [c.Control] and those of setting [SO_REUSEADDR] and
    [SO_REUSEPORT] into one error, nil exactly when all three are nil, whose
    message is the messages of the others joined with [";"], and
    [ListenConfig.Listen] fails with an error that wraps it.  But
    [getListenerWithSocketOptions] never returns this error: on every failed
    [Listen] it evaluates [l.Addr()] on the nil listener and panics.  On a
    kernel without [SO_REUSEPORT] the combined error is
    [protocol not available], and the worker that was to get it from
    [ListenAndServeHttp] panics after its set-up; so it is when both options
    are refused, or whenever the callback gives an error at all. *)
Theorem combined_option_error_is_never_returned :
  Control Sample.osNoReusePort = Some (errorString "protocol not available") /\
  fst (ListenConfig_Listen Sample.osNoReusePort (Control Sample.osNoReusePort)
         "tcp" "localhost:8778" initial)
    = Value (None, Some (OpError "listen" "tcp" "localhost:8778"
                           (errorString "protocol not available"))) /\
  getListenerWithSocketOptions Sample.osNoReusePort "tcp" "localhost:8778" initial
    = (Panic nilDereference,
       {| trace := [net_Listen "tcp" "localhost:8778"]; started := 0 |}) /\
  ListenAndServeHttp gopherpackNames Sample.osNoReusePort Sample.worker
    "tcp" "localhost:8778" (Some Sample.server) [] [] initial
    = (Panic nilDereference,
       {| trace := [ system_SetAffinity 1;
                     runtime_GOMAXPROCS 1;
                     Printf "Starting worker PID=%d on CPU core %d\n" [aInt 1001; aInt 1];
                     net_Listen "tcp" "localhost:8778" ];
          started := 0 |}) /\
  Control Sample.osNoOptions
    = Some (errorString "operation not permitted;protocol not available") /\
  getListenerWithSocketOptions Sample.osNoOptions "tcp" "localhost:8778" initial
    = (Panic nilDereference,
       {| trace := [net_Listen "tcp" "localhost:8778"]; started := 0 |}) /\
  (forall os,
     let errs := nonNil (callbackErrors os) in
     (Control os = None <->
        RawConn_Control os = None /\
        SetsockoptInt os SOL_SOCKET SO_REUSEADDR 1 = None /\
        SetsockoptInt os SOL_SOCKET SO_REUSEPORT 1 = None) /\
     (errs <> [] ->
        Control os = Some (errorString (strings.Join (map Error errs) ";"))) /\
     (forall e, In (Some e) (callbackErrors os) ->
        exists combined,
          Control os = Some combined /\
          strings.Contains (Error combined) (Error e)) /\
     (forall network address st combined,
        Control os = Some combined ->
        (Socket os network address = None ->
         fst (ListenConfig_Listen os (Control os) network address st)
           = Value (None, Some (OpError "listen" network address combined))) /\
        getListenerWithSocketOptions os network address st
          = (Panic nilDereference,
             {| trace := trace st ++ [net_Listen network address];
                started := started st |}))).
Proof.
  split; [reflexivity|]. split; [reflexivity|].
  split; [now apply (getListener_panics_when_Control_fails Sample.osNoReusePort)|].
  split.
  { unfold ListenAndServeHttp. cbn [isMainProcess Sample.worker].
    unfold bind at 1.
    assert (S : setupWorkerRuntime Sample.osNoReusePort Sample.worker initial =
                (Value None,
                 {| trace := [ system_SetAffinity 1;
                               runtime_GOMAXPROCS 1;
                               Printf "Starting worker PID=%d on CPU core %d\n"
                                 [aInt 1001; aInt 1] ];
                    started := 0 |})) by reflexivity.
    rewrite S. unfold bind at 1.
    rewrite (getListener_panics_when_Control_fails Sample.osNoReusePort)
      by discriminate.
    reflexivity. }
  split; [reflexivity|].
  split; [now apply (getListener_panics_when_Control_fails Sample.osNoOptions)|].
  intros os errs. split; [|split; [|split]].
  - unfold Control.
    destruct (RawConn_Control os), (SetsockoptInt os SOL_SOCKET SO_REUSEADDR 1),
      (SetsockoptInt os SOL_SOCKET SO_REUSEPORT 1); simpl; split;
      try discriminate; try tauto; intros (A & B & C); discriminate.
  - intros H. rewrite Control_callbackErrors. fold errs.
    destruct errs; [now elim H | reflexivity].
  - intros e He.
    assert (Hin : In e errs).
    { subst errs. revert He. generalize (callbackErrors os) as l.
      induction l as [|[x|] l IH]; simpl; intros H.
      - contradiction.
      - destruct H as [[= ->]|H]; auto.
      - destruct H as [H|H]; [discriminate | auto]. }
    rewrite Control_callbackErrors. fold errs.
    destruct errs as [|e0 errs'] eqn:E; [contradiction|].
    eexists; split; [reflexivity|].
    change (Error (errorString ?s)) with s.
    apply Join_Contains. now apply in_map.
  - intros network address st combined HC. split.
    + intros HS. unfold ListenConfig_Listen; run. now rewrite HS, HC.
    + apply getListener_panics_when_Control_fails. congruence.
Qed.

(** C10 does not hold of the code.  When the address is taken,
    [ListenConfig.Listen] gives a nil listener and an error, and
    [getListenerWithSocketOptions] then evaluates [l.Addr()] for its log
    line: it panics instead of returning the error.  When [Listen] succeeds
    the line is not logged at all. *)
Theorem getListener_failure_dereferences_nil :
  fst (ListenConfig_Listen Sample.osNoListen (Control Sample.osNoListen)
         "tcp" "localhost:8778" initial)
    = Value (None, Some (OpError "listen" "tcp" "localhost:8778" Sample.EADDRINUSE)) /\
  getListenerWithSocketOptions Sample.osNoListen "tcp" "localhost:8778" initial
    = (Panic nilDereference,
       {| trace := [net_Listen "tcp" "localhost:8778"]; started := 0 |}) /\
  filter is_starting_listener_log
    (events (getListenerWithSocketOptions Sample.os "tcp" "localhost:8778")) = [].
Proof.
  split; [reflexivity|]. split; [|reflexivity].
  apply (getListener_panics_when_Listen_fails Sample.osNoListen "tcp" "localhost:8778"
           initial (OpError "listen" "tcp" "localhost:8778" Sample.EADDRINUSE)).
  reflexivity.
Qed.

(** ** Setting up a worker *)

Lemma setupWorkerRuntime_affinity_failure os pkg st cpuCore err :
  strconv.Atoi (workerCpuCore pkg) = Ok cpuCore ->
  system.SetAffinity os cpuCore = Value (Some err) ->
  setupWorkerRuntime os pkg st =
    (Value (Some err),
     {| trace := trace st ++
                 [ system_SetAffinity cpuCore;
                   Printf "Could not set affinity to CPU core %d: %s\n"
                     [aInt cpuCore; aError err] ];
        started := started st |}).
Proof.
  intros HA HS. unfold setupWorkerRuntime. rewrite HA. unfold lift. run.
  rewrite HS. run. now rewrite <- app_assoc.
Qed.

(** C6 does not hold of [setupWorkerRuntime].  For a worker on core 1 whose
    pinning is refused with EINVAL, it logs the failure and returns the
    error without restricting the runtime to one execution unit, so
    [ListenAndServeHttp] fails before it listens; the revision that sets
    the worker up inside [ListenAndServeHttp] only logs the failure, calls
    [runtime.GOMAXPROCS(1)] and goes on to serve. *)
Theorem affinity_failure_is_fatal_in_setupWorkerRuntime :
  strconv.Atoi (workerCpuCore Sample.worker) = Ok 1%Z /\
  setupWorkerRuntime Sample.osNoAffinity Sample.worker initial =
    (Value (Some Sample.EINVAL),
     {| trace := [ system_SetAffinity 1;
                   Printf "Could not set affinity to CPU core %d: %s\n"
                     [aInt 1; aError Sample.EINVAL] ];
        started := 0 |}) /\
  ListenAndServeHttp gopherpackNames Sample.osNoAffinity Sample.worker
    "tcp" "localhost:8778" (Some Sample.server) [] [] initial =
    (Value (Some Sample.EINVAL),
     {| trace := [ system_SetAffinity 1;
                   Printf "Could not set affinity to CPU core %d: %s\n"
                     [aInt 1; aError Sample.EINVAL] ];
        started := 0 |}) /\
  Inline.ListenAndServeHttp gopherpackNames Sample.osNoAffinity Sample.worker
    "tcp" "localhost:8778" (Some Sample.server) [] [] initial =
    (Value (Some (http_Serve Sample.server)),
     {| trace := [ system_SetAffinity 7;
                   Printf "Could not set affinity to CPU core %d: %s\n"
                     [aInt 7; aError Sample.EINVAL];
                   runtime_GOMAXPROCS 1;
                   net_Listen "tcp" "localhost:8778";
                   go go_awaitShutdown;
                   Printf "Starting worker PID=%d on CPU core %d\n"
                     [aInt 1001; aInt 7];
                   server_Serve ];
        started := 0 |}).
Proof.
  split; [reflexivity|]. split; [|split; reflexivity].
  apply (setupWorkerRuntime_affinity_failure Sample.osNoAffinity Sample.worker
           initial 1%Z Sample.EINVAL); reflexivity.
Qed.

(** C9.  In a worker whose core index does not parse ([strconv.Atoi] gives
    an error), [setupWorkerRuntime] returns that error and has done nothing
    else: no pinning to some other core, no listener.  Each of the three
    entry points returns the same error to its caller with the trace
    unchanged, and so does the revision that parses the variable inside
    [ListenAndServeHttp]. *)
Theorem malformed_core_index_is_fatal names os pkg err st :
  isMainProcess pkg = false ->
  strconv.Atoi (workerCpuCore pkg) = Err err ->
  setupWorkerRuntime os pkg st = (Value (Some err), st) /\
  (forall network address server sigChan schedule,
     ListenAndServeHttp names os pkg network address (Some server) sigChan schedule st
       = (Value (Some err), st)) /\
  (forall network address server sigChan schedule,
     ListenAndServeGRPC names os pkg network address (Some server) sigChan schedule st
       = (Value (Some err), st)) /\
  (forall network address tlsConfig handler accepts sigChan schedule,
     ListenAndServeTCP names os pkg network address tlsConfig handler accepts
       sigChan schedule st
       = (Value (Some err), st)) /\
  (forall network address server sigChan schedule,
     env.Getenv (Environ os) (envCPUCore names) = workerCpuCore pkg ->
     Inline.ListenAndServeHttp names os pkg network address (Some server) sigChan schedule st
       = (Value (Some err), st)).
Proof.
  intros Hw Ha.
  assert (S : setupWorkerRuntime os pkg st = (Value (Some err), st))
    by (unfold setupWorkerRuntime; now rewrite Ha).
  split; [exact S|].
  repeat split; intros.
  - unfold ListenAndServeHttp. rewrite Hw. unfold bind. now rewrite S.
  - unfold ListenAndServeGRPC. rewrite Hw. unfold bind. now rewrite S.
  - unfold ListenAndServeTCP. rewrite Hw. unfold bind. now rewrite S.
  - unfold Inline.ListenAndServeHttp. rewrite Hw, H, Ha. reflexivity.
Qed.

Lemma malformed_core_index_is_fatal_witness :
  setupWorkerRuntime Sample.os Sample.workerBadCore initial =
    (Value (Some (NumError "Atoi" "one" strconv.ErrSyntax)), initial).
Proof.
  apply (malformed_core_index_is_fatal gopherpackNames Sample.os Sample.workerBadCore
           (NumError "Atoi" "one" strconv.ErrSyntax) initial); reflexivity.
Defined.

(** ** The shutdown hook of a worker *)

(** C7.  On the signal it receives, the goroutine of a worker logs it,
    calls [OnServerShutdown] if it is set, once, under a deferred
    [recover], and then calls the graceful stop of the server
    ([server.Shutdown] for HTTP, [server.GracefulStop] for gRPC), whether
    the hook returned or panicked: a panic is logged with its value and
    goes no further, the goroutine itself ends normally.  Later signals are
    not read. *)
Theorem shutdown_hook_isolated pkg server sig rest st :
  fst (awaitShutdownHttp pkg server (sig :: rest) st) = Value tt /\
  added (awaitShutdownHttp pkg server (sig :: rest)) st =
    [ Printf "Worker process PID=%d recivied signal: %s. Shutdown gracefully\n"
        [aInt (pid pkg); aSignal sig] ]
    ++ shutdownHookEvents pkg
    ++ [server_Shutdown]
    ++ match http_Shutdown server with
       | Some err =>
           [ Printf "Worker process PID=%d could not shutdown gracefully: %s\n"
               [aInt (pid pkg); aError err] ]
       | None => []
       end /\
  fst (awaitShutdownGRPC pkg (sig :: rest) st) = Value tt /\
  added (awaitShutdownGRPC pkg (sig :: rest)) st =
    [ Printf "Worker process PID=%d received signal: %s. Shutdown gracefully\n"
        [aInt (pid pkg); aSignal sig] ]
    ++ shutdownHookEvents pkg
    ++ [server_GracefulStop] /\
  length (filter is_hook_call (added (awaitShutdownHttp pkg server (sig :: rest)) st)) <= 1 /\
  length (filter is_hook_call (added (awaitShutdownGRPC pkg (sig :: rest)) st)) <= 1 /\
  (forall v, OnServerShutdown pkg = Some (panics v) ->
     shutdownHookEvents pkg =
       [ Call_hook "OnServerShutdown";
         Printf "Worker process PID=%d OnServerShutdown hook panicked: %s"
           [aInt (pid pkg); aRecovered (Some v)] ]).
Proof.
  assert (H1 : added (awaitShutdownHttp pkg server (sig :: rest)) st =
    [ Printf "Worker process PID=%d recivied signal: %s. Shutdown gracefully\n"
        [aInt (pid pkg); aSignal sig] ]
    ++ shutdownHookEvents pkg
    ++ [server_Shutdown]
    ++ match http_Shutdown server with
       | Some err =>
           [ Printf "Worker process PID=%d could not shutdown gracefully: %s\n"
               [aInt (pid pkg); aError err] ]
       | None => []
       end).
  { unfold awaitShutdownHttp, callOnServerShutdown, shutdownHookEvents, callHook.
    destruct (OnServerShutdown pkg) as [h|], (http_Shutdown server); same_trace. }
  assert (H2 : added (awaitShutdownGRPC pkg (sig :: rest)) st =
    [ Printf "Worker process PID=%d received signal: %s. Shutdown gracefully\n"
        [aInt (pid pkg); aSignal sig] ]
    ++ shutdownHookEvents pkg
    ++ [server_GracefulStop]).
  { unfold awaitShutdownGRPC, callOnServerShutdown, shutdownHookEvents, callHook.
    destruct (OnServerShutdown pkg) as [h|]; same_trace. }
  split; [|split; [exact H1|split; [|split; [exact H2|split; [|split]]]]].
  - unfold awaitShutdownHttp, callOnServerShutdown, callHook.
    destruct (OnServerShutdown pkg) as [h|], (http_Shutdown server); reflexivity.
  - unfold awaitShutdownGRPC, callOnServerShutdown, callHook.
    destruct (OnServerShutdown pkg) as [h|]; reflexivity.
  - rewrite H1. unfold shutdownHookEvents.
    destruct (OnServerShutdown pkg), (http_Shutdown server); simpl; lia.
  - rewrite H2. unfold shutdownHookEvents.
    destruct (OnServerShutdown pkg); simpl; lia.
  - intros v Hv. unfold shutdownHookEvents. now rewrite Hv.
Qed.

Lemma shutdown_hook_isolated_witness :
  added (awaitShutdownGRPC Sample.worker [SIGTERM]) initial =
    [ Printf "Worker process PID=%d received signal: %s. Shutdown gracefully\n"
        [aInt 1001; aSignal SIGTERM];
      Call_hook "OnServerShutdown";
      Printf "Worker process PID=%d OnServerShutdown hook panicked: %s"
        [aInt 1001; aRecovered (Some "boom")];
      server_GracefulStop ].
Proof.
  apply (shutdown_hook_isolated Sample.worker Sample.server SIGTERM [] initial).
Defined.
(** ** The fan-out of a terminating signal *)

Lemma emitAll_run evs st :
  emitAll evs st = (Value tt, {| trace := trace st ++ evs; started := started st |}).
Proof.
  revert st; induction evs as [|e evs IH]; intros st; simpl.
  - rewrite app_nil_r. now destruct st.
  - unfold bind, emit. rewrite IH. simpl. now rewrite <- app_assoc.
Qed.

Lemma store_nth {A} (l : list A) i x v :
  nth_error l i = Some x ->
  exists l', store l i v = Some l' /\ length l' = length l /\
             forall j, nth_error l' j = if Nat.eqb j i then Some v else nth_error l j.
Proof.
  revert i; induction l as [|y l IH]; intros i H.
  - destruct i; discriminate.
  - destruct i as [|i]; simpl in *.
    + eexists; split; [reflexivity|]. split; [reflexivity|].
      intros [|j]; reflexivity.
    + destruct (IH i H) as [l' [E [L N]]]. rewrite E. simpl.
      eexists; split; [reflexivity|]. split; [simpl; now rewrite L|].
      intros [|j]; simpl; [reflexivity | apply N].
Qed.

Lemma gstep_unfinished os sig g g' evs :
  gstep os sig g = Some (g', evs) -> is_finished g = false.
Proof. destruct g; simpl; [reflexivity | reflexivity | discriminate]. Qed.

Lemma unfinished_store gs : forall i g g' gs',
  nth_error gs i = Some g -> is_finished g = false ->
  store gs i g' = Some gs' ->
  unfinished gs = unfinished gs' + (if is_finished g' then 1 else 0).
Proof.
  unfold unfinished.
  induction gs as [|h gs IH]; intros i g g' gs' Hn Hf Hs.
  - destruct i; discriminate.
  - destruct i as [|i]; simpl in *.
    + injection Hn as ->. injection Hs as <-. simpl. rewrite Hf. simpl.
      destruct (is_finished g'); simpl; lia.
    + destruct (store gs i g') as [l|] eqn:E; [|discriminate].
      injection Hs as <-. simpl.
      specialize (IH i g g' l Hn Hf E).
      destruct (is_finished h); simpl; lia.
Qed.

Lemma unfinished_zero gs :
  unfinished gs = 0 -> forall i g, nth_error gs i = Some g -> g = finished.
Proof.
  unfold unfinished.
  induction gs as [|h gs IH]; intros H i g Hn.
  - destruct i; discriminate.
  - simpl in H. destruct h; simpl in H; try discriminate.
    destruct i as [|i]; simpl in Hn; [now injection Hn as <- | eauto].
Qed.

Lemma launch_live workers : launch workers = map at_Signal (live workers).
Proof.
  induction workers as [|[p|] ws IH]; simpl; [reflexivity | now rewrite IH | exact IH].
Qed.

Lemma live_In workers p : In p (live workers) <-> In (Some p) workers.
Proof.
  induction workers as [|[q|] ws IH]; simpl.
  - tauto.
  - rewrite IH. split; intros [H|H]; auto; [left; now f_equal | injection H; auto].
  - rewrite IH. split; [auto | intros [H|H]; [discriminate | exact H]].
Qed.

Section FanOut.

Variable os : OS.
Variable sig : Signal.
Variable ws : list Process.

Lemma okState_mono tr evs p g : okState os sig tr p g -> okState os sig (tr ++ evs) p g.
Proof.
  destruct g; simpl; auto.
  - intros (A & B & C). repeat split; auto. apply in_or_app; auto.
  - intros (A & B & L). split; [apply in_or_app; auto|]. split.
    + destruct B as [B|[B C]]; [left; auto | right; split; auto; apply in_or_app; auto].
    + intros line Hl. apply in_or_app; auto.
Qed.

Lemma gstep_ok tr p g g' evs :
  In p ws -> okState os sig tr p g -> gstep os sig g = Some (g', evs) ->
  okState os sig (tr ++ evs) p g' /\ Forall (allowed sig ws) evs.
Proof.
  intros Hp Hok Hs. destruct g as [q|q|]; simpl in *; [| |discriminate].
  - subst q. destruct (Signal_to os (Pid p) sig) as [err|] eqn:E;
      injection Hs as <- <-; simpl.
    + split.
      * split; [apply in_or_app; right; now left|]. split; [left; congruence|].
        unfold lastLine. rewrite E. intros line [= <-].
        apply in_or_app; right; right; now left.
      * repeat constructor. exists p; auto.
    + split.
      * repeat split; auto. apply in_or_app; right; now left.
      * repeat constructor. exists p; auto.
  - destruct Hok as (-> & Hin & Hsig).
    destruct (Wait_for os (Pid p)) as [[pState|err]|] eqn:E; [| |discriminate];
      injection Hs as <- <-; simpl.
    + split.
      * split; [apply in_or_app; auto|]. split.
        -- right. split; [|congruence]. apply in_or_app; right; now left.
        -- unfold lastLine. rewrite Hsig, E. intros line [= <-].
           apply in_or_app; right; right; now left.
      * repeat constructor. exists p; auto.
    + split.
      * split; [apply in_or_app; auto|]. split.
        -- right. split; [|congruence]. apply in_or_app; right; now left.
        -- unfold lastLine. rewrite Hsig, E. intros line [= <-].
           apply in_or_app; right; right; now left.
      * repeat constructor. exists p; auto.
Qed.

Lemma waitGroup_safe : forall schedule wg gs st cur r st',
  Inv os sig ws gs cur -> wg = unfinished gs ->
  waitGroup os sig schedule wg gs st = (r, st') ->
  exists evs,
    trace st' = trace st ++ evs /\ Forall (allowed sig ws) evs /\
    started st' = started st /\
    match r with
    | Value _ => exists gs', Inv os sig ws gs' (cur ++ evs) /\ unfinished gs' = 0
    | Panic _ => False
    | Blocked => True
    end.
Proof.
  induction schedule as [|i schedule IH]; intros wg gs st cur r st' HI Hwg H.
  - exists []. rewrite !app_nil_r.
    destruct wg; simpl in H; injection H as <- <-; repeat split; auto.
    exists gs; auto.
  - destruct wg as [|wg'].
    { simpl in H. injection H as <- <-. exists []. rewrite !app_nil_r.
      repeat split; auto. exists gs; auto. }
    cbn [waitGroup] in H.
    destruct (nth_error gs i) as [g|] eqn:En; [|eapply IH; eauto].
    destruct (gstep os sig g) as [[g' evs]|] eqn:Eg; [|eapply IH; eauto].
    destruct (store_nth gs i g g' En) as [gs' [Es [Hl Hnth]]].
    rewrite Es in H. unfold bind in H. rewrite emitAll_run in H.
    destruct HI as [HL HI].
    assert (Hp : exists p, nth_error ws i = Some p).
    { destruct (nth_error ws i) as [p|] eqn:Ew; [eauto|].
      apply nth_error_None in Ew.
      assert (i < length gs) by (apply nth_error_Some; congruence). lia. }
    destruct Hp as [p Hp].
    destruct (HI i p Hp) as [g0 [Hg0 Hok]].
    rewrite En in Hg0. injection Hg0 as <-.
    destruct (gstep_ok _ p g g' evs (nth_error_In _ _ Hp) Hok Eg) as [Hok' Hall].
    pose proof (unfinished_store gs i g g' gs' En (gstep_unfinished _ _ _ _ _ Eg) Es) as Hu.
    apply (IH _ _ _ (cur ++ evs)) in H.
    + destruct H as [evs' (Ht & Ha & Hst & Hr)]. cbn [trace started] in *.
      exists (evs ++ evs'). rewrite Ht, <- app_assoc.
      repeat split; auto.
      * apply Forall_app; auto.
      * now rewrite app_assoc.
    + split; [congruence|].
      intros j q Hq. rewrite Hnth.
      destruct (Nat.eqb_spec j i) as [->|Hne].
      * rewrite Hp in Hq. injection Hq as <-. eauto.
      * destruct (HI j q Hq) as [gj [Hgj Hokj]]. exists gj. split; [exact Hgj|].
        now apply okState_mono.
    + destruct (is_finished g'); lia.
Qed.

Lemma waitGroup_live : forall schedule wg gs st,
  wg = unfinished gs ->
  (forall i g, nth_error gs i = Some g ->
     willing os sig g /\ need g <= count_occ Nat.eq_dec schedule i) ->
  exists st', waitGroup os sig schedule wg gs st = (Value tt, st').
Proof.
  induction schedule as [|i schedule IH]; intros wg gs st Hwg H.
  - assert (Z : unfinished gs = 0).
    { unfold unfinished. clear Hwg.
      induction gs as [|g gs IHg]; [reflexivity|]. simpl.
      destruct (H 0 g eq_refl) as [_ Hn]. simpl in Hn.
      destruct g; simpl in *; try lia.
      apply IHg. intros j gj Hj. apply (H (S j) gj Hj). }
    subst wg. rewrite Z. eexists; reflexivity.
  - destruct wg as [|wg']; [eexists; reflexivity|].
    cbn [waitGroup].
    assert (Rest : forall j g, j <> i -> nth_error gs j = Some g ->
              willing os sig g /\ need g <= count_occ Nat.eq_dec schedule j).
    { intros j g Hj Hg. destruct (H j g Hg) as [A B]. split; [exact A|].
      simpl in B. destruct (Nat.eq_dec i j); [congruence | exact B]. }
    destruct (nth_error gs i) as [g|] eqn:En.
    + destruct (H i g En) as [Hw Hc]. simpl in Hc.
      destruct (Nat.eq_dec i i) as [_|]; [|congruence].
      destruct (gstep os sig g) as [[g' evs]|] eqn:Eg.
      * destruct (store_nth gs i g g' En) as [gs' [Es [Hl Hnth]]].
        rewrite Es. unfold bind. rewrite emitAll_run.
        pose proof (unfinished_store gs i g g' gs' En
                      (gstep_unfinished _ _ _ _ _ Eg) Es) as Hu.
        apply IH.
        -- destruct (is_finished g'); lia.
        -- intros j gj Hj. rewrite Hnth in Hj.
           destruct (Nat.eqb_spec j i) as [->|Hne]; [|now apply Rest].
           injection Hj as <-.
           destruct g as [p|p|]; simpl in *; [| |discriminate].
           ++ destruct (Signal_to os (Pid p) sig); injection Eg as <- <-; simpl;
                split; auto; lia.
           ++ destruct (Wait_for os (Pid p)) as [[?|?]|]; [| |discriminate];
                injection Eg as <- <-; simpl; split; auto; lia.
      * apply IH; [exact Hwg|].
        intros j gj Hj. destruct (Nat.eq_dec j i) as [->|Hne]; [|now apply Rest].
        rewrite En in Hj. injection Hj as <-. split; [exact Hw|].
        destruct g as [p|p|]; simpl in *.
        -- destruct (Signal_to os (Pid p) sig); discriminate.
        -- destruct (Wait_for os (Pid p)) as [[?|?]|]; try discriminate. now elim Hw.
        -- lia.
    + apply IH; [exact Hwg|].
      intros j gj Hj. apply Rest; [|exact Hj]. intros ->. congruence.
Qed.

(** Under a schedule that picks a goroutine often enough, the goroutine
    gets as far as it can, whatever the others do. *)
Lemma waitGroup_fair : forall schedule wg gs st cur r st',
  Inv os sig ws gs cur -> wg = unfinished gs ->
  (forall i g, nth_error gs i = Some g ->
     stuck os g \/ need g <= count_occ Nat.eq_dec schedule i) ->
  waitGroup os sig schedule wg gs st = (r, st') ->
  exists evs gs',
    trace st' = trace st ++ evs /\ Inv os sig ws gs' (cur ++ evs) /\
    forall i g, nth_error gs' i = Some g -> g = finished \/ stuck os g.
Proof.
  induction schedule as [|i schedule IH]; intros wg gs st cur r st' HI Hwg Hn H.
  - exists [], gs. rewrite !app_nil_r.
    split; [destruct wg; simpl in H; now injection H as <- <-|].
    split; [exact HI|].
    intros j g Hg. destruct (Hn j g Hg) as [S|N]; [now right|].
    simpl in N. destruct g; simpl in N; try lia. now left.
  - destruct wg as [|wg'].
    { simpl in H. injection H as <- <-. exists [], gs. rewrite !app_nil_r.
      split; [reflexivity|]. split; [exact HI|].
      intros j g Hg. left. eapply unfinished_zero; eauto. }
    cbn [waitGroup] in H.
    assert (Rest : forall j g, j <> i -> nth_error gs j = Some g ->
              stuck os g \/ need g <= count_occ Nat.eq_dec schedule j).
    { intros j g Hj Hg. destruct (Hn j g Hg) as [A|B]; [now left|]. right.
      simpl in B. destruct (Nat.eq_dec i j); [congruence | exact B]. }
    destruct (nth_error gs i) as [g|] eqn:En.
    + destruct (gstep os sig g) as [[g' evs]|] eqn:Eg.
      * destruct (store_nth gs i g g' En) as [gs1 [Es [Hl Hnth]]].
        rewrite Es in H. unfold bind in H. rewrite emitAll_run in H.
        destruct HI as [HL HI].
        assert (Hp : exists p, nth_error ws i = Some p).
        { destruct (nth_error ws i) as [p|] eqn:Ew; [eauto|].
          apply nth_error_None in Ew.
          assert (i < length gs) by (apply nth_error_Some; congruence). lia. }
        destruct Hp as [p Hp].
        destruct (HI i p Hp) as [g0 [Hg0 Hok]].
        rewrite En in Hg0. injection Hg0 as <-.
        destruct (gstep_ok _ p g g' evs (nth_error_In _ _ Hp) Hok Eg) as [Hok' _].
        pose proof (unfinished_store gs i g g' gs1 En
                      (gstep_unfinished _ _ _ _ _ Eg) Es) as Hu.
        apply (IH _ _ _ (cur ++ evs)) in H.
        -- destruct H as [evs' [gs' (Ht & Hi' & Hf)]]. cbn [trace] in Ht.
           exists (evs ++ evs'), gs'. rewrite Ht, <- app_assoc.
           split; [reflexivity|]. split; [now rewrite app_assoc | exact Hf].
        -- split; [congruence|].
           intros j q Hq. rewrite Hnth.
           destruct (Nat.eqb_spec j i) as [->|Hne].
           ++ rewrite Hp in Hq. injection Hq as <-. eauto.
           ++ destruct (HI j q Hq) as [gj [Hgj Hokj]]. exists gj.
              split; [exact Hgj | now apply okState_mono].
        -- destruct (is_finished g'); lia.
        -- intros j gj Hj. rewrite Hnth in Hj.
           destruct (Nat.eqb_spec j i) as [->|Hne]; [|now apply Rest].
           injection Hj as <-. right.
           destruct (Hn i g En) as [S|N].
           { destruct g as [q|q|]; simpl in S; try contradiction.
             simpl in Eg. rewrite S in Eg. discriminate. }
           simpl in N. destruct (Nat.eq_dec i i) as [_|]; [|congruence].
           destruct g as [q|q|]; simpl in *; [| |discriminate].
           ++ destruct (Signal_to os (Pid q) sig); injection Eg as <- <-; simpl; lia.
           ++ destruct (Wait_for os (Pid q)) as [[?|?]|]; [| |discriminate];
                injection Eg as <- <-; simpl; lia.
      * apply (IH _ _ _ cur) in H; [exact H | exact HI | exact Hwg |].
        intros j gj Hj. destruct (Nat.eq_dec j i) as [->|Hne]; [|now apply Rest].
        rewrite En in Hj. injection Hj as <-.
        destruct g as [q|q|]; simpl in Eg.
        -- destruct (Signal_to os (Pid q) sig); discriminate.
        -- left. simpl. destruct (Wait_for os (Pid q)) as [[?|?]|]; try discriminate.
           reflexivity.
        -- right. simpl. lia.
    + apply (IH _ _ _ cur) in H; [exact H | exact HI | exact Hwg |].
      intros j gj Hj. apply Rest; [|exact Hj]. intros ->. congruence.
Qed.

End FanOut.

Lemma unfinished_launch workers :
  unfinished (launch workers) = length (launch workers).
Proof.
  rewrite launch_live. unfold unfinished.
  induction (live workers) as [|p l IH]; simpl; [reflexivity | now rewrite IH].
Qed.

Lemma sendSignalToWorkers_safe os sig workers schedule st r st' :
  sendSignalToWorkers os workers sig schedule st = (r, st') ->
  exists evs,
    trace st' = trace st ++ evs /\ started st' = started st /\
    (forall pid s, In (Process_Signal pid s) evs ->
       s = sig /\ exists p, In (Some p) workers /\ Pid p = pid) /\
    match r with
    | Value _ =>
        forall p, In (Some p) workers ->
          In (Process_Signal (Pid p) sig) evs /\
          (Signal_to os (Pid p) sig <> None \/
           (In (Process_Wait (Pid p)) evs /\ Wait_for os (Pid p) <> None)) /\
          (forall line, lastLine os sig p = Some line -> In line evs)
    | Panic _ => False
    | Blocked => True
    end.
Proof.
  unfold sendSignalToWorkers. intros H.
  apply (waitGroup_safe os sig (live workers) _ _ _ _ []) in H.
  - destruct H as [evs (Ht & Ha & Hs & Hr)]. exists evs.
    split; [exact Ht|]. split; [exact Hs|]. split.
    + intros pid s Hin. rewrite Forall_forall in Ha.
      destruct (Ha _ Hin) as [-> [p [Hp E]]]. split; [reflexivity|].
      exists p. split; [now apply live_In | exact E].
    + destruct r; auto.
      destruct Hr as [gs' [[HL HI] Hz]]. intros p Hp.
      apply live_In in Hp. apply In_nth_error in Hp as [i Hi].
      destruct (HI i p Hi) as [g [Hg Hok]].
      rewrite (unfinished_zero gs' Hz i g Hg) in Hok. exact Hok.
  - rewrite launch_live. split; [apply length_map|].
    intros i p Hp. exists (at_Signal p). split; [|reflexivity].
    rewrite nth_error_map, Hp. reflexivity.
  - now rewrite unfinished_launch.
Qed.

Lemma sendSignalToWorkers_fair os sig workers schedule st :
  fair (length (live workers)) schedule = true ->
  exists evs,
    trace (snd (sendSignalToWorkers os workers sig schedule st)) = trace st ++ evs /\
    forall p, In (Some p) workers ->
      In (Process_Signal (Pid p) sig) evs /\
      (Signal_to os (Pid p) sig = None -> Wait_for os (Pid p) <> None ->
       In (Process_Wait (Pid p)) evs) /\
      (forall line, lastLine os sig p = Some line -> In line evs).
Proof.
  intros Hf.
  destruct (sendSignalToWorkers os workers sig schedule st) as [r st'] eqn:S.
  unfold sendSignalToWorkers in S.
  apply (waitGroup_fair os sig (live workers) _ _ _ _ []) in S.
  - destruct S as [evs [gs' (Ht & [HL HI] & Hfin)]]. exists evs.
    split; [exact Ht|]. cbn [List.app] in HI.
    intros p Hp. apply live_In in Hp. apply In_nth_error in Hp as [i Hi].
    destruct (HI i p Hi) as [g [Hg Hok]].
    destruct (Hfin i g Hg) as [->|St].
    + destruct Hok as (A & B & L). split; [exact A|]. split; [|exact L].
      intros Hs Hw. destruct B as [B|[B _]]; [contradiction | exact B].
    + destruct g as [q|q|]; simpl in St; try contradiction.
      destruct Hok as (-> & A & B). split; [exact A|]. split.
      * intros _ Hw. contradiction.
      * unfold lastLine. rewrite B, St. discriminate.
  - rewrite launch_live. split; [apply length_map|].
    intros i p Hp. exists (at_Signal p). split; [|reflexivity].
    rewrite nth_error_map, Hp. reflexivity.
  - now rewrite unfinished_launch.
  - unfold fair in Hf. rewrite forallb_forall in Hf.
    rewrite launch_live. intros i g Hg. right.
    rewrite nth_error_map in Hg.
    destruct (nth_error (live workers) i) as [p|] eqn:Ep; [|discriminate].
    injection Hg as <-.
    assert (Hi : i < length (live workers)) by (apply nth_error_Some; congruence).
    specialize (Hf i). rewrite in_seq in Hf.
    apply Nat.leb_le. apply Hf. lia.
Qed.

Lemma sendSignalToWorkers_live os sig workers schedule st :
  waitsReturn os sig workers = true ->
  fair (length (live workers)) schedule = true ->
  exists st', sendSignalToWorkers os workers sig schedule st = (Value tt, st').
Proof.
  unfold waitsReturn, fair, sendSignalToWorkers. intros Hw Hf.
  rewrite forallb_forall in Hw, Hf.
  apply waitGroup_live; [now rewrite unfinished_launch|].
  rewrite launch_live. intros i g Hg.
  rewrite nth_error_map in Hg.
  destruct (nth_error (live workers) i) as [p|] eqn:Ep; [|discriminate].
  injection Hg as <-. split.
  - simpl. intros Hs. specialize (Hw p (nth_error_In _ _ Ep)).
    rewrite Hs in Hw. destruct (Wait_for os (Pid p)); [discriminate | discriminate].
  - assert (Hi : i < length (live workers)) by (apply nth_error_Some; congruence).
    specialize (Hf i). rewrite in_seq in Hf.
    apply Nat.leb_le. apply Hf. lia.
Qed.

(** ** The signal loop of the main process *)

Lemma signalLoop_SIGUSR2 names os pkg sigChan workers schedule st :
  signalLoop names os pkg (SIGUSR2 :: sigChan) workers schedule st =
  signalLoop names os pkg sigChan workers schedule (afterUpgrade names os pkg st).
Proof.
  cbn [signalLoop]. unfold afterUpgrade, upgradeEvents, callHook.
  destruct (OnSIGUSR2 pkg) as [h|]; run; rewrite forkProcess_run; cbn [trace started];
    destruct (forkResult names os (started st) (upgradeEnvValues names pkg)); run;
    rewrite <- ?app_assoc; reflexivity.
Qed.

Lemma signalLoop_terminating names os pkg sig sigChan workers schedule st :
  terminating sig = true ->
  signalLoop names os pkg (sig :: sigChan) workers schedule st =
  (sendSignalToWorkers os workers sig schedule ;;; ret (signalReceived sig))
    {| trace := trace st ++
                [ Printf "Main process PID=%d recivied signal: %s\n"
                    [aInt (pid pkg); aSignal sig] ];
       started := started st |}.
Proof. destruct sig; intros H; try discriminate; reflexivity. Qed.

Lemma quiet_app a b : quiet a -> quiet b -> quiet (a ++ b).
Proof. intros; apply Forall_app; split; assumption. Qed.

Lemma quiet_forkEvents names os envValues : quiet (forkEvents names os envValues).
Proof.
  unfold quiet, forkEvents. destruct (located os) as [[f d]|]; repeat constructor.
Qed.

Lemma quiet_upgradeEvents names os pkg n : quiet (upgradeEvents names os pkg n).
Proof.
  unfold upgradeEvents.
  apply quiet_app; [repeat constructor|].
  apply quiet_app; [destruct (OnSIGUSR2 pkg); repeat constructor|].
  apply quiet_app; [repeat constructor|].
  apply quiet_app; [apply quiet_forkEvents|].
  destruct (forkResult names os n (upgradeEnvValues names pkg)); repeat constructor.
Qed.

Lemma quiet_spawnEvents names os pkg n0 l :
  quiet (flat_map (spawnEvents names os pkg n0) l).
Proof.
  induction l as [|i l IH]; [constructor|]. cbn [flat_map].
  apply quiet_app; [|exact IH].
  unfold spawnEvents. apply quiet_app; [apply quiet_forkEvents|].
  destruct (spawned names os pkg n0 i); repeat constructor.
Qed.

Lemma quiet_retireEvents names os : quiet (retireEvents names os).
Proof.
  unfold retireEvents. cbv zeta.
  destruct (String.eqb _ ""); repeat constructor.
Qed.

Lemma signalLoop_reaches names os pkg sig : forall sigChan st,
  find terminating sigChan = Some sig ->
  exists pre n1,
    quiet pre /\
    forall workers schedule,
      signalLoop names os pkg sigChan workers schedule st =
      (sendSignalToWorkers os workers sig schedule ;;; ret (signalReceived sig))
        {| trace := trace st ++ pre; started := n1 |}.
Proof.
  induction sigChan as [|s sigChan IH]; intros st H; [discriminate|].
  cbn [find] in H. destruct (terminating s) eqn:T.
  - injection H as ->.
    eexists; eexists; split; [|intros; now apply signalLoop_terminating].
    repeat constructor.
  - destruct s; try discriminate.
    destruct (IH (afterUpgrade names os pkg st) H) as [pre [n1 [Q E]]].
    exists (upgradeEvents names os pkg (started st) ++ pre), n1. split.
    + apply quiet_app; [apply quiet_upgradeEvents | exact Q].
    + intros. rewrite signalLoop_SIGUSR2, E. unfold afterUpgrade; cbn [trace].
      now rewrite <- app_assoc.
Qed.

Lemma retire_run names os st :
  (let prevMainPIDStr := env.Getenv (Environ os) (envPrevPPID names) in
   if String.eqb prevMainPIDStr "" then ret tt
   else emit (go (go_terminatePrevMain prevMainPIDStr))) st
  = (Value tt, {| trace := trace st ++ retireEvents names os; started := started st |}).
Proof.
  unfold retireEvents. cbv zeta.
  destruct (String.eqb _ ""); run; [|reflexivity].
  rewrite app_nil_r. now destruct st.
Qed.

Lemma StartMainProcess_reaches names os pkg sig sigChan st :
  find terminating sigChan = Some sig ->
  exists pre n1,
    quiet pre /\
    forall schedule,
      StartMainProcess names os pkg sigChan schedule st =
      (sendSignalToWorkers os (pool names os pkg (started st)) sig schedule ;;;
       ret (signalReceived sig))
        {| trace := trace st ++ pre; started := n1 |}.
Proof.
  intros H.
  set (line := Printf "Main process PID=%d, starting up a pack..\n" [aInt (pid pkg)]).
  set (st0 := {| trace := trace st ++ [line]; started := started st |}).
  destruct (pool_then_loop names os pkg st0) as [st1 (T & A)].
  set (st2 := {| trace := trace st1 ++ retireEvents names os; started := started st1 |}).
  destruct (signalLoop_reaches names os pkg sig sigChan st2 H) as [pre [n1 [Q E]]].
  exists ([line]
          ++ flat_map (spawnEvents names os pkg (started st)) (seq 0 (NumCPU os))
          ++ retireEvents names os ++ pre), n1.
  split.
  - apply quiet_app; [repeat constructor|].
    apply quiet_app; [apply quiet_spawnEvents|].
    apply quiet_app; [apply quiet_retireEvents | exact Q].
  - intros schedule. unfold StartMainProcess. unfold bind at 1. unfold emit.
    fold line. fold st0. rewrite A. unfold afterPool. unfold bind at 1.
    rewrite retire_run. fold st2. unfold pool. change (started st) with (started st0).
    rewrite E. subst st2. cbn [trace]. rewrite T. subst st0. cbn [trace started].
    rewrite <- !app_assoc. reflexivity.
Qed.

Lemma signalReceived_injective sig sig' :
  signalReceived sig' = signalReceived sig -> sig' = sig.
Proof. destruct sig, sig'; intros H; try reflexivity; discriminate. Qed.

Lemma quiet_no_signal pre pid s : quiet pre -> ~ In (Process_Signal pid s) pre.
Proof.
  intros Q H. unfold quiet in Q. rewrite Forall_forall in Q.
  specialize (Q _ H). discriminate.
Qed.

(** C2.  Let [sig] be the first terminating signal the main process
    receives and [workers] the pool it built.  Whatever the scheduler does:
    [StartMainProcess] never panics; the only signals it sends are [sig],
    to workers of the pool; and if it returns, it returns the error
    [signal received: sig], which names the signal, after every non-nil
    worker was sent [sig] and every worker that took the signal was waited
    for, its [Wait] having returned.  By then a failure to signal a worker
    has been logged with the signal, the worker's PID and the error, and so
    has a failure to wait for it; the state of a worker that exited has
    been logged too.  Such a failure holds nothing up: when the [Wait] of
    every worker that took the signal returns and the scheduler picks every
    goroutine twice at least, [StartMainProcess] does return.  Nor does a
    worker hold up the others: under such a schedule every worker of the
    pool is signalled, every failure is logged and every [Wait] that can
    return is made, also when the call itself is kept waiting by a worker
    that never exits. *)
Theorem shutdown_fan_out names os pkg sigChan sig st :
  find terminating sigChan = Some sig ->
  let workers := pool names os pkg (started st) in
  (forall schedule r st',
     StartMainProcess names os pkg sigChan schedule st = (r, st') ->
     let evs := added (StartMainProcess names os pkg sigChan schedule) st in
     (forall pid s, In (Process_Signal pid s) evs ->
        s = sig /\ exists p, In (Some p) workers /\ Pid p = pid) /\
     match r with
     | Value e =>
         e = signalReceived sig /\
         forall p, In (Some p) workers ->
           In (Process_Signal (Pid p) sig) evs /\
           (Signal_to os (Pid p) sig <> None \/
            (In (Process_Wait (Pid p)) evs /\ Wait_for os (Pid p) <> None)) /\
           (forall err, Signal_to os (Pid p) sig = Some err ->
              In (Printf "Could not send signal %s to worker process PID=%d. Error: %s\n"
                    [aSignal sig; aInt (Pid p); aError err]) evs) /\
           (forall err,
              Signal_to os (Pid p) sig = None -> Wait_for os (Pid p) = Some (Err err) ->
              In (Printf "Waiting failed after sending signal %s to worker process PID=%d. Error: %s\n"
                    [aSignal sig; aInt (Pid p); aError err]) evs) /\
           (forall pState,
              Signal_to os (Pid p) sig = None -> Wait_for os (Pid p) = Some (Ok pState) ->
              In (Printf "Worker process PID=%d exited with status: %s\n"
                    [aInt (Pid p); aString pState]) evs)
     | Panic _ => False
     | Blocked => True
     end) /\
  (forall schedule,
     waitsReturn os sig workers = true ->
     fair (length (live workers)) schedule = true ->
     exists st',
       StartMainProcess names os pkg sigChan schedule st =
         (Value (signalReceived sig), st')) /\
  (forall schedule p,
     In (Some p) workers ->
     Signal_to os (Pid p) sig = None -> Wait_for os (Pid p) = None ->
     fst (StartMainProcess names os pkg sigChan schedule st) = Blocked) /\
  (forall schedule p,
     fair (length (live workers)) schedule = true ->
     In (Some p) workers ->
     let evs := added (StartMainProcess names os pkg sigChan schedule) st in
     In (Process_Signal (Pid p) sig) evs /\
     (forall err, Signal_to os (Pid p) sig = Some err ->
        In (Printf "Could not send signal %s to worker process PID=%d. Error: %s\n"
              [aSignal sig; aInt (Pid p); aError err]) evs) /\
     (Signal_to os (Pid p) sig = None -> Wait_for os (Pid p) <> None ->
      In (Process_Wait (Pid p)) evs) /\
     (forall err,
        Signal_to os (Pid p) sig = None -> Wait_for os (Pid p) = Some (Err err) ->
        In (Printf "Waiting failed after sending signal %s to worker process PID=%d. Error: %s\n"
              [aSignal sig; aInt (Pid p); aError err]) evs)) /\
  (forall sig', signalReceived sig' = signalReceived sig -> sig' = sig).
Proof.
  intros H workers.
  destruct (StartMainProcess_reaches names os pkg sig sigChan st H) as [pre [n1 [Q E]]].
  fold workers in E.
  assert (Safe : forall schedule r st',
     StartMainProcess names os pkg sigChan schedule st = (r, st') ->
     let evs := added (StartMainProcess names os pkg sigChan schedule) st in
     (forall pid s, In (Process_Signal pid s) evs ->
        s = sig /\ exists p, In (Some p) workers /\ Pid p = pid) /\
     match r with
     | Value e =>
         e = signalReceived sig /\
         forall p, In (Some p) workers ->
           In (Process_Signal (Pid p) sig) evs /\
           (Signal_to os (Pid p) sig <> None \/
            (In (Process_Wait (Pid p)) evs /\ Wait_for os (Pid p) <> None)) /\
           (forall line, lastLine os sig p = Some line -> In line evs)
     | Panic _ => False
     | Blocked => True
     end).
  2: { split; [|split; [|split; [|split]]].
       - intros schedule r st' R evs.
         destruct (Safe schedule r st' R) as [A B]. split; [exact A|].
         destruct r as [e|v|]; [|contradiction|exact I].
         destruct B as [B1 B2]. split; [exact B1|].
         intros p Hp. destruct (B2 p Hp) as (S1 & S2 & L).
         split; [exact S1|]. split; [exact S2|].
         unfold lastLine in L. split; [|split].
         + intros err Hs. apply L. now rewrite Hs.
         + intros err Hs Hw. apply L. now rewrite Hs, Hw.
         + intros pState Hs Hw. apply L. now rewrite Hs, Hw.
       - intros schedule Hw Hf.
         destruct (sendSignalToWorkers_live os sig workers schedule
                     {| trace := trace st ++ pre; started := n1 |} Hw Hf) as [st' S].
         exists st'. rewrite E. unfold bind. rewrite S. reflexivity.
       - intros schedule p Hp Hs Hw.
         destruct (StartMainProcess names os pkg sigChan schedule st) as [r st'] eqn:R.
         destruct (Safe schedule r st' R) as [_ C].
         destruct r as [e|v|]; [|contradiction|reflexivity].
         destruct C as [_ C]. destruct (C p Hp) as (_ & [B|[_ B]] & _); contradiction.
       - intros schedule p Hf Hp evs.
         destruct (sendSignalToWorkers_fair os sig workers schedule
                     {| trace := trace st ++ pre; started := n1 |} Hf)
           as [fan [Ht Hall]].
         cbn [trace] in Ht.
         assert (Ev : evs = pre ++ fan).
         { subst evs. apply added_app. rewrite E. unfold bind.
           destruct (sendSignalToWorkers os workers sig schedule
                       {| trace := trace st ++ pre; started := n1 |}) as [r0 st0].
           cbn [snd] in Ht.
           destruct r0; cbn [snd ret]; rewrite Ht, <- app_assoc; reflexivity. }
         destruct (Hall p Hp) as (S1 & S2 & L). rewrite Ev.
         unfold lastLine in L.
         split; [apply in_or_app; auto|]. split; [|split].
         + intros err Hs. apply in_or_app; right. apply L. now rewrite Hs.
         + intros Hs Hw. apply in_or_app; right. now apply S2.
         + intros err Hs Hw. apply in_or_app; right. apply L. now rewrite Hs, Hw.
       - apply signalReceived_injective. }
  - intros schedule r st' R evs.
    rewrite E in R. unfold bind in R.
    destruct (sendSignalToWorkers os workers sig schedule
                {| trace := trace st ++ pre; started := n1 |}) as [r0 st0] eqn:S.
    destruct (sendSignalToWorkers_safe _ _ _ _ _ _ _ S) as [evs0 (Ht & _ & Hs & Hr)].
    cbn [trace] in Ht.
    assert (Ev : evs = pre ++ evs0).
    { subst evs. apply added_app. rewrite E. unfold bind. rewrite S.
      destruct r0; cbn [snd ret]; rewrite Ht, <- app_assoc; reflexivity. }
    split.
    + intros pid s Hin. rewrite Ev in Hin. apply in_app_or in Hin as [Hin|Hin].
      * now apply quiet_no_signal in Hin.
      * now apply Hs.
    + destruct r0 as [[]|v|]; cbn [ret] in R; injection R as <- <-;
        [|contradiction|exact I].
      split; [reflexivity|].
      intros p Hp. destruct (Hr p Hp) as (A & B & L). rewrite Ev. split; [|split].
      * apply in_or_app; auto.
      * destruct B as [B|[B C]]; [left; exact B | right; split; [|exact C]].
        apply in_or_app; auto.
      * intros line Hl. apply in_or_app; auto.
Qed.

Lemma shutdown_fan_out_witness :
  let main := StartMainProcess gopherpackNames Sample.os Sample.supervisor
                [SIGUSR2; SIGTERM] (Sample.roundRobin 3) in
  (exists st', main initial = (Value (signalReceived SIGTERM), st')) /\
  In (Printf "Could not send signal %s to worker process PID=%d. Error: %s\n"
        [aSignal SIGTERM; aInt 1003; aError Sample.ErrProcessDone])
     (added main initial) /\
  In (Printf "Waiting failed after sending signal %s to worker process PID=%d. Error: %s\n"
        [aSignal SIGTERM; aInt 1000; aError Sample.ESRCH])
     (added main initial).
Proof.
  destruct (shutdown_fan_out gopherpackNames Sample.os Sample.supervisor
              [SIGUSR2; SIGTERM] SIGTERM initial eq_refl) as (_ & L & _ & F & _).
  split; [apply L; reflexivity|]. split.
  - refine (proj1 (proj2 (F (Sample.roundRobin 3) {| Pid := 1003 |} eq_refl _))
              Sample.ErrProcessDone eq_refl).
    right; right; right; left; reflexivity.
  - refine (proj2 (proj2 (proj2 (F (Sample.roundRobin 3) {| Pid := 1000 |} eq_refl _)))
              Sample.ESRCH eq_refl eq_refl).
    left; reflexivity.
Defined.

(** ** Upgrading the executable *)

Lemma instants_lower tr : forall now latency t e,
  In (t, e) (instants now latency tr) -> (now <= t)%N.
Proof.
  induction tr as [|x tr IH]; intros now latency t e H; [contradiction|].
  cbn [instants] in H. destruct H as [H|H].
  - injection H as <- _. lia.
  - apply IH in H. lia.
Qed.

Lemma terminatePrevMain_run os pkg prevMainPIDStr st :
  terminatePrevMain os pkg prevMainPIDStr st =
  (Value tt,
   {| trace := trace st ++ time_Sleep prevMainProcessGraceInterval
                           :: retireSteps os pkg prevMainPIDStr;
      started := started st |}).
Proof.
  unfold terminatePrevMain, retireSteps.
  destruct (strconv.Atoi prevMainPIDStr) as [prev|err]; run;
    [|now rewrite <- app_assoc].
  destruct (FindProcess os prev) as [proc|err]; run; [|now rewrite <- app_assoc].
  destruct (Signal_to os (Pid proc) SIGTERM); run; now rewrite <- !app_assoc.
Qed.

Lemma signalLoop_only_upgrades names os pkg workers schedule : forall sigChan st,
  find terminating sigChan = None ->
  fst (signalLoop names os pkg sigChan workers schedule st) = Blocked.
Proof.
  induction sigChan as [|s sigChan IH]; intros st H; [reflexivity|].
  cbn [find] in H. destruct s; try discriminate.
  rewrite signalLoop_SIGUSR2. now apply IH.
Qed.

Lemma upgrade_fork_calls names os pkg n :
  filter is_fork_call (upgradeEvents names os pkg n) =
  [Call_forkProcess [fmt.Sprintf_s_eq_d (envPrevPPID names) (pid pkg)]].
Proof.
  unfold upgradeEvents, forkEvents. rewrite !filter_app.
  destruct (OnSIGUSR2 pkg), (located os) as [[f d]|],
    (forkResult names os n (upgradeEnvValues names pkg)); reflexivity.
Qed.

Lemma upgrade_start_process names os pkg n :
  filter is_start_process (upgradeEvents names os pkg n) =
  match located os with
  | Ok (filePath, dir) =>
      [ os_StartProcess filePath (Args os) dir
          (filter (fun v => negb (strings.HasPrefix v (envPrefix names))) (Environ os)
           ++ [fmt.Sprintf_s_eq_d (envPrevPPID names) (pid pkg)]) ]
  | Err _ => []
  end.
Proof.
  unfold upgradeEvents, forkEvents. rewrite !filter_app.
  rewrite childEnv_filter.
  destruct (OnSIGUSR2 pkg), (located os) as [[f d]|],
    (forkResult names os n (upgradeEnvValues names pkg)); reflexivity.
Qed.

Lemma instants_In tr : forall now latency t e,
  In (t, e) (instants now latency tr) -> In e tr.
Proof.
  induction tr as [|x tr IH]; intros now latency t e H; [contradiction|].
  cbn [instants] in H. destruct H as [H|H].
  - injection H as _ <-. now left.
  - right. eapply IH; eauto.
Qed.

Lemma signalLoop_extends names os pkg workers schedule : forall sigChan st,
  exists evs,
    trace (snd (signalLoop names os pkg sigChan workers schedule st)) = trace st ++ evs.
Proof.
  induction sigChan as [|s sigChan IH]; intros st.
  - exists []. now rewrite app_nil_r.
  - destruct (terminating s) eqn:T.
    + rewrite (signalLoop_terminating names os pkg s sigChan workers schedule st T).
      unfold bind.
      destruct (sendSignalToWorkers os workers s schedule _) as [r0 st0] eqn:S.
      destruct (sendSignalToWorkers_safe _ _ _ _ _ _ _ S) as [evs0 (Ht & _)].
      cbn [trace] in Ht.
      eexists. destruct r0; cbn [snd ret]; rewrite Ht, <- app_assoc; reflexivity.
    + destruct s; try discriminate. rewrite signalLoop_SIGUSR2.
      destruct (IH (afterUpgrade names os pkg st)) as [evs E].
      eexists. rewrite E. unfold afterUpgrade; cbn [trace].
      rewrite <- app_assoc. reflexivity.
Qed.

Lemma StartMainProcess_retires names os pkg sigChan schedule st :
  exists before after,
    added (StartMainProcess names os pkg sigChan schedule) st =
      before ++ retireEvents names os ++ after /\
    quiet before.
Proof.
  set (line := Printf "Main process PID=%d, starting up a pack..\n" [aInt (pid pkg)]).
  set (st0 := {| trace := trace st ++ [line]; started := started st |}).
  destruct (pool_then_loop names os pkg st0) as [st1 (T & A)].
  set (st2 := {| trace := trace st1 ++ retireEvents names os; started := started st1 |}).
  destruct (signalLoop_extends names os pkg
              (map (fun i => slot (spawned names os pkg (started st0) i))
                   (seq 0 (NumCPU os)))
              schedule sigChan st2) as [evs E].
  exists ([line] ++ flat_map (spawnEvents names os pkg (started st)) (seq 0 (NumCPU os))),
         evs.
  split.
  - apply added_app. unfold StartMainProcess. unfold bind at 1. unfold emit.
    fold line. fold st0. rewrite A. unfold afterPool. unfold bind at 1.
    rewrite retire_run. fold st2. rewrite E. subst st2. cbn [trace]. rewrite T.
    subst st0. cbn [trace started]. rewrite <- !app_assoc. reflexivity.
  - apply quiet_app; [repeat constructor | apply quiet_spawnEvents].
Qed.

(** What [%d] prints is read back by [strconv.Atoi], and a child finds the
    values it was given. *)

Lemma digits_string_of_uint u : forall acc,
  strconv.digits (NilEmpty.string_of_uint u) acc = Some (uval u acc).
Proof.
  induction u; intros acc; cbn [NilEmpty.string_of_uint strconv.digits uval];
    try reflexivity; apply IHu.
Qed.

Lemma of_uint_acc_uval u : forall acc,
  Z.pos (Pos.of_uint_acc u acc) = uval u (Z.pos acc).
Proof.
  induction u; intros acc; cbn [Pos.of_uint_acc uval]; try reflexivity;
    rewrite IHu; f_equal; lia.
Qed.

Lemma of_uint_uval u : Z.of_N (Pos.of_uint u) = uval u 0.
Proof.
  induction u; cbn [Pos.of_uint uval]; try reflexivity; try exact IHu;
    cbn [Z.of_N]; rewrite of_uint_acc_uval; reflexivity.
Qed.

Lemma uval_to_uint p : uval (Pos.to_uint p) 0 = Z.pos p.
Proof.
  rewrite <- of_uint_uval, DecimalPos.Unsigned.of_to. reflexivity.
Qed.

Lemma Atoi_digits s n :
  match s with
  | String c _ => c <> "-"%char /\ c <> "+"%char
  | EmptyString => False
  end ->
  strconv.digits s 0 = Some n ->
  (strconv.minInt <= n <= strconv.maxInt)%Z ->
  strconv.Atoi s = Ok n.
Proof.
  intros Hc Hd Hr. destruct s as [|c s]; [contradiction|]. destruct Hc as [Hm Hp].
  unfold strconv.Atoi.
  assert (B : match String c s with
              | String "-" rest => (true, rest)
              | String "+" rest => (false, rest)
              | _ => (false, String c s)
              end = (false, String c s)).
  { destruct c as [[] [] [] [] [] [] [] []]; try reflexivity; congruence. }
  rewrite B. cbn [fst snd]. rewrite Hd.
  destruct (Z.leb_spec strconv.minInt n), (Z.leb_spec n strconv.maxInt);
    try lia; reflexivity.
Qed.

Lemma Atoi_minus s n :
  s <> "" ->
  strconv.digits s 0 = Some n ->
  (strconv.minInt <= - n <= strconv.maxInt)%Z ->
  strconv.Atoi (String "-" s) = Ok (- n)%Z.
Proof.
  intros Hs Hd Hr. unfold strconv.Atoi. cbn [fst snd].
  destruct s as [|c s]; [congruence|]. rewrite Hd.
  destruct (Z.leb_spec strconv.minInt (- n)), (Z.leb_spec (- n) strconv.maxInt);
    try lia; reflexivity.
Qed.

Lemma string_of_uint_head p :
  match NilZero.string_of_uint (Pos.to_uint p) with
  | String c _ => c <> "-"%char /\ c <> "+"%char
  | EmptyString => False
  end /\
  NilZero.string_of_uint (Pos.to_uint p) = NilEmpty.string_of_uint (Pos.to_uint p).
Proof.
  pose proof (DecimalPos.Unsigned.to_uint_nonnil p) as N.
  destruct (Pos.to_uint p); [congruence| ..]; cbn; repeat split; discriminate.
Qed.

(** What [%d] prints, [strconv.Atoi] reads back. *)
Lemma Atoi_d z :
  (strconv.minInt <= z <= strconv.maxInt)%Z -> strconv.Atoi (fmt.d z) = Ok z.
Proof.
  intros Hr. unfold fmt.d. destruct z as [|p|p].
  - reflexivity.
  - cbn [Z.to_int NilZero.string_of_int].
    destruct (string_of_uint_head p) as [H E].
    apply Atoi_digits; [exact H | | exact Hr].
    rewrite E, digits_string_of_uint, uval_to_uint. reflexivity.
  - cbn [Z.to_int NilZero.string_of_int].
    destruct (string_of_uint_head p) as [H E].
    change (Z.neg p) with (- Z.pos p)%Z.
    apply Atoi_minus.
    + destruct (NilZero.string_of_uint (Pos.to_uint p)); [contradiction | discriminate].
    + rewrite E, digits_string_of_uint, uval_to_uint. reflexivity.
    + exact Hr.
Qed.

Lemma cut_name key v :
  hasEq key = false -> env.cut (key ++ "=" ++ v) = Some (key, v).
Proof.
  induction key as [|c key IH]; intros H; [reflexivity|].
  cbn [hasEq] in H. apply orb_false_iff in H as [Hc Hk].
  specialize (IH Hk). simpl in *. rewrite Hc, IH. reflexivity.
Qed.

Lemma Getenv_own_value key v rest :
  plainName key = true -> env.Getenv ((key ++ "=" ++ v)%string :: rest) key = v.
Proof.
  unfold plainName. intros H. apply andb_true_iff in H as [Hn He].
  apply negb_true_iff in Hn, He.
  unfold env.Getenv, env.LookupEnv. rewrite Hn. cbn [find].
  unfold env.hasKey. rewrite (cut_name key v He), String.eqb_refl.
  rewrite (cut_name key v He). reflexivity.
Qed.

Lemma d_not_empty z : fmt.d z <> "".
Proof.
  unfold fmt.d. destruct z as [|p|p]; cbn [Z.to_int NilZero.string_of_int].
  - discriminate.
  - destruct (string_of_uint_head p) as [H _].
    destruct (NilZero.string_of_uint (Pos.to_uint p)); [contradiction | discriminate].
  - discriminate.
Qed.

(** The successor reads the identity of the process that started it. *)
Lemma successor_reads_predecessor names os pkg :
  plainName (envPrevPPID names) = true ->
  strings.HasPrefix (envPrevPPID names) (envPrefix names) = true ->
  env.Getenv (childEnv names os (upgradeEnvValues names pkg)) (envPrevPPID names)
    = fmt.d (pid pkg).
Proof.
  intros Hn Hp. unfold env.Getenv.
  rewrite (childEnv_Lookup names os _ _ Hp).
  apply (Getenv_own_value _ (fmt.d (pid pkg)) [] Hn).
Qed.

Lemma Getenv_other_value key' v' key rest :
  hasEq key' = false -> key' <> key ->
  env.Getenv ((key' ++ "=" ++ v')%string :: rest) key = env.Getenv rest key.
Proof.
  intros He Hne. unfold env.Getenv, env.LookupEnv.
  destruct (String.eqb key ""); [reflexivity|]. cbn [find].
  unfold env.hasKey at 1. rewrite (cut_name key' v' He).
  destruct (String.eqb_spec key' key); [contradiction | reflexivity].
Qed.

(** A worker started for core [i] finds the identity of the main process,
    which makes it a worker, and reads [i] back as its core. *)
Lemma worker_reads_handshake names os pkg i getpid :
  plainName (envPPID names) = true ->
  plainName (envCPUCore names) = true ->
  envPPID names <> envCPUCore names ->
  strings.HasPrefix (envPPID names) (envPrefix names) = true ->
  strings.HasPrefix (envCPUCore names) (envPrefix names) = true ->
  (Z.of_nat i <= strconv.maxInt)%Z ->
  let child := start names getpid (childEnv names os (workerEnvVals names pkg i)) in
  detectRole child = Worker /\
  strconv.Atoi (workerCpuCore (package child)) = Ok (Z.of_nat i).
Proof.
  intros Hp Hc Hne Pp Pc Hi child.
  assert (Ep : env.Getenv (childEnv names os (workerEnvVals names pkg i)) (envPPID names)
               = fmt.d (pid pkg)).
  { unfold env.Getenv. rewrite (childEnv_Lookup names os _ _ Pp).
    apply (Getenv_own_value _ (fmt.d (pid pkg)) _ Hp). }
  assert (Ec : env.Getenv (childEnv names os (workerEnvVals names pkg i)) (envCPUCore names)
               = fmt.d (Z.of_nat i)).
  { unfold env.Getenv. rewrite (childEnv_Lookup names os _ _ Pc).
    unfold workerEnvVals, fmt.Sprintf_s_eq_d.
    fold (env.Getenv ((envPPID names ++ "=" ++ fmt.d (pid pkg))%string
                      :: [(envCPUCore names ++ "=" ++ fmt.d (Z.of_nat i))%string])
                     (envCPUCore names)).
    rewrite Getenv_other_value; [apply (Getenv_own_value _ _ [] Hc) | | exact Hne].
    unfold plainName in Hp. apply andb_true_iff in Hp as [_ Hp].
    now apply negb_true_iff in Hp. }
  split.
  - apply detectRole_Worker. rewrite Ep. apply d_not_empty.
  - subst child. cbn [start package init workerCpuCore]. rewrite Ec.
    apply Atoi_d. unfold strconv.minInt. split; [lia | exact Hi].
Qed.

(** C3.  In the main process, a turn of the loop on [SIGUSR2] calls the
    hook if it is set, calls [forkProcess] exactly once, with the single
    value [envPrevPPID=pid], so that the one process it starts, if the
    binary and the directory resolve, gets the sanitized environment
    followed by that value, logs the outcome and stays in the loop with the
    same pool; a channel that only delivers [SIGUSR2] never ends the loop.
    In a main process that finds a non-empty [envPrevPPID], one goroutine is
    started before the signal loop; it sleeps for the grace interval of
    five seconds first, so that, every call taking its duration at the
    least, the only signal it sends, [SIGTERM] to the process found for the
    number read from the variable, is sent no sooner than five seconds
    after the goroutine, and hence the process, started; an unreadable
    number, a process that is not found and a signal that fails are each
    logged and nothing more, the goroutine ending normally.  When the name
    [envPrevPPID] is well formed and carries the package's prefix, the
    process started on [SIGUSR2] reads back the identity of the process that
    started it, and it is to this process that it sends [SIGTERM]. *)
Theorem upgrade_protocol names os pkg :
  (forall sigChan workers schedule st,
     signalLoop names os pkg (SIGUSR2 :: sigChan) workers schedule st =
     signalLoop names os pkg sigChan workers schedule (afterUpgrade names os pkg st)) /\
  (forall n,
     filter is_fork_call (upgradeEvents names os pkg n) =
       [Call_forkProcess [fmt.Sprintf_s_eq_d (envPrevPPID names) (pid pkg)]] /\
     filter is_start_process (upgradeEvents names os pkg n) =
       match located os with
       | Ok (filePath, dir) =>
           [ os_StartProcess filePath (Args os) dir
               (filter (fun v => negb (strings.HasPrefix v (envPrefix names)))
                       (Environ os)
                ++ [fmt.Sprintf_s_eq_d (envPrevPPID names) (pid pkg)]) ]
       | Err _ => []
       end) /\
  (forall sigChan workers schedule st,
     find terminating sigChan = None ->
     fst (signalLoop names os pkg sigChan workers schedule st) = Blocked) /\
  (forall prevMainPIDStr,
     env.Getenv (Environ os) (envPrevPPID names) = prevMainPIDStr ->
     prevMainPIDStr <> "" ->
     (forall sigChan schedule st,
        exists before after,
          added (StartMainProcess names os pkg sigChan schedule) st =
            before ++ [go (go_terminatePrevMain prevMainPIDStr)] ++ after /\
          quiet before) /\
     (forall st, fst (terminatePrevMain os pkg prevMainPIDStr st) = Value tt) /\
     events (terminatePrevMain os pkg prevMainPIDStr) =
       time_Sleep prevMainProcessGraceInterval :: retireSteps os pkg prevMainPIDStr /\
     prevMainProcessGraceInterval = 5000000000%N /\
     (forall start now latency t p sg,
        (start <= now)%N ->
        In (t, Process_Signal p sg)
           (instants now latency (events (terminatePrevMain os pkg prevMainPIDStr))) ->
        (start + 5000000000 <= t)%N /\ sg = SIGTERM /\
        exists prevMainPID prevProcess,
          strconv.Atoi prevMainPIDStr = Ok prevMainPID /\
          FindProcess os prevMainPID = Ok prevProcess /\
          Pid prevProcess = p) /\
     (forall err, strconv.Atoi prevMainPIDStr = Err err ->
        filter is_process_call (retireSteps os pkg prevMainPIDStr) = []) /\
     (forall prevMainPID err,
        strconv.Atoi prevMainPIDStr = Ok prevMainPID ->
        FindProcess os prevMainPID = Err err ->
        filter is_process_call (retireSteps os pkg prevMainPIDStr) = [])) /\
  (plainName (envPrevPPID names) = true ->
   strings.HasPrefix (envPrevPPID names) (envPrefix names) = true ->
   (strconv.minInt <= pid pkg <= strconv.maxInt)%Z ->
   forall os' pkg',
     Environ os' = childEnv names os (upgradeEnvValues names pkg) ->
     retireEvents names os' = [go (go_terminatePrevMain (fmt.d (pid pkg)))] /\
     forall prevProcess,
       FindProcess os' (pid pkg) = Ok prevProcess ->
       In (Process_Signal (Pid prevProcess) SIGTERM)
          (retireSteps os' pkg' (fmt.d (pid pkg)))).
Proof.
  split; [apply signalLoop_SIGUSR2|].
  split; [intros n; split; [apply upgrade_fork_calls | apply upgrade_start_process]|].
  split; [intros; now apply signalLoop_only_upgrades|].
  split.
  2: { intros Hn Hp Hr os' pkg' He. split.
       - unfold retireEvents. cbv zeta.
         rewrite He, (successor_reads_predecessor names os pkg Hn Hp).
         destruct (String.eqb_spec (fmt.d (pid pkg)) ""); [|reflexivity].
         now elim (d_not_empty (pid pkg)).
       - intros prevProcess Hf. unfold retireSteps.
         rewrite (Atoi_d _ Hr), Hf. now left. }
  intros s Hs Hne.
  assert (Ev : events (terminatePrevMain os pkg s) =
               time_Sleep prevMainProcessGraceInterval :: retireSteps os pkg s).
  { unfold events. rewrite terminatePrevMain_run. reflexivity. }
  split; [|split; [|split; [exact Ev|split; [reflexivity|split; [|split]]]]].
  - intros sigChan schedule st.
    destruct (StartMainProcess_retires names os pkg sigChan schedule st)
      as [before [after [E Q]]].
    exists before, after. split; [|exact Q].
    rewrite E. unfold retireEvents. cbv zeta. rewrite Hs.
    destruct (String.eqb_spec s ""); [contradiction | reflexivity].
  - intros st. now rewrite terminatePrevMain_run.
  - intros start now latency t p sg Hle Hin. rewrite Ev in Hin.
    cbn [instants duration] in Hin. destruct Hin as [Hin|Hin]; [discriminate|].
    pose proof (instants_lower _ _ _ _ _ Hin) as Ht.
    apply instants_In in Hin.
    split; [unfold prevMainProcessGraceInterval, Second in Ht; lia|].
    unfold retireSteps in Hin.
    destruct (strconv.Atoi s) as [prev|err] eqn:Ea;
      [|destruct Hin as [Hin|[]]; discriminate].
    destruct (FindProcess os prev) as [proc|err] eqn:Ef;
      [|destruct Hin as [Hin|[]]; discriminate].
    destruct Hin as [Hin|Hin].
    + injection Hin as <- <-. split; [reflexivity|].
      exists prev, proc. repeat split; assumption.
    + destruct (Signal_to os (Pid proc) SIGTERM); [|contradiction].
      destruct Hin as [Hin|[]]; discriminate.
  - intros err Ha. unfold retireSteps. now rewrite Ha.
  - intros prev err Ha Hf. unfold retireSteps. now rewrite Ha, Hf.
Qed.

Lemma upgrade_protocol_witness :
  (1000 + 5000000000 <= 5000001007)%N /\ SIGTERM = SIGTERM /\
  exists prevMainPID prevProcess,
    strconv.Atoi "41" = Ok prevMainPID /\
    FindProcess Sample.os prevMainPID = Ok prevProcess /\
    Pid prevProcess = 41%Z.
Proof.
  destruct (upgrade_protocol gopherpackNames Sample.os Sample.supervisor)
    as (_ & _ & _ & S & _).
  destruct (S "41" eq_refl) as (_ & _ & _ & _ & T & _).
  - discriminate.
  - apply (T 1000%N 1000%N [7; 3]%N 5000001007%N 41%Z SIGTERM).
    + apply N.le_refl.
    + vm_compute. right; left; reflexivity.
Defined.


(** * Further properties *)

(** ** Counting the calls of the fan-out *)

Lemma count_app f a b : count f (a ++ b) = count f a + count f b.
Proof. unfold count. now rewrite filter_app, length_app. Qed.

Lemma total_store (m : gstate -> nat) gs : forall i g g' gs',
  nth_error gs i = Some g -> store gs i g' = Some gs' ->
  total m gs + m g' = total m gs' + m g.
Proof.
  unfold total.
  induction gs as [|h gs IH]; intros i g g' gs' Hn Hs.
  - destruct i; discriminate.
  - destruct i as [|i]; simpl in *.
    + injection Hn as ->. injection Hs as <-. simpl. lia.
    + destruct (store gs i g') as [l|] eqn:E; [|discriminate].
      injection Hs as <-. simpl. specialize (IH i g g' l Hn E). lia.
Qed.

Lemma total_finished (m : gstate -> nat) gs :
  m finished = 0 -> unfinished gs = 0 -> total m gs = 0.
Proof.
  intros Hm. unfold total, unfinished.
  induction gs as [|h gs IH]; intros H; [reflexivity|].
  simpl in *. destruct h; simpl in H; try discriminate.
  rewrite Hm. now apply IH.
Qed.

Lemma Signal_eqb_refl sig : Signal_eqb sig sig = true.
Proof. now destruct sig. Qed.

Lemma gstep_counts os sig g g' evs :
  gstep os sig g = Some (g', evs) ->
  count is_signal_call evs + toSignal g' = toSignal g /\
  count is_wait_call evs + toWait os sig g' = toWait os sig g.
Proof.
  destruct g as [p|p|]; simpl; [| |discriminate].
  - destruct (Signal_to os (Pid p) sig) eqn:E; intros [= <- <-]; simpl;
      rewrite ?E; split; reflexivity.
  - destruct (Wait_for os (Pid p)) as [[?|?]|]; [| |discriminate];
      intros [= <- <-]; split; reflexivity.
Qed.

Lemma gstep_counts_of os sig q g g' evs :
  gstep os sig g = Some (g', evs) ->
  count (is_signal_to q sig) evs + toSignalOf q g' = toSignalOf q g /\
  count (is_wait_for q) evs + toWaitOf os sig q g' = toWaitOf os sig q g.
Proof.
  destruct g as [p|p|]; [| |discriminate]; cbn [gstep].
  - destruct (Signal_to os (Pid p) sig) eqn:E; intros [= <- <-];
      unfold count; cbn [filter is_signal_to is_wait_for toSignalOf toWaitOf];
      rewrite ?E, Signal_eqb_refl, Bool.andb_true_r;
      destruct (Z.eqb (Pid p) q); split; reflexivity.
  - destruct (Wait_for os (Pid p)) as [[?|?]|]; [| |discriminate];
      intros [= <- <-];
      unfold count; cbn [filter is_signal_to is_wait_for toSignalOf toWaitOf];
      destruct (Z.eqb (Pid p) q); split; reflexivity.
Qed.

(** What a measure on the goroutines loses is what the trace gains. *)
Lemma waitGroup_measure os sig (f : event -> bool) (m : gstate -> nat) :
  (forall g g' evs, gstep os sig g = Some (g', evs) -> count f evs + m g' = m g) ->
  forall schedule wg gs st r st',
    wg = unfinished gs ->
    waitGroup os sig schedule wg gs st = (r, st') ->
    exists evs gs',
      trace st' = trace st ++ evs /\
      count f evs + total m gs' = total m gs /\
      (forall a, r = Value a -> unfinished gs' = 0).
Proof.
  intros Step.
  induction schedule as [|i schedule IH]; intros wg gs st r st' Hwg H.
  - exists [], gs. rewrite app_nil_r.
    destruct wg; simpl in H; injection H as <- <-; repeat split; auto.
    intros a Ha; discriminate.
  - destruct wg as [|wg'].
    { simpl in H. injection H as <- <-. exists [], gs. rewrite app_nil_r.
      repeat split; auto. }
    cbn [waitGroup] in H.
    destruct (nth_error gs i) as [g|] eqn:En; [|eapply IH; eauto].
    destruct (gstep os sig g) as [[g' evs]|] eqn:Eg; [|eapply IH; eauto].
    destruct (store_nth gs i g g' En) as [gs1 [Es _]].
    rewrite Es in H. unfold bind in H. rewrite emitAll_run in H.
    pose proof (unfinished_store gs i g g' gs1 En (gstep_unfinished _ _ _ _ _ Eg) Es) as Hu.
    pose proof (Step _ _ _ Eg) as C.
    pose proof (total_store m gs i g g' gs1 En Es) as T.
    apply IH in H; [|destruct (is_finished g'); lia].
    destruct H as [evs' [gs' (Ht & Hm & Hz)]]. cbn [trace] in Ht.
    exists (evs ++ evs'), gs'. rewrite Ht, <- app_assoc, !count_app.
    repeat split; auto; lia.
Qed.

Lemma sendSignalToWorkers_measure os sig (f : event -> bool) (m : gstate -> nat)
    workers schedule st :
  (forall g g' evs, gstep os sig g = Some (g', evs) -> count f evs + m g' = m g) ->
  m finished = 0 ->
  let evs := added (sendSignalToWorkers os workers sig schedule) st in
  count f evs <= total m (launch workers) /\
  (fst (sendSignalToWorkers os workers sig schedule st) = Value tt ->
   count f evs = total m (launch workers)).
Proof.
  intros Step Fin evs.
  destruct (sendSignalToWorkers os workers sig schedule st) as [r st'] eqn:S.
  unfold sendSignalToWorkers in S.
  destruct (waitGroup_measure os sig f m Step _ _ _ _ _ _
              (eq_sym (unfinished_launch workers)) S)
    as [evs0 [gs' (Ht & Hm & Hz)]].
  assert (E : evs = evs0).
  { subst evs. apply added_app. unfold sendSignalToWorkers. now rewrite S. }
  rewrite E. split; [lia|].
  cbn [fst]. intros ->. specialize (Hz tt eq_refl).
  rewrite (total_finished m gs' Fin Hz) in Hm. lia.
Qed.

Lemma total_launch_signal workers :
  total toSignal (launch workers) = length (live workers).
Proof.
  rewrite launch_live. unfold total.
  induction (live workers) as [|p l IH]; simpl; [reflexivity | now rewrite IH].
Qed.

Lemma total_launch_wait os sig workers :
  total (toWait os sig) (launch workers) = length (takers os sig workers).
Proof.
  rewrite launch_live. unfold total, takers.
  induction (live workers) as [|p l IH]; simpl; [reflexivity|].
  destruct (Signal_to os (Pid p) sig); simpl; now rewrite IH.
Qed.

Lemma total_launch_signal_of q workers :
  total (toSignalOf q) (launch workers) = length (withPid q (live workers)).
Proof.
  rewrite launch_live. unfold total, withPid.
  induction (live workers) as [|p l IH]; simpl; [reflexivity|].
  destruct (Z.eqb (Pid p) q); simpl; now rewrite IH.
Qed.

Lemma total_launch_wait_of os sig q workers :
  total (toWaitOf os sig q) (launch workers)
  = length (withPid q (takers os sig workers)).
Proof.
  rewrite launch_live. unfold total, withPid, takers.
  induction (live workers) as [|p l IH]; simpl; [reflexivity|].
  destruct (Signal_to os (Pid p) sig); simpl;
    destruct (Z.eqb (Pid p) q); simpl; now rewrite IH.
Qed.

Lemma withPid_NoDup q ps : NoDup (map Pid ps) -> length (withPid q ps) <= 1.
Proof.
  unfold withPid. induction ps as [|p ps IH]; intros H; [simpl; lia|].
  inversion H as [|x l Hn Hd]; subst. cbn [filter].
  destruct (Z.eqb_spec (Pid p) q) as [E|E]; [|now apply IH].
  rewrite filter_none; [simpl; lia|].
  intros p' Hp'. apply Z.eqb_neq. intros E'. apply Hn.
  rewrite E, <- E'. now apply in_map.
Qed.

Lemma withPid_takers_le os sig q workers :
  length (withPid q (takers os sig workers)) <= length (withPid q (live workers)).
Proof.
  unfold withPid, takers.
  induction (live workers) as [|p l IH]; simpl; [lia|].
  destruct (Signal_to os (Pid p) sig); simpl;
    destruct (Z.eqb (Pid p) q); simpl; lia.
Qed.

Lemma withPid_takers_none os sig q workers :
  Signal_to os q sig <> None -> withPid q (takers os sig workers) = [].
Proof.
  intros H. unfold withPid, takers.
  induction (live workers) as [|p l IH]; simpl; [reflexivity|].
  destruct (Signal_to os (Pid p) sig) eqn:E; simpl; [exact IH|].
  destruct (Z.eqb_spec (Pid p) q) as [<-|_]; [contradiction | exact IH].
Qed.

(** X1.  Whatever the scheduler does and however the call ends,
    [sendSignalToWorkers] sends no signal but [sig]; it calls [Signal] on a
    process at most as many times as the pool has records of it, and
    [Wait] on it at most as many times as the pool has records of it that
    took the signal: at most once each when the PIDs of the pool differ,
    and a worker that could not be signalled is never waited for.  When
    the call returns these bounds are reached: every worker of the pool
    was signalled exactly once, and exactly those that took the signal
    were waited for, once.  Summed over the processes, [Signal] is called
    at most once per non-nil worker and [Wait] at most once per worker
    that took the signal, exactly so when the call returns. *)
Theorem fan_out_calls_counted os sig workers schedule st :
  let evs := added (sendSignalToWorkers os workers sig schedule) st in
  (forall pid s, In (Process_Signal pid s) evs -> s = sig) /\
  (forall q,
     count (is_signal_to q sig) evs <= length (withPid q (live workers)) /\
     count (is_wait_for q) evs <= length (withPid q (takers os sig workers)) /\
     (Signal_to os q sig <> None -> count (is_wait_for q) evs = 0) /\
     (NoDup (map Pid (live workers)) ->
      count (is_signal_to q sig) evs <= 1 /\ count (is_wait_for q) evs <= 1)) /\
  count is_signal_call evs <= length (live workers) /\
  count is_wait_call evs <= length (takers os sig workers) /\
  (fst (sendSignalToWorkers os workers sig schedule st) = Value tt ->
   (forall q,
      count (is_signal_to q sig) evs = length (withPid q (live workers)) /\
      count (is_wait_for q) evs = length (withPid q (takers os sig workers))) /\
   count is_signal_call evs = length (live workers) /\
   count is_wait_call evs = length (takers os sig workers)).
Proof.
  intros evs.
  pose proof (fun q => sendSignalToWorkers_measure os sig (is_signal_to q sig)
                         (toSignalOf q) workers schedule st
                         (fun g g' e H => proj1 (gstep_counts_of os sig q g g' e H))
                         eq_refl) as SQ.
  pose proof (fun q => sendSignalToWorkers_measure os sig (is_wait_for q)
                         (toWaitOf os sig q) workers schedule st
                         (fun g g' e H => proj2 (gstep_counts_of os sig q g g' e H))
                         eq_refl) as WQ.
  pose proof (sendSignalToWorkers_measure os sig is_signal_call toSignal
                workers schedule st
                (fun g g' e H => proj1 (gstep_counts os sig g g' e H)) eq_refl) as S.
  pose proof (sendSignalToWorkers_measure os sig is_wait_call (toWait os sig)
                workers schedule st
                (fun g g' e H => proj2 (gstep_counts os sig g g' e H)) eq_refl) as W.
  cbv zeta in SQ, WQ, S, W. fold evs in SQ, WQ, S, W.
  rewrite total_launch_signal in S. rewrite total_launch_wait in W.
  assert (SQ' : forall q,
            count (is_signal_to q sig) evs <= length (withPid q (live workers)) /\
            (fst (sendSignalToWorkers os workers sig schedule st) = Value tt ->
             count (is_signal_to q sig) evs = length (withPid q (live workers))))
    by (intros q; rewrite <- total_launch_signal_of; apply SQ).
  assert (WQ' : forall q,
            count (is_wait_for q) evs <= length (withPid q (takers os sig workers)) /\
            (fst (sendSignalToWorkers os workers sig schedule st) = Value tt ->
             count (is_wait_for q) evs = length (withPid q (takers os sig workers))))
    by (intros q; rewrite <- total_launch_wait_of; apply WQ).
  split; [|split; [|split; [|split; [|]]]].
  - intros pid s Hin.
    destruct (sendSignalToWorkers os workers sig schedule st) as [r st'] eqn:R.
    destruct (sendSignalToWorkers_safe _ _ _ _ _ _ _ R) as [evs0 (Ht & _ & Hs & _)].
    assert (E : evs = evs0).
    { subst evs. apply added_app. now rewrite R. }
    rewrite E in Hin. now destruct (Hs pid s Hin).
  - intros q. destruct (SQ' q) as [A _], (WQ' q) as [B _].
    split; [exact A|]. split; [exact B|]. split.
    + intros N. rewrite (withPid_takers_none os sig q workers N) in B.
      simpl in B. lia.
    + intros D. pose proof (withPid_NoDup q (live workers) D) as L.
      pose proof (withPid_takers_le os sig q workers). lia.
  - apply S.
  - apply W.
  - intros V. split; [|split].
    + intros q. split; [now apply SQ' | now apply WQ'].
    + now apply S.
    + now apply W.
Qed.

(** ** The whole trace of the main process *)

Lemma signalLoop_run names os pkg workers schedule : forall sigChan st,
  signalLoop names os pkg sigChan workers schedule st =
  match find terminating sigChan with
  | Some sig =>
      (sendSignalToWorkers os workers sig schedule ;;; ret (signalReceived sig))
  | None => block
  end {| trace := trace st ++ loopEvents names os pkg (started st) sigChan;
         started := started st + upgradesBefore sigChan * forkStarts os |}.
Proof.
  induction sigChan as [|s sigChan IH]; intros st.
  - cbn. rewrite app_nil_r, Nat.add_0_r. now destruct st.
  - destruct s.
    1-3: (rewrite signalLoop_terminating by reflexivity;
          cbn [find terminating loopEvents upgradesBefore];
          now rewrite Nat.add_0_r).
    rewrite signalLoop_SIGUSR2, IH. unfold afterUpgrade.
    cbn [find terminating loopEvents upgradesBefore trace started].
    rewrite <- app_assoc.
    replace (started st + forkStarts os + upgradesBefore sigChan * forkStarts os)
      with (started st + S (upgradesBefore sigChan) * forkStarts os) by (simpl; lia).
    reflexivity.
Qed.

Lemma StartMainProcess_run names os pkg sigChan schedule st :
  StartMainProcess names os pkg sigChan schedule st =
  match find terminating sigChan with
  | Some sig =>
      (sendSignalToWorkers os (pool names os pkg (started st)) sig schedule ;;;
       ret (signalReceived sig))
  | None => block
  end {| trace := trace st ++ mainEvents names os pkg (started st) sigChan;
         started := started st
                    + (NumCPU os + upgradesBefore sigChan) * forkStarts os |}.
Proof.
  unfold StartMainProcess. unfold bind at 1. unfold emit.
  unfold runMainProcess. unfold bind at 1.
  pose proof (spawnWorkers_run names os pkg (started st) (NumCPU os) 0 []
                (repeat None (NumCPU os))
                {| trace := trace st ++
                     [Printf "Main process PID=%d, starting up a pack..\n" [aInt (pid pkg)]];
                   started := started st |}
                eq_refl (repeat_length _ _) (eq_sym (Nat.add_0_r _))) as R.
  rewrite !app_nil_l, Nat.add_0_l in R. cbn [trace started] in R.
  rewrite R. unfold bind at 1. rewrite retire_run. cbn [trace started].
  rewrite signalLoop_run. cbn [trace started]. unfold mainEvents, pool.
  rewrite <- !app_assoc. cbn [List.app].
  replace (started st + NumCPU os * forkStarts os + upgradesBefore sigChan * forkStarts os)
    with (started st + (NumCPU os + upgradesBefore sigChan) * forkStarts os) by lia.
  reflexivity.
Qed.

Lemma allowed_main_kind sig ws evs :
  Forall (allowed sig ws) evs -> Forall (fun e => main_kind e = true) evs.
Proof.
  intros H. eapply Forall_impl; [|exact H].
  intros e He. destruct e; simpl in *; try reflexivity; contradiction.
Qed.

Lemma main_kind_forkEvents names os envValues :
  Forall (fun e => main_kind e = true) (forkEvents names os envValues).
Proof.
  unfold forkEvents. destruct (located os) as [[f d]|]; repeat constructor.
Qed.

Lemma main_kind_upgradeEvents names os pkg m :
  Forall (fun e => main_kind e = true) (upgradeEvents names os pkg m).
Proof.
  unfold upgradeEvents.
  apply Forall_app; split; [repeat constructor|].
  apply Forall_app; split; [destruct (OnSIGUSR2 pkg); repeat constructor|].
  apply Forall_app; split; [repeat constructor|].
  apply Forall_app; split; [apply main_kind_forkEvents|].
  destruct (forkResult names os m (upgradeEnvValues names pkg)); repeat constructor.
Qed.

Lemma main_kind_loopEvents names os pkg sigChan : forall m,
  Forall (fun e => main_kind e = true) (loopEvents names os pkg m sigChan).
Proof.
  induction sigChan as [|s sigChan IH]; intros m; [constructor|].
  destruct s; cbn [loopEvents].
  1-3: repeat constructor.
  apply Forall_app; split; [apply main_kind_upgradeEvents | apply IH].
Qed.

Lemma main_kind_spawnEvents names os pkg n l :
  Forall (fun e => main_kind e = true) (flat_map (spawnEvents names os pkg n) l).
Proof.
  induction l as [|i l IH]; [constructor|]. cbn [flat_map].
  apply Forall_app; split; [|exact IH]. unfold spawnEvents.
  apply Forall_app; split; [apply main_kind_forkEvents|].
  destruct (spawned names os pkg n i); repeat constructor.
Qed.

Lemma main_kind_mainEvents names os pkg n sigChan :
  Forall (fun e => main_kind e = true) (mainEvents names os pkg n sigChan).
Proof.
  unfold mainEvents.
  apply Forall_app; split; [repeat constructor|].
  apply Forall_app; split; [apply main_kind_spawnEvents|].
  apply Forall_app; split; [|apply main_kind_loopEvents].
  unfold retireEvents. cbv zeta. destruct (String.eqb _ ""); repeat constructor.
Qed.

Lemma sendSignalToWorkers_allowed os sig workers schedule st :
  exists fan,
    trace (snd (sendSignalToWorkers os workers sig schedule st)) = trace st ++ fan /\
    Forall (allowed sig (live workers)) fan.
Proof.
  destruct (sendSignalToWorkers os workers sig schedule st) as [r st'] eqn:S.
  unfold sendSignalToWorkers in S.
  apply (waitGroup_safe os sig (live workers) _ _ _ _ []) in S.
  - destruct S as [fan (Ht & Ha & _)]. exists fan. split; assumption.
  - rewrite launch_live. split; [apply length_map|].
    intros i p Hp. exists (at_Signal p). split; [|reflexivity].
    rewrite nth_error_map, Hp. reflexivity.
  - now rewrite unfinished_launch.
Qed.

(** The trace of [StartMainProcess]: what comes before the fan-out, then
    the calls of the fan-out. *)
Lemma StartMainProcess_trace names os pkg sigChan schedule st :
  exists fan,
    added (StartMainProcess names os pkg sigChan schedule) st =
      mainEvents names os pkg (started st) sigChan ++ fan /\
    Forall (fun e => main_kind e = true) fan /\
    Forall (fun e => is_log e = true \/ is_process_call e = true) fan /\
    (find terminating sigChan = None -> fan = []).
Proof.
  destruct (find terminating sigChan) as [sig|] eqn:F.
  - destruct (sendSignalToWorkers_allowed os sig (pool names os pkg (started st)) schedule
                {| trace := trace st ++ mainEvents names os pkg (started st) sigChan;
                   started := started st
                              + (NumCPU os + upgradesBefore sigChan) * forkStarts os |})
      as [fan [Ht Ha]].
    cbn [trace] in Ht. exists fan. split; [|split; [|split]].
    + apply added_app. rewrite StartMainProcess_run, F. unfold bind.
      destruct (sendSignalToWorkers os _ sig schedule _) as [r0 st0].
      cbn [snd] in Ht.
      destruct r0; cbn [snd ret]; rewrite Ht, <- app_assoc; reflexivity.
    + eapply allowed_main_kind; eauto.
    + eapply Forall_impl; [|exact Ha].
      intros e He. destruct e; simpl in *; auto; contradiction.
    + discriminate.
  - exists []. split; [|split; [|split]]; try constructor.
    apply added_app. rewrite StartMainProcess_run, F. unfold block. cbn [snd trace].
    now rewrite app_nil_r.
Qed.

Lemma count_fan_zero (f : event -> bool) fan :
  (forall e, f e = true -> is_log e = false /\ is_process_call e = false) ->
  Forall (fun e => is_log e = true \/ is_process_call e = true) fan ->
  count f fan = 0.
Proof.
  intros Hf H. unfold count.
  induction H as [|e fan He _ IH]; [reflexivity|]. simpl.
  destruct (f e) eqn:E; [|exact IH].
  destruct (Hf e E) as [A B]. destruct He; congruence.
Qed.

Lemma count_flat_map {A} (f : event -> bool) (g : A -> list event) n l :
  (forall a, count f (g a) = n) -> count f (flat_map g l) = length l * n.
Proof.
  intros H. induction l as [|a l IH]; [reflexivity|].
  cbn [flat_map length]. rewrite count_app, H, IH. simpl. reflexivity.
Qed.

Section Counts.

Variable names : EnvNames.
Variable os : OS.
Variable pkg : Package.

Lemma count_spawnEvents n i :
  count is_fork_call (spawnEvents names os pkg n i) = 1 /\
  count is_start_process (spawnEvents names os pkg n i) = forkStarts os /\
  count is_hook_call (spawnEvents names os pkg n i) = 0.
Proof.
  unfold count, spawnEvents, forkEvents, forkStarts.
  rewrite !filter_app.
  destruct (located os) as [[f d]|], (spawned names os pkg n i); repeat split.
Qed.

Lemma count_upgradeEvents n :
  count is_fork_call (upgradeEvents names os pkg n) = 1 /\
  count is_start_process (upgradeEvents names os pkg n) = forkStarts os /\
  count is_hook_call (upgradeEvents names os pkg n) = hookCalls pkg.
Proof.
  unfold count, upgradeEvents, forkEvents, forkStarts, hookCalls.
  rewrite !filter_app.
  destruct (located os) as [[f d]|], (OnSIGUSR2 pkg),
    (forkResult names os n (upgradeEnvValues names pkg)); repeat split.
Qed.

Lemma count_loopEvents sigChan : forall n,
  count is_fork_call (loopEvents names os pkg n sigChan) = upgradesBefore sigChan /\
  count is_start_process (loopEvents names os pkg n sigChan)
    = upgradesBefore sigChan * forkStarts os /\
  count is_hook_call (loopEvents names os pkg n sigChan)
    = upgradesBefore sigChan * hookCalls pkg.
Proof.
  induction sigChan as [|s sigChan IH]; intros n; [repeat split|].
  destruct s; cbn [loopEvents upgradesBefore]; try (repeat split; fail).
  rewrite !count_app.
  destruct (IH (n + forkStarts os)) as (A & B & C).
  destruct (count_upgradeEvents n) as (A' & B' & C').
  rewrite A, B, C, A', B', C'. simpl. repeat split.
Qed.

Lemma count_retireEvents :
  count is_fork_call (retireEvents names os) = 0 /\
  count is_start_process (retireEvents names os) = 0 /\
  count is_hook_call (retireEvents names os) = 0.
Proof.
  unfold retireEvents. cbv zeta. destruct (String.eqb _ ""); repeat split.
Qed.

Lemma count_mainEvents n sigChan :
  count is_fork_call (mainEvents names os pkg n sigChan)
    = NumCPU os + upgradesBefore sigChan /\
  count is_start_process (mainEvents names os pkg n sigChan)
    = (NumCPU os + upgradesBefore sigChan) * forkStarts os /\
  count is_hook_call (mainEvents names os pkg n sigChan)
    = upgradesBefore sigChan * hookCalls pkg.
Proof.
  unfold mainEvents. rewrite !count_app.
  destruct (count_loopEvents sigChan (n + NumCPU os * forkStarts os)) as (A & B & C).
  destruct count_retireEvents as (A' & B' & C').
  rewrite A, B, C, A', B', C'.
  rewrite (count_flat_map is_fork_call _ 1), (count_flat_map is_start_process _ (forkStarts os)),
    (count_flat_map is_hook_call _ 0), length_seq;
    try (intros i; apply count_spawnEvents).
  cbn. repeat split; lia.
Qed.

End Counts.

Lemma after_terminating names os pkg sig :
  terminating sig = true ->
  forall sigChan tail tail' m,
    find terminating (sigChan ++ sig :: tail) = find terminating (sigChan ++ sig :: tail') /\
    loopEvents names os pkg m (sigChan ++ sig :: tail)
    = loopEvents names os pkg m (sigChan ++ sig :: tail') /\
    upgradesBefore (sigChan ++ sig :: tail) = upgradesBefore (sigChan ++ sig :: tail').
Proof.
  intros T sigChan tail tail'.
  induction sigChan as [|s l IH]; intros m.
  - destruct sig; try discriminate; repeat split.
  - destruct s; cbn [List.app find terminating loopEvents upgradesBefore];
      try (repeat split; fail).
    destruct (IH (m + forkStarts os)) as (X & Y & Z). rewrite X, Y, Z. repeat split.
Qed.

Lemma StartMainProcess_counts names os pkg sigChan schedule st :
  let evs := added (StartMainProcess names os pkg sigChan schedule) st in
  count is_fork_call evs = NumCPU os + upgradesBefore sigChan /\
  count is_start_process evs = (NumCPU os + upgradesBefore sigChan) * forkStarts os /\
  count is_hook_call evs = upgradesBefore sigChan * hookCalls pkg.
Proof.
  intros evs.
  destruct (StartMainProcess_trace names os pkg sigChan schedule st)
    as [fan (E & _ & L & _)].
  subst evs. rewrite E, !count_app.
  destruct (count_mainEvents names os pkg (started st) sigChan) as (A & B & C).
  rewrite A, B, C.
  rewrite !(count_fan_zero _ fan) by
    (try exact L; intros e He; destruct e; try discriminate; split; reflexivity).
  repeat split; lia.
Qed.

(** X2.  However many terminating and upgrade signals arrive and whatever
    the scheduler does, [StartMainProcess] calls [forkProcess] once per core
    and once more for every [SIGUSR2] it receives before the signal that
    ends the loop, and at no other time; each call starts one process when
    the binary and the directory resolve and none otherwise; the
    [OnSIGUSR2] hook, if set, runs once per such [SIGUSR2].  Signals that
    follow the terminating one are not acted on. *)
Theorem spawn_calls_counted names os pkg sigChan schedule st :
  let evs := added (StartMainProcess names os pkg sigChan schedule) st in
  count is_fork_call evs = NumCPU os + upgradesBefore sigChan /\
  count is_start_process evs = (NumCPU os + upgradesBefore sigChan) * forkStarts os /\
  count is_hook_call evs = upgradesBefore sigChan * hookCalls pkg /\
  (forall sig rest more,
     terminating sig = true ->
     StartMainProcess names os pkg (sigChan ++ sig :: rest) schedule st =
     StartMainProcess names os pkg (sigChan ++ sig :: more) schedule st).
Proof.
  intros evs.
  destruct (StartMainProcess_counts names os pkg sigChan schedule st) as (A & B & C).
  fold evs in A, B, C.
  split; [exact A|]. split; [exact B|]. split; [exact C|].
  intros sig rest more T.
  destruct (after_terminating names os pkg sig T sigChan rest more
              (started st + NumCPU os * forkStarts os)) as (X & Y & Z).
  rewrite !StartMainProcess_run. unfold mainEvents. rewrite X, Y, Z.
  reflexivity.
Qed.

(** ** The two roles are kept apart *)

Lemma main_kind_not_worker e : main_kind e = true -> is_worker_event e = false.
Proof.
  destruct e; simpl; try congruence.
  match goal with f : goroutine |- _ => destruct f end; congruence.
Qed.

Lemma count_zero_Forall (f : event -> bool) evs :
  Forall (fun e => f e = false) evs -> count f evs = 0.
Proof.
  unfold count. induction 1 as [|e evs He _ IH]; [reflexivity|].
  simpl. now rewrite He.
Qed.

Lemma StartMainProcess_main_kind names os pkg sigChan schedule st :
  Forall (fun e => main_kind e = true)
         (added (StartMainProcess names os pkg sigChan schedule) st).
Proof.
  destruct (StartMainProcess_trace names os pkg sigChan schedule st)
    as [fan (E & M & _ & _)].
  rewrite E. apply Forall_app; split; [apply main_kind_mainEvents | exact M].
Qed.

Lemma bind_asError (c : M error) st :
  (e <- c ;; ret (Some e)) st = (asError (fst (c st)), snd (c st)).
Proof. unfold bind, ret. destruct (c st) as [[e|v|] st']; reflexivity. Qed.

(** X3.  In the main process the three entry points do what
    [StartMainProcess] does and nothing else: the server, TLS
    configuration and handler are not looked at (a nil server is accepted),
    nothing is pinned, listened on, served or accepted, and the call never
    returns nil: it returns the error naming the terminating signal, or it
    is still waiting. *)
Theorem main_process_never_serves names os pkg network address sigChan schedule st :
  isMainProcess pkg = true ->
  let main := StartMainProcess names os pkg sigChan schedule in
  (forall server,
     ListenAndServeHttp names os pkg network address server sigChan schedule st
       = (asError (fst (main st)), snd (main st))) /\
  (forall server,
     ListenAndServeGRPC names os pkg network address server sigChan schedule st
       = (asError (fst (main st)), snd (main st))) /\
  (forall tlsConfig handler accepts,
     ListenAndServeTCP names os pkg network address tlsConfig handler accepts
       sigChan schedule st
       = (asError (fst (main st)), snd (main st))) /\
  count is_worker_event (added main st) = 0 /\
  asError (fst (main st)) <> Value None /\
  (forall e, fst (main st) = Value e ->
     exists sig, find terminating sigChan = Some sig /\ e = signalReceived sig).
Proof.
  intros Hm main.
  split; [|split; [|split; [|split; [|split]]]].
  - intros server. unfold ListenAndServeHttp. rewrite Hm. apply bind_asError.
  - intros server. unfold ListenAndServeGRPC. rewrite Hm. apply bind_asError.
  - intros tlsConfig handler accepts. unfold ListenAndServeTCP. rewrite Hm.
    apply bind_asError.
  - apply count_zero_Forall.
    eapply Forall_impl; [|apply StartMainProcess_main_kind].
    intros e. apply main_kind_not_worker.
  - destruct (fst (main st)); discriminate.
  - intros e He. subst main. rewrite StartMainProcess_run in He.
    destruct (find terminating sigChan) as [sig|]; [|discriminate].
    exists sig. split; [reflexivity|].
    unfold bind in He.
    destruct (sendSignalToWorkers os _ sig schedule _) as [[[]|v|] st0];
      cbn in He; congruence.
Qed.

Lemma main_process_never_serves_witness :
  ListenAndServeHttp gopherpackNames Sample.os Sample.supervisor "tcp" ":80" None
    [SIGINT] (Sample.roundRobin 3) initial
  = (asError (fst (StartMainProcess gopherpackNames Sample.os Sample.supervisor
                     [SIGINT] (Sample.roundRobin 3) initial)),
     snd (StartMainProcess gopherpackNames Sample.os Sample.supervisor
            [SIGINT] (Sample.roundRobin 3) initial)).
Proof.
  apply (main_process_never_serves gopherpackNames Sample.os Sample.supervisor
           "tcp" ":80" [SIGINT] (Sample.roundRobin 3) initial eq_refl).
Defined.

(** ** A machine on which nothing can be started *)

Lemma pool_unlocated names os pkg n err :
  located os = Err err -> live (pool names os pkg n) = [].
Proof.
  intros H. unfold pool, spawned, forkResult. rewrite H.
  induction (seq 0 (NumCPU os)) as [|i l IH]; [reflexivity | exact IH].
Qed.

(** X4.  When the binary or the working directory cannot be resolved, no
    spawn succeeds and the pool has no worker; the main process keeps
    running all the same, and a terminating signal makes
    [StartMainProcess] return at once, whatever the scheduler does, the
    error that names the signal, without having started, signalled or
    waited for any process. *)
Theorem shutdown_with_empty_pool names os pkg sigChan sig schedule st err :
  located os = Err err ->
  find terminating sigChan = Some sig ->
  exists st',
    StartMainProcess names os pkg sigChan schedule st = (Value (signalReceived sig), st') /\
    started st' = started st /\
    count is_start_process (added (StartMainProcess names os pkg sigChan schedule) st) = 0 /\
    count is_process_call (added (StartMainProcess names os pkg sigChan schedule) st) = 0 /\
    count is_fork_call (added (StartMainProcess names os pkg sigChan schedule) st)
      = NumCPU os + upgradesBefore sigChan.
Proof.
  intros HL HF.
  assert (FS : forkStarts os = 0) by (unfold forkStarts; now rewrite HL).
  assert (R : StartMainProcess names os pkg sigChan schedule st =
              (Value (signalReceived sig),
               {| trace := trace st ++ mainEvents names os pkg (started st) sigChan;
                  started := started st |})).
  { rewrite StartMainProcess_run, HF. unfold bind, sendSignalToWorkers.
    rewrite launch_live, (pool_unlocated names os pkg (started st) err HL).
    cbn [map length]. rewrite FS, Nat.mul_0_r, Nat.add_0_r.
    destruct schedule; reflexivity. }
  eexists. split; [exact R|]. split; [reflexivity|].
  assert (A : added (StartMainProcess names os pkg sigChan schedule) st
              = mainEvents names os pkg (started st) sigChan).
  { apply added_app. now rewrite R. }
  rewrite A.
  destruct (count_mainEvents names os pkg (started st) sigChan) as (C1 & C2 & _).
  rewrite C1, C2, FS, Nat.mul_0_r. repeat split.
  apply count_zero_Forall.
  assert (Q : quiet (mainEvents names os pkg (started st) sigChan)).
  { unfold mainEvents.
    apply quiet_app; [repeat constructor|].
    apply quiet_app; [apply quiet_spawnEvents|].
    apply quiet_app; [apply quiet_retireEvents|].
    generalize (started st + NumCPU os * forkStarts os) as m.
    clear. induction sigChan as [|s l IH]; intros m; [constructor|].
    destruct s; cbn [loopEvents]; try (repeat constructor; fail).
    apply quiet_app; [apply quiet_upgradeEvents | apply IH]. }
  exact Q.
Qed.

Lemma shutdown_with_empty_pool_witness :
  exists st',
    StartMainProcess gopherpackNames Sample.osNoBinary Sample.supervisor
      [SIGUSR2; SIGQUIT] [] initial
    = (Value (signalReceived SIGQUIT), st').
Proof.
  destruct (shutdown_with_empty_pool gopherpackNames Sample.osNoBinary
              Sample.supervisor [SIGUSR2; SIGQUIT] SIGQUIT [] initial
              (errorString "executable file not found in $PATH") eq_refl eq_refl)
    as [st' [R _]].
  exists st'. exact R.
Defined.

(** ** The worker, step by step *)

Lemma store_repeat {A} (x v : A) : forall n k,
  n < k -> store (repeat x k) n v = Some (repeat x n ++ v :: repeat x (k - 1 - n)).
Proof.
  induction n as [|n IH]; intros k H.
  - destruct k as [|k]; [lia|].
    replace (S k - 1 - 0) with k by lia. reflexivity.
  - destruct k as [|k]; [lia|]. cbn [repeat store].
    rewrite (IH k) by lia.
    replace (S k - 1 - S n) with (k - 1 - n) by lia. reflexivity.
Qed.

Lemma nth_error_repeat_lt {A} (x : A) : forall n k,
  n < k -> nth_error (repeat x k) n = Some x.
Proof.
  induction n as [|n IH]; intros k H; (destruct k as [|k]; [lia|]); simpl;
    [reflexivity | apply IH; lia].
Qed.

Lemma cpuBitsMask_mod cpu : unix.cpuBitsMask cpu = Z.shiftl 1 (cpu mod 64).
Proof.
  unfold unix.cpuBitsMask, unix._NCPUBITS.
  rewrite Z.mod_mod_divide; [reflexivity|].
  exists (2 ^ 58)%Z. reflexivity.
Qed.

Lemma CPUSet_Set_empty cpu :
  unix.CPUSet_Set unix.empty cpu =
  if (cpu <=? -64)%Z then None else Some (affinityMask cpu).
Proof.
  unfold unix.CPUSet_Set, unix.cpuBitsIndex, unix._NCPUBITS.
  change (length unix.empty) with 16. change (Z.of_nat 16) with 16%Z.
  assert (Q : (cpu <= 0 -> Z.quot cpu 64 = - ((- cpu) / 64))%Z).
  { intros N. rewrite <- (Z.quot_div_nonneg (- cpu) 64) by lia.
    rewrite Z.quot_opp_l by lia. lia. }
  destruct (Z.leb_spec cpu (-64)) as [L|L].
  - rewrite Q by lia.
    assert (I : (1 <= (- cpu) / 64)%Z) by (apply Z.div_le_lower_bound; lia).
    destruct (Z.ltb_spec (- ((- cpu) / 64)) 16); [|lia].
    destruct (Z.ltb_spec (- ((- cpu) / 64)) 0); [reflexivity | lia].
  - unfold affinityMask.
    destruct (Z.ltb_spec cpu 0) as [N|N].
    + assert (E : Z.quot cpu 64 = 0%Z)
        by (rewrite Q by lia; rewrite Z.div_small by lia; reflexivity).
      rewrite E. cbn [Z.ltb Z.compare Z.to_nat].
      rewrite cpuBitsMask_mod.
      replace (cpu mod 64)%Z with (cpu + 64)%Z
        by (apply (Z.mod_unique_pos cpu 64 (-1)); lia).
      reflexivity.
    + pose proof (Z.rem_bound_pos cpu 64 ltac:(lia) ltac:(lia)) as R.
      rewrite (Z.quot_div_nonneg cpu 64) in * by lia.
      pose proof (Z.div_pos cpu 64 ltac:(lia) ltac:(lia)) as P.
      destruct (Z.ltb_spec cpu 1024) as [U|U].
      * assert (I : (cpu / 64 < 16)%Z) by (apply Z.div_lt_upper_bound; lia).
        destruct (Z.ltb_spec (cpu / 64) 16); [|lia].
        destruct (Z.ltb_spec (cpu / 64) 0); [lia|].
        assert (K : Z.to_nat (cpu / 64) < 16) by lia.
        unfold unix.empty. change unix.cpuSetSize with 16.
        rewrite (nth_error_repeat_lt 0%Z _ 16 K), (store_repeat 0%Z _ _ 16 K).
        rewrite Z.lor_0_l, cpuBitsMask_mod. reflexivity.
      * assert (I : (16 <= cpu / 64)%Z) by (apply Z.div_le_lower_bound; lia).
        destruct (Z.ltb_spec (cpu / 64) 16); [lia | reflexivity].
Qed.

Lemma SetAffinity_run os cpuCore :
  system.SetAffinity os cpuCore =
  if (cpuCore <=? -64)%Z then Panic indexOutOfRange
  else Value (SchedSetaffinity os 0 (affinityMask cpuCore)).
Proof.
  unfold system.SetAffinity. rewrite CPUSet_Set_empty.
  destruct (cpuCore <=? -64)%Z; reflexivity.
Qed.

Lemma setupWorkerRuntime_run os pkg st :
  setupWorkerRuntime os pkg st =
  (setupResult os pkg,
   {| trace := trace st ++ setupEvents os pkg; started := started st |}).
Proof.
  unfold setupWorkerRuntime, setupResult, setupEvents.
  destruct (strconv.Atoi (workerCpuCore pkg)) as [c|err]; unfold lift; run.
  - destruct (system.SetAffinity os c) as [[e|]|v|]; run; rewrite <- ?app_assoc;
      reflexivity.
  - rewrite app_nil_r. now destruct st.
Qed.

Lemma getListener_run os network address st :
  getListenerWithSocketOptions os network address st =
  (match listenResult os network address with
   | Some l => Value (Some l, None)
   | None => Panic nilDereference
   end,
   {| trace := trace st ++ [net_Listen network address]; started := started st |}).
Proof.
  unfold getListenerWithSocketOptions, ListenConfig_Listen, listenResult; run.
  destruct (Socket os network address); [reflexivity|].
  destruct (Control os); [reflexivity|].
  destruct (BindListen os network address); reflexivity.
Qed.

(** X5.  [getListenerWithSocketOptions] never returns an error: either it
    panics on the nil listener of a failed [Listen], or it returns a
    listener with a nil error, and this only when the socket was created,
    the [Control] callback ran, both [SO_REUSEADDR] and [SO_REUSEPORT] were
    set to 1 without error, and the bind succeeded.  A listener is thus
    never handed out without port sharing. *)
Theorem listener_needs_both_options os network address st :
  fst (getListenerWithSocketOptions os network address st) = Panic nilDereference \/
  exists addr,
    fst (getListenerWithSocketOptions os network address st)
      = Value (Some {| Addr := addr |}, None) /\
    Socket os network address = None /\
    RawConn_Control os = None /\
    SetsockoptInt os SOL_SOCKET SO_REUSEADDR 1 = None /\
    SetsockoptInt os SOL_SOCKET SO_REUSEPORT 1 = None /\
    BindListen os network address = Ok addr.
Proof.
  rewrite getListener_run. cbn [fst]. unfold listenResult.
  destruct (Socket os network address); [now left|].
  destruct (Control os) eqn:C; [now left|].
  destruct (BindListen os network address) as [addr|]; [|now left].
  right. exists addr. split; [reflexivity|]. split; [reflexivity|].
  unfold Control in C.
  destruct (RawConn_Control os); [discriminate|].
  destruct (SetsockoptInt os SOL_SOCKET SO_REUSEADDR 1),
    (SetsockoptInt os SOL_SOCKET SO_REUSEPORT 1); try discriminate.
  repeat split.
Qed.

(** X6.  [setupWorkerRuntime] never waits.  It panics, with an index out
    of range inside [cpu.Set], exactly when the core index parses to -64 or
    less, after it has asked for the pinning and before anything else; so
    does the worker with [GOPHERPACK_CPU_CORE=-64].  It returns nil exactly
    when the index parses to more than -64 and [unix.SchedSetaffinity]
    accepts, for the calling thread, the set made for it: the core itself
    for an index below 1024, the empty set above, and core [index + 64] for
    a negative index.  It asks for no other core than the parsed one and at
    most once, and it restricts the runtime to one execution unit, once,
    exactly when it returns nil. *)
Theorem setupWorkerRuntime_nil_iff os pkg st :
  let evs := added (setupWorkerRuntime os pkg) st in
  let r := fst (setupWorkerRuntime os pkg st) in
  r <> Blocked /\
  (forall v, r = Panic v <->
     v = indexOutOfRange /\
     exists cpuCore,
       strconv.Atoi (workerCpuCore pkg) = Ok cpuCore /\ (cpuCore <= -64)%Z) /\
  (r = Value None <->
     exists cpuCore,
       strconv.Atoi (workerCpuCore pkg) = Ok cpuCore /\ (-64 < cpuCore)%Z /\
       SchedSetaffinity os 0 (affinityMask cpuCore) = None) /\
  (forall cpuCore, (-64 < cpuCore)%Z ->
     unix.CPUSet_Set unix.empty cpuCore = Some (affinityMask cpuCore)) /\
  (forall cpuCore, In (system_SetAffinity cpuCore) evs ->
     strconv.Atoi (workerCpuCore pkg) = Ok cpuCore) /\
  count is_pin evs <= 1 /\
  filter is_gomaxprocs evs =
    match r with
    | Value None => [runtime_GOMAXPROCS 1]
    | _ => []
    end /\
  (forall v, r = Panic v ->
     exists cpuCore, evs = [system_SetAffinity cpuCore]) /\
  setupWorkerRuntime Sample.os Sample.workerCoreBelow initial =
    (Panic indexOutOfRange,
     {| trace := [system_SetAffinity (-64)]; started := 0 |}).
Proof.
  intros evs r.
  assert (E : evs = setupEvents os pkg)
    by (subst evs; apply added_app; now rewrite setupWorkerRuntime_run).
  assert (R : r = setupResult os pkg)
    by (subst r; now rewrite setupWorkerRuntime_run).
  rewrite E, R. clear E R evs r.
  assert (Mask : forall cpuCore, (-64 < cpuCore)%Z ->
            unix.CPUSet_Set unix.empty cpuCore = Some (affinityMask cpuCore)).
  { intros c Hc. rewrite CPUSet_Set_empty.
    destruct (Z.leb_spec c (-64)); [lia | reflexivity]. }
  unfold setupResult, setupEvents.
  destruct (strconv.Atoi (workerCpuCore pkg)) as [c|err].
  - rewrite SetAffinity_run.
    destruct (Z.leb_spec c (-64)) as [L|L].
    + split; [discriminate|]. split; [|split; [|split; [exact Mask|split; [|split; [|split; [|split]]]]]].
      * intros v. split.
        -- intros [= <-]. split; [reflexivity|]. exists c. split; [reflexivity | exact L].
        -- intros [-> _]. reflexivity.
      * split; [discriminate|]. intros [c' ([= <-] & H & _)]. lia.
      * intros c' [H|[]]. now injection H as <-.
      * cbn. lia.
      * reflexivity.
      * intros v _. exists c. reflexivity.
      * reflexivity.
    + destruct (SchedSetaffinity os 0 (affinityMask c)) as [e|] eqn:A.
      * split; [discriminate|]. split; [|split; [|split; [exact Mask|split; [|split; [|split; [|split]]]]]].
        -- intros v. split; [discriminate|]. intros [_ [c' ([= <-] & H)]]. lia.
        -- split; [discriminate|]. intros [c' ([= <-] & _ & H)]. congruence.
        -- intros c' [H|[H|[]]]; [now injection H as <- | discriminate].
        -- cbn. lia.
        -- reflexivity.
        -- discriminate.
        -- reflexivity.
      * split; [discriminate|]. split; [|split; [|split; [exact Mask|split; [|split; [|split; [|split]]]]]].
        -- intros v. split; [discriminate|]. intros [_ [c' ([= <-] & H)]]. lia.
        -- split; [|reflexivity]. intros _. exists c. auto.
        -- intros c' [H|[H|[H|[]]]]; [now injection H as <- | discriminate | discriminate].
        -- cbn. lia.
        -- reflexivity.
        -- discriminate.
        -- reflexivity.
  - split; [discriminate|]. split; [|split; [|split; [exact Mask|split; [|split; [|split; [|split]]]]]].
    + intros v. split; [discriminate|]. intros [_ [c' (H & _)]]. discriminate.
    + split; [discriminate|]. intros [c' (H & _)]. discriminate.
    + intros c' [].
    + cbn. lia.
    + reflexivity.
    + discriminate.
    + reflexivity.
Qed.

(** ** Accepting connections *)

Lemma added_of {A} (c : M A) st r evs n :
  c st = (r, {| trace := trace st ++ evs; started := n |}) -> added c st = evs.
Proof. intros H. apply added_app. now rewrite H. Qed.

Lemma acceptLoop_run pkg handler accepts : forall st,
  acceptLoop pkg handler accepts st =
  (acceptResult handler accepts,
   {| trace := trace st ++ acceptEvents pkg handler accepts; started := started st |}).
Proof.
  unfold acceptResult, acceptEvents, firstAccepted.
  induction accepts as [|a accepts IH]; intros st.
  - destruct handler; cbn; rewrite app_nil_r; now destruct st.
  - destruct a as [conn|err]; cbn [acceptLoop]; run.
    + destruct handler as [h|]; run.
      * rewrite IH. cbn [trace started flat_map acceptTurn].
        rewrite <- !app_assoc. reflexivity.
      * cbn. rewrite <- !app_assoc. reflexivity.
    + rewrite IH. cbn [trace started accepted].
      destruct handler as [h|]; cbn [flat_map acceptTurn failedFirst];
        rewrite <- !app_assoc; reflexivity.
Qed.

Lemma accept_handlers pkg accepts :
  filter is_handler_start (flat_map (acceptTurn pkg) accepts) =
  map (fun conn => go (go_handler conn)) (accepted accepts).
Proof.
  induction accepts as [|[conn|err] accepts IH]; cbn; [reflexivity | | exact IH].
  now rewrite IH.
Qed.

Lemma accept_count pkg accepts :
  count is_accept (flat_map (acceptTurn pkg) accepts) = length accepts.
Proof.
  unfold count.
  induction accepts as [|[conn|err] accepts IH]; cbn; [reflexivity | |]; now rewrite IH.
Qed.

Lemma accept_failures pkg accepts :
  filter is_accept_failure_log (flat_map (acceptTurn pkg) accepts) =
  map (fun err => Printf "Worker process PID=%d accept connection error: %s"
                    [aInt (pid pkg); aError err])
      (failed accepts).
Proof.
  induction accepts as [|[conn|err] accepts IH]; cbn; [reflexivity | exact IH |].
  now rewrite IH.
Qed.

Lemma failedFirst_all accepts :
  accepted accepts = [] -> failedFirst accepts = accepts.
Proof.
  induction accepts as [|[conn|err] accepts IH]; cbn; intros H;
    [reflexivity | discriminate | now rewrite IH].
Qed.

Lemma ListenAndServeTCP_run names os pkg network address tlsConfig handler accepts
    sigChan schedule st l :
  isMainProcess pkg = false ->
  setupResult os pkg = Value None ->
  listenResult os network address = Some l ->
  ListenAndServeTCP names os pkg network address tlsConfig handler accepts
    sigChan schedule st =
  (acceptResult handler accepts,
   {| trace := trace st ++ setupEvents os pkg ++ [net_Listen network address]
                 ++ match tlsConfig with
                    | Some _ => [Println "Using TLS"]
                    | None => []
                    end
                 ++ acceptEvents pkg handler accepts;
      started := started st |}).
Proof.
  intros Hw HS HL. unfold ListenAndServeTCP. rewrite Hw.
  unfold bind at 1. rewrite setupWorkerRuntime_run, HS.
  unfold bind at 1. rewrite getListener_run, HL. cbn [snd trace started].
  destruct tlsConfig; run; rewrite acceptLoop_run; cbn [trace started];
    rewrite <- !app_assoc; reflexivity.
Qed.

(** X7.  The accept loop of [ListenAndServeTCP] has no way out of its own:
    it never returns to its caller.  With a handler that is not nil it
    calls [Accept] again whatever [Accept] gave: a failed [Accept] is logged
    with the PID and the error and starts no handler, an accepted
    connection is logged and gets exactly one handler goroutine, in the
    order of acceptance, and what was done for earlier results does not
    depend on later ones.  With a nil handler the loop goes on as long as
    [Accept] fails, logging each failure; the first accepted connection is
    logged and is the end of the process, [go handler(conn)] being fatal on
    a nil func value.  In a worker whose set-up and listener succeed this
    loop is all that [ListenAndServeTCP] goes on to do. *)
Theorem accept_loop_goes_on pkg accepts st :
  (forall handler e, fst (acceptLoop pkg handler accepts st) <> Value e) /\
  (forall h,
     let evs := added (acceptLoop pkg (Some h) accepts) st in
     fst (acceptLoop pkg (Some h) accepts st) = Blocked /\
     evs = flat_map (acceptTurn pkg) accepts /\
     count is_accept evs = length accepts /\
     filter is_handler_start evs =
       map (fun conn => go (go_handler conn)) (accepted accepts) /\
     filter is_accept_failure_log evs =
       map (fun err => Printf "Worker process PID=%d accept connection error: %s"
                         [aInt (pid pkg); aError err])
           (failed accepts) /\
     (forall more,
        exists evs',
          added (acceptLoop pkg (Some h) (accepts ++ more)) st = evs ++ evs')) /\
  (let evs := added (acceptLoop pkg None accepts) st in
   match firstAccepted accepts with
   | Some conn =>
       (exists v, fst (acceptLoop pkg None accepts st) = Panic v) /\
       exists rest,
         evs = flat_map (acceptTurn pkg) (failedFirst accepts)
               ++ [ Listener_Accept;
                    Printf "New connection accepted from %s/%s\n"
                      [aString (fst conn); aString (snd conn)] ]
               ++ rest
   | None =>
       fst (acceptLoop pkg None accepts st) = Blocked /\
       evs = flat_map (acceptTurn pkg) accepts
   end) /\
  (forall names os network address tlsConfig handler sigChan schedule l,
     isMainProcess pkg = false ->
     setupResult os pkg = Value None ->
     listenResult os network address = Some l ->
     let c := ListenAndServeTCP names os pkg network address tlsConfig handler accepts
                sigChan schedule in
     fst (c st) = fst (acceptLoop pkg handler accepts st) /\
     exists before,
       added c st = before ++ added (acceptLoop pkg handler accepts) st /\
       count is_accept before = 0).
Proof.
  assert (E : forall handler l,
            added (acceptLoop pkg handler l) st = acceptEvents pkg handler l)
    by (intros handler l; apply added_app; now rewrite acceptLoop_run).
  split; [|split; [|split]].
  - intros handler e. rewrite acceptLoop_run. cbn [fst]. unfold acceptResult.
    destruct handler, (firstAccepted accepts); discriminate.
  - intros h evs. subst evs. rewrite E, acceptLoop_run. cbn [fst acceptEvents].
    split; [reflexivity|]. split; [reflexivity|].
    split; [apply accept_count|]. split; [apply accept_handlers|].
    split; [apply accept_failures|].
    intros more. rewrite E. cbn [acceptEvents].
    exists (flat_map (acceptTurn pkg) more). apply flat_map_app.
  - intros evs. subst evs. rewrite E, acceptLoop_run. cbn [fst acceptEvents].
    unfold acceptResult, firstAccepted.
    destruct (accepted accepts) as [|conn rest] eqn:A; cbn [hd_error].
    + split; [reflexivity|]. now rewrite app_nil_r, failedFirst_all.
    + split; [eexists; reflexivity|]. exists []. reflexivity.
  - intros names os network address tlsConfig handler sigChan schedule l Hw HS HL c.
    subst c.
    rewrite (ListenAndServeTCP_run names os pkg network address tlsConfig handler
               accepts sigChan schedule st l Hw HS HL).
    rewrite (added_of _ st _ _ _
               (ListenAndServeTCP_run names os pkg network address tlsConfig handler
                  accepts sigChan schedule st l Hw HS HL)).
    rewrite E, acceptLoop_run. cbn [fst]. split; [reflexivity|].
    exists (setupEvents os pkg ++ [net_Listen network address]
            ++ match tlsConfig with
               | Some _ => [Println "Using TLS"]
               | None => []
               end).
    split; [now rewrite <- !app_assoc|].
    rewrite !count_app. unfold setupEvents, setupResult in *.
    destruct (strconv.Atoi (workerCpuCore pkg)) as [c|]; [|discriminate].
    rewrite HS. destruct tlsConfig; reflexivity.
Qed.

(** ** What a worker does and does not do *)

Lemma worker_kind_not_main e : worker_kind e = true -> is_main_event e = false.
Proof.
  destruct e; simpl; try congruence.
  match goal with f : goroutine |- _ => destruct f end; congruence.
Qed.

Lemma worker_kind_setupEvents os pkg :
  Forall (fun e => worker_kind e = true) (setupEvents os pkg).
Proof.
  unfold setupEvents. destruct (strconv.Atoi (workerCpuCore pkg)) as [c|]; [|constructor].
  destruct (system.SetAffinity os c) as [[e|]|v|]; repeat constructor.
Qed.

Lemma worker_kind_acceptEvents pkg handler accepts :
  Forall (fun e => worker_kind e = true) (acceptEvents pkg handler accepts).
Proof.
  assert (T : forall l, Forall (fun e => worker_kind e = true)
                               (flat_map (acceptTurn pkg) l)).
  { induction l as [|[conn|err] l IH]; cbn; repeat constructor; exact IH. }
  unfold acceptEvents. destruct handler; [apply T|].
  apply Forall_app; split; [apply T|].
  destruct (firstAccepted accepts); repeat constructor.
Qed.

Lemma ListenAndServeHttp_worker names os pkg network address server sigChan schedule st :
  isMainProcess pkg = false ->
  exists r evs,
    ListenAndServeHttp names os pkg network address (Some server) sigChan schedule st
      = (r, {| trace := trace st ++ evs; started := started st |}) /\
    Forall (fun e => worker_kind e = true) evs /\
    (setupResult os pkg <> Value None -> r = setupResult os pkg) /\
    (setupResult os pkg = Value None -> listenResult os network address = None ->
     r = Panic nilDereference) /\
    (setupResult os pkg = Value None -> listenResult os network address <> None ->
     In (go go_awaitShutdown) evs /\
     (In server_Serve evs \/ In server_ServeTLS evs)).
Proof.
  intros Hw. unfold ListenAndServeHttp. rewrite Hw.
  unfold bind at 1. rewrite setupWorkerRuntime_run.
  pose proof (worker_kind_setupEvents os pkg) as K.
  destruct (setupResult os pkg) as [[err|]|v|].
  1, 3, 4: (eexists; eexists; split; [reflexivity|]; split; [exact K|];
            split; [reflexivity|]; split; discriminate).
  unfold bind at 1. rewrite getListener_run. cbn [trace started].
  destruct (listenResult os network address) as [l|]; cbn [snd].
  - unfold serveHttp. destruct (TLSConfig server); run; rewrite <- !app_assoc.
    + eexists; eexists; split; [reflexivity|]. split.
      * apply Forall_app; split; [exact K | repeat constructor].
      * split; [intros N; now elim N|]. split; [discriminate|]. intros _ _.
        split; [|right]; apply in_or_app; right; cbn; tauto.
    + eexists; eexists; split; [reflexivity|]. split.
      * apply Forall_app; split; [exact K | repeat constructor].
      * split; [intros N; now elim N|]. split; [discriminate|]. intros _ _.
        split; [|left]; apply in_or_app; right; cbn; tauto.
  - rewrite <- app_assoc.
    eexists; eexists; split; [reflexivity|]. split.
    + apply Forall_app; split; [exact K | repeat constructor].
    + split; [intros N; now elim N|]. split; [reflexivity|].
      intros _ N. now elim N.
Qed.

Lemma ListenAndServeGRPC_worker names os pkg network address server sigChan schedule st :
  isMainProcess pkg = false ->
  exists r evs,
    ListenAndServeGRPC names os pkg network address (Some server) sigChan schedule st
      = (r, {| trace := trace st ++ evs; started := started st |}) /\
    Forall (fun e => worker_kind e = true) evs /\
    (setupResult os pkg <> Value None -> r = setupResult os pkg) /\
    (setupResult os pkg = Value None -> listenResult os network address = None ->
     r = Panic nilDereference) /\
    (setupResult os pkg = Value None -> listenResult os network address <> None ->
     r = grpc_Serve server /\
     In (go go_awaitShutdown) evs /\ In server_Serve evs).
Proof.
  intros Hw. unfold ListenAndServeGRPC. rewrite Hw.
  unfold bind at 1. rewrite setupWorkerRuntime_run.
  pose proof (worker_kind_setupEvents os pkg) as K.
  destruct (setupResult os pkg) as [[err|]|v|].
  1, 3, 4: (eexists; eexists; split; [reflexivity|]; split; [exact K|];
            split; [reflexivity|]; split; discriminate).
  unfold bind at 1. rewrite getListener_run. cbn [trace started].
  destruct (listenResult os network address) as [l|]; cbn [snd].
  - unfold lift. run. rewrite <- !app_assoc.
    eexists; eexists; split; [reflexivity|]. split.
    + apply Forall_app; split; [exact K | repeat constructor].
    + split; [intros N; now elim N|]. split; [discriminate|]. intros _ _.
      split; [reflexivity|]. split; apply in_or_app; right; cbn; tauto.
  - rewrite <- app_assoc.
    eexists; eexists; split; [reflexivity|]. split.
    + apply Forall_app; split; [exact K | repeat constructor].
    + split; [intros N; now elim N|]. split; [reflexivity|].
      intros _ N. now elim N.
Qed.

Lemma ListenAndServeTCP_worker names os pkg network address tlsConfig handler accepts
    sigChan schedule st :
  isMainProcess pkg = false ->
  exists r evs,
    ListenAndServeTCP names os pkg network address tlsConfig handler accepts
      sigChan schedule st
      = (r, {| trace := trace st ++ evs; started := started st |}) /\
    Forall (fun e => worker_kind e = true) evs /\
    (forall e, r = Value e -> setupResult os pkg = Value e /\ e <> None).
Proof.
  intros Hw. unfold ListenAndServeTCP. rewrite Hw.
  unfold bind at 1. rewrite setupWorkerRuntime_run.
  pose proof (worker_kind_setupEvents os pkg) as K.
  destruct (setupResult os pkg) as [[err|]|v|] eqn:S.
  1, 3, 4: (eexists; eexists; split; [reflexivity|]; split; [exact K|];
            intros e He; inversion He; subst; (split; [reflexivity | discriminate])).
  unfold bind at 1. rewrite getListener_run. cbn [trace started].
  destruct (listenResult os network address) as [l|]; cbn [snd].
  - destruct tlsConfig; run; rewrite acceptLoop_run; cbn [trace started];
      rewrite <- !app_assoc;
      (eexists; eexists; split; [reflexivity|]; split;
       [apply Forall_app; split; [exact K|]; cbn [List.app]; repeat constructor;
        apply worker_kind_acceptEvents|]);
      intros e He; unfold acceptResult in He;
      destruct handler, (firstAccepted accepts); discriminate.
  - rewrite <- app_assoc.
    eexists; eexists; split; [reflexivity|]. split; [|discriminate].
    apply Forall_app; split; [exact K | repeat constructor].
Qed.

(** X8.  A worker is no supervisor: in a process that is not the main
    process the three entry points call [forkProcess] or
    [os.StartProcess] never, signal and wait for no process and retire no
    previous main process; all they do is log, pin, listen, start their
    goroutines, serve and accept.  [ListenAndServeHttp] refuses a nil
    [*http.Server], and [ListenAndServeGRPC] a nil interface value, before
    anything is done.  A [GRPCServer] value that is not nil is not refused,
    whatever it holds: once the set-up and the listener have succeeded the
    shutdown goroutine is started, [Serve] is called, and
    [ListenAndServeGRPC] ends as that call ends, be it with a panic.
    [ListenAndServeTCP] returns nothing but the error of
    [setupWorkerRuntime]. *)
Theorem worker_never_spawns names os pkg network address sigChan schedule st :
  isMainProcess pkg = false ->
  (forall server,
     let c := ListenAndServeHttp names os pkg network address server sigChan schedule in
     count is_main_event (added c st) = 0 /\
     Forall (fun e => worker_kind e = true) (added c st) /\
     started (snd (c st)) = started st /\
     (server = None -> c st = (Value (Some (errorString "nil server passed")), st)) /\
     (server <> None -> setupResult os pkg = Value None ->
      listenResult os network address <> None ->
      In (go go_awaitShutdown) (added c st) /\
      (In server_Serve (added c st) \/ In server_ServeTLS (added c st)))) /\
  (forall server,
     let c := ListenAndServeGRPC names os pkg network address server sigChan schedule in
     count is_main_event (added c st) = 0 /\
     Forall (fun e => worker_kind e = true) (added c st) /\
     started (snd (c st)) = started st /\
     (server = None -> c st = (Value (Some (errorString "nil server passed")), st)) /\
     (forall s, server = Some s -> setupResult os pkg = Value None ->
      listenResult os network address <> None ->
      fst (c st) = grpc_Serve s /\
      In (go go_awaitShutdown) (added c st) /\ In server_Serve (added c st))) /\
  (forall tlsConfig handler accepts,
     let c := ListenAndServeTCP names os pkg network address tlsConfig handler accepts
                sigChan schedule in
     count is_main_event (added c st) = 0 /\
     Forall (fun e => worker_kind e = true) (added c st) /\
     started (snd (c st)) = started st /\
     (forall e, fst (c st) = Value e -> setupResult os pkg = Value e /\ e <> None)).
Proof.
  intros Hw.
  assert (Z : forall evs, Forall (fun e => worker_kind e = true) evs ->
                          count is_main_event evs = 0).
  { intros evs H. apply count_zero_Forall. eapply Forall_impl; [|exact H].
    intros e. apply worker_kind_not_main. }
  assert (Nil : forall A (r : outcome A), (r, st) = (r, {| trace := trace st ++ [];
                                                           started := started st |})).
  { intros. rewrite app_nil_r. now destruct st. }
  split; [|split].
  - intros [server|] c.
    + destruct (ListenAndServeHttp_worker names os pkg network address server
                  sigChan schedule st Hw) as [r [evs (E & K & _ & _ & S)]].
      subst c. rewrite (added_of _ _ _ _ _ E), E. cbn [fst snd started].
      split; [now apply Z|]. split; [exact K|]. split; [reflexivity|].
      split; [discriminate|]. intros _. exact S.
    + assert (E : c st = (Value (Some (errorString "nil server passed")), st))
        by (subst c; unfold ListenAndServeHttp; now rewrite Hw).
      rewrite (added_of c st _ [] (started st)) by (rewrite E; apply Nil).
      rewrite E. cbn [fst snd].
      split; [reflexivity|]. split; [constructor|]. split; [reflexivity|].
      split; [reflexivity|]. intros N. now elim N.
  - intros [server|] c.
    + destruct (ListenAndServeGRPC_worker names os pkg network address server
                  sigChan schedule st Hw) as [r [evs (E & K & _ & _ & S)]].
      subst c. rewrite (added_of _ _ _ _ _ E), E. cbn [fst snd started].
      split; [now apply Z|]. split; [exact K|]. split; [reflexivity|].
      split; [discriminate|]. intros s [= <-]. exact S.
    + assert (E : c st = (Value (Some (errorString "nil server passed")), st))
        by (subst c; unfold ListenAndServeGRPC; now rewrite Hw).
      rewrite (added_of c st _ [] (started st)) by (rewrite E; apply Nil).
      rewrite E. cbn [fst snd].
      split; [reflexivity|]. split; [constructor|]. split; [reflexivity|].
      split; [reflexivity|]. discriminate.
  - intros tlsConfig handler accepts c.
    destruct (ListenAndServeTCP_worker names os pkg network address tlsConfig handler
                accepts sigChan schedule st Hw) as [r [evs (E & K & V)]].
    subst c. rewrite (added_of _ _ _ _ _ E), E. cbn [fst snd started].
    split; [now apply Z|]. split; [exact K|]. split; [reflexivity|]. exact V.
Qed.

Lemma worker_never_spawns_witness :
  count is_main_event
    (added (ListenAndServeHttp gopherpackNames Sample.os Sample.worker "tcp" ":80"
              (Some Sample.server) [] []) initial) = 0.
Proof.
  destruct (worker_never_spawns gopherpackNames Sample.os Sample.worker "tcp" ":80"
              [] [] initial eq_refl) as [H _].
  exact (proj1 (H (Some Sample.server))).
Defined.

(** ** The two revisions of [ListenAndServeHttp] *)

(** X9.  When pinning does not fail, that is when [system.SetAffinity]
    returns no error, moving the set-up of the worker out of
    [ListenAndServeHttp] into [setupWorkerRuntime] changed the log and
    nothing else: for the same package variables and environment the two
    revisions end the same way (also when [system.SetAffinity] panics) and
    make the same calls, in the same order, apart from log lines. *)
Theorem revisions_agree names os pkg network address server sigChan schedule st :
  env.Getenv (Environ os) (envCPUCore names) = workerCpuCore pkg ->
  (forall cpuCore err,
     strconv.Atoi (workerCpuCore pkg) = Ok cpuCore ->
     system.SetAffinity os cpuCore <> Value (Some err)) ->
  let old := Inline.ListenAndServeHttp names os pkg network address server sigChan schedule in
  let new := ListenAndServeHttp names os pkg network address server sigChan schedule in
  fst (old st) = fst (new st) /\
  started (snd (old st)) = started (snd (new st)) /\
  filter (fun e => negb (is_log e)) (added old st)
    = filter (fun e => negb (is_log e)) (added new st).
Proof.
  intros He Hp old new.
  destruct (isMainProcess pkg) eqn:Hm.
  { assert (E : old st = new st).
    { subst old new. unfold Inline.ListenAndServeHttp, ListenAndServeHttp.
      rewrite Hm. unfold Inline.StartMainProcess, StartMainProcess, bind, emit.
      reflexivity. }
    unfold added. rewrite E. repeat split. }
  destruct server as [server|].
  2: { assert (E : old st = new st).
       { subst old new. unfold Inline.ListenAndServeHttp, ListenAndServeHttp.
         now rewrite Hm. }
       unfold added. rewrite E. repeat split. }
  assert (O : exists r evs,
            old st = (r, {| trace := trace st ++ evs; started := started st |}) /\
            exists evs',
              new st = (r, {| trace := trace st ++ evs'; started := started st |}) /\
              filter (fun e => negb (is_log e)) evs
              = filter (fun e => negb (is_log e)) evs').
  { subst old new. unfold Inline.ListenAndServeHttp, ListenAndServeHttp.
    unfold setupWorkerRuntime. rewrite Hm, He.
    destruct (strconv.Atoi (workerCpuCore pkg)) as [c|err] eqn:A.
    - pose proof (fun err => Hp c err eq_refl) as Hc. unfold lift.
      destruct (system.SetAffinity os c) as [[err|]|v|]; [now elim (Hc err)| | |].
      + run. rewrite !getListener_run. cbn [trace started snd].
        destruct (listenResult os network address) as [l|]; cbn [snd].
        * unfold serveHttp.
          destruct (TLSConfig server); run; rewrite <- !app_assoc;
            (eexists; eexists; split; [reflexivity|]);
            (eexists; split; [reflexivity|]); reflexivity.
        * rewrite <- !app_assoc.
          eexists; eexists; split; [reflexivity|].
          eexists; split; [reflexivity|]. reflexivity.
      + run. eexists; eexists; split; [reflexivity|].
        eexists; split; [reflexivity|]. reflexivity.
      + run. eexists; eexists; split; [reflexivity|].
        eexists; split; [reflexivity|]. reflexivity.
    - run. exists (Value (Some err)), []. rewrite app_nil_r.
      split; [now destruct st|]. exists []. rewrite app_nil_r.
      split; [now destruct st | reflexivity]. }
  destruct O as [r [evs [Eo [evs' [En F]]]]].
  rewrite (added_of _ _ _ _ _ Eo), (added_of _ _ _ _ _ En), Eo, En.
  repeat split. exact F.
Qed.

Lemma revisions_agree_witness :
  fst (Inline.ListenAndServeHttp gopherpackNames Sample.os
         (init gopherpackNames 1001 (Environ Sample.os))
         "tcp" ":80" (Some Sample.server) [] [] initial)
  = fst (ListenAndServeHttp gopherpackNames Sample.os
           (init gopherpackNames 1001 (Environ Sample.os))
           "tcp" ":80" (Some Sample.server) [] [] initial).
Proof.
  destruct (revisions_agree gopherpackNames Sample.os
              (init gopherpackNames 1001 (Environ Sample.os))
              "tcp" ":80" (Some Sample.server) [] [] initial eq_refl) as [H _].
  - intros cpuCore err _. unfold system.SetAffinity.
    destruct (unix.CPUSet_Set unix.empty cpuCore); discriminate.
  - exact H.
Defined.

(** ** From the main process to its workers *)

Lemma worker_core_value names os pkg i getpid :
  plainName (envPPID names) = true ->
  plainName (envCPUCore names) = true ->
  envPPID names <> envCPUCore names ->
  strings.HasPrefix (envCPUCore names) (envPrefix names) = true ->
  workerCpuCore (package (start names getpid
                            (childEnv names os (workerEnvVals names pkg i))))
    = fmt.d (Z.of_nat i).
Proof.
  intros Hp Hc Hne Pc. cbn [start package init workerCpuCore].
  unfold env.Getenv. rewrite (childEnv_Lookup names os _ _ Pc).
  unfold workerEnvVals, fmt.Sprintf_s_eq_d.
  fold (env.Getenv ((envPPID names ++ "=" ++ fmt.d (pid pkg))%string
                    :: [(envCPUCore names ++ "=" ++ fmt.d (Z.of_nat i))%string])
                   (envCPUCore names)).
  rewrite Getenv_other_value; [apply (Getenv_own_value _ _ [] Hc) | | exact Hne].
  unfold plainName in Hp. apply andb_true_iff in Hp as [_ Hp].
  now apply negb_true_iff in Hp.
Qed.

(** X10.  The handshake round trip.  With well-formed, distinct variable
    names that carry the package's prefix, the process the pool loop starts
    for core [i] is a worker whatever the environment of the main process
    held; [GetWorkerCPUCoreNum] gives it the decimal text of [i], a
    different text for a different core; and its [setupWorkerRuntime]
    parses that text back and asks to be pinned to core [i] before doing
    anything else. *)
Theorem worker_handshake names os pkg i getpid :
  plainName (envPPID names) = true ->
  plainName (envCPUCore names) = true ->
  envPPID names <> envCPUCore names ->
  strings.HasPrefix (envPPID names) (envPrefix names) = true ->
  strings.HasPrefix (envCPUCore names) (envPrefix names) = true ->
  (Z.of_nat i <= strconv.maxInt)%Z ->
  let child := start names getpid (childEnv names os (workerEnvVals names pkg i)) in
  detectRole child = Worker /\
  GetWorkerCPUCoreNum child = fmt.d (Z.of_nat i) /\
  (forall j,
     GetWorkerCPUCoreNum
       (start names getpid (childEnv names os (workerEnvVals names pkg j)))
     = GetWorkerCPUCoreNum child -> j = i) /\
  (forall os' st,
     exists rest,
       added (setupWorkerRuntime os' (package child)) st
         = system_SetAffinity (Z.of_nat i) :: rest).
Proof.
  intros Hp Hc Hne Pp Pc Hi child.
  assert (Role : forall j,
            isMainProcess (package (start names getpid
                             (childEnv names os (workerEnvVals names pkg j)))) = false).
  { intros j. cbn [start package init isMainProcess].
    apply String.eqb_neq.
    assert (G : env.Getenv (childEnv names os (workerEnvVals names pkg j)) (envPPID names)
                = fmt.d (pid pkg)).
    { unfold env.Getenv. rewrite (childEnv_Lookup names os _ _ Pp).
      apply (Getenv_own_value _ (fmt.d (pid pkg)) _ Hp). }
    rewrite G. apply d_not_empty. }
  assert (Core : forall j,
            GetWorkerCPUCoreNum
              (start names getpid (childEnv names os (workerEnvVals names pkg j)))
            = fmt.d (Z.of_nat j)).
  { intros j. unfold GetWorkerCPUCoreNum. rewrite Role.
    now apply worker_core_value. }
  split; [|split; [|split]].
  - unfold detectRole, IsMainProcess. subst child. now rewrite Role.
  - apply Core.
  - intros j. subst child. rewrite (Core j), (Core i). intros E.
    apply d_injective in E. lia.
  - intros os' st.
    rewrite (added_of _ st _ _ _ (setupWorkerRuntime_run os' (package child) st)).
    unfold setupEvents. subst child.
    rewrite (worker_core_value names os pkg i getpid Hp Hc Hne Pc).
    rewrite Atoi_d by (unfold strconv.minInt; split; [lia | exact Hi]).
    eexists. reflexivity.
Qed.

Lemma worker_handshake_witness :
  GetWorkerCPUCoreNum
    (start gopherpackNames 1002
       (childEnv gopherpackNames Sample.os
          (workerEnvVals gopherpackNames Sample.supervisor 2)))
  = "2".
Proof.
  assert (Hne : envPPID gopherpackNames <> envCPUCore gopherpackNames) by discriminate.
  assert (Hle : (Z.of_nat 2 <= strconv.maxInt)%Z) by (vm_compute; discriminate).
  exact (proj1 (proj2 (worker_handshake gopherpackNames Sample.os Sample.supervisor
                         2 1002 eq_refl eq_refl Hne eq_refl eq_refl Hle))).
Defined.

(** ** What [forkProcess] starts *)

(** X11.  [forkProcess] always returns and starts at most one process.
    When the binary or the working directory cannot be resolved it returns
    that error and starts nothing; when it returns a process, that process
    is the one [os.StartProcess] gave for the resolved binary, the
    arguments and the working directory of the caller, and the sanitized
    environment followed by the new values; when it returns an error after
    resolving both, the error is that of [os.StartProcess]. *)
Theorem forkProcess_starts_at_most_one names os envValues st :
  let c := forkProcess names os envValues in
  exists r,
    fst (c st) = Value r /\
    count is_start_process (added c st) <= 1 /\
    started (snd (c st)) = started st + count is_start_process (added c st) /\
    (forall err, LookPath os (Args0 os) = Err err ->
       r = Err err /\ count is_start_process (added c st) = 0) /\
    (forall err, Getwd os = Err err ->
       (exists err', r = Err err') /\ count is_start_process (added c st) = 0) /\
    (forall filePath dir, LookPath os (Args0 os) = Ok filePath -> Getwd os = Ok dir ->
       filter is_start_process (added c st)
         = [os_StartProcess filePath (Args os) dir (childEnv names os envValues)] /\
       match StartProcess os (started st) filePath (Args os) dir
               (childEnv names os envValues) with
       | Ok p => r = Ok {| Pid := p |}
       | Err err => r = Err err
       end).
Proof.
  intros c. subst c.
  rewrite (added_of _ st _ _ _ (forkProcess_run names os envValues st)).
  rewrite forkProcess_run. cbn [fst snd started].
  exists (forkResult names os (started st) envValues).
  split; [reflexivity|].
  unfold forkResult, forkEvents, forkStarts, located, count.
  destruct (LookPath os (Args0 os)) as [filePath|e1].
  - destruct (Getwd os) as [dir|e2].
    + cbn. split; [lia|]. split; [lia|]. split; [discriminate|]. split; [discriminate|].
      intros f d [= <-] [= <-]. split; [reflexivity|].
      destruct (StartProcess os (started st) filePath (Args os) dir
                  (childEnv names os envValues)); reflexivity.
    + cbn. split; [lia|]. split; [lia|]. split; [discriminate|].
      split; [intros err [= <-]; eauto | discriminate].
  - cbn. split; [lia|]. split; [lia|].
    split; [intros err [= <-]; auto|]. split; [eauto | discriminate].
Qed.
